(** * A2A playground: the task lifecycle engine of [server/tasks.js]

    A shallow embedding of the [TaskManager] class, of the value builders of
    [shared/types] and of the streaming sink of the server, followed by the
    properties of the engine.

    Modelling decisions, all local to this file:
    - JavaScript objects that the engine mutates in place (the task records)
      live in an explicit object heap [objs]; a reference is an index into
      it.  [this.tasks] maps a task id to a reference, [getTask] allocates a
      fresh object holding the deep copy and returns the reference to it.
    - A thrown exception leaves the mutations done so far in place, so an
      operation is a function from the manager to a result and a manager.
    - [await skill.process(...)] is the one suspension point of the engine:
      [processTask] is split at it into [processTask_begin] and
      [processTask_resume].
    - Timestamps are milliseconds since the epoch (the ISO-8601 text that
      [toISOString] prints and [new Date(...)] parses back is elided), read
      from the field [clock].
    - The calls [sendEvent] and [close] on a streaming connection and the
      webhook POST are recorded in the logs [sent], [closed] and [posted].
    - The skill registry is a plain object: a lookup by name finds its own
      keys and, failing them, the names inherited from [Object.prototype].

    The helpers of [shared/utils] and the method handlers of the server
    come after the engine.  The validators read a request body as a
    [JValue]; a handler takes its parameters as a record, returns what it
    left for [process.nextTick] beside its result, and is given the
    streaming connection it would construct. *)

From stdpp Require Import gmap strings list fin_maps.
From Stdlib Require Import ZArith Ascii String.

Local Open Scope string_scope.
Local Open Scope list_scope.
Local Open Scope Z_scope.

(** ** shared/types *)

Module Types.

(** A JSON value, for free-form payloads. *)
#[local] Unset Elimination Schemes.
Inductive JValue :=
| JNull
| JBool (b : bool)
| JNum (z : Z)
| JStr (s : string)
| JArr (l : list JValue)
| JObj (l : list (string * JValue)).
#[local] Set Elimination Schemes.

Inductive TaskState :=
| SUBMITTED | WORKING | INPUT_REQUIRED | COMPLETED | CANCELED | FAILED | UNKNOWN.

Inductive Role := user | agent.

Record FileContent := {
  fc_name : string; fc_mimeType : string;
  fc_bytes : option string; fc_uri : option string }.

Inductive Part :=
| TextPart (text : string) (metadata : option JValue)
| FilePart (file : FileContent) (metadata : option JValue)
| DataPart (data : JValue) (metadata : option JValue).

Record Message := {
  role : Role; parts : list Part; m_metadata : option JValue }.

Record TaskStatus := {
  state : TaskState; message : option Message; timestamp : Z }.

Record Artifact := {
  a_name : string; a_description : option string; a_parts : list Part;
  a_index : Z; a_append : bool; a_lastChunk : bool;
  a_metadata : option JValue }.

(** [task.metadata]: the two keys the engine and the skills read or write. *)
Record Metadata := {
  md_skill : option string; md_orchestration : option JValue }.

Record Task := {
  id : string; sessionId : option string; status : TaskStatus;
  artifacts : option (list Artifact); history : option (list Message);
  metadata : option Metadata }.

(** JSON-RPC error codes *)
Module ErrorCodes.
Definition PARSE_ERROR : Z := -32700.
Definition INVALID_REQUEST : Z := -32600.
Definition METHOD_NOT_FOUND : Z := -32601.
Definition INVALID_PARAMS : Z := -32602.
Definition INTERNAL_ERROR : Z := -32603.
Definition TASK_NOT_FOUND : Z := -32001.
Definition TASK_NOT_CANCELABLE : Z := -32002.
Definition PUSH_NOTIFICATION_NOT_SUPPORTED : Z := -32003.
Definition OPERATION_NOT_SUPPORTED : Z := -32004.
Definition CONTENT_TYPE_NOT_SUPPORTED : Z := -32005.
Definition STREAMING_NOT_SUPPORTED : Z := -32006.
Definition AUTHENTICATION_REQUIRED : Z := -32007.
Definition AUTHORIZATION_FAILED : Z := -32008.
Definition INVALID_TASK_STATE : Z := -32009.
Definition RATE_LIMIT_EXCEEDED : Z := -32010.
Definition RESOURCE_UNAVAILABLE : Z := -32011.
End ErrorCodes.

(** What a [throw] carries: the object built by [createJsonRpcError], or a
    JavaScript [Error].  Both have a [message]. *)
Inductive Thrown :=
| JsonRpcError (code : Z) (msg : string) (data : option JValue)
| JsError (msg : string).

Definition error_message (e : Thrown) : string :=
  match e with JsonRpcError _ m _ => m | JsError m => m end.

Definition error_code (e : Thrown) : option Z :=
  match e with JsonRpcError c _ _ => Some c | JsError _ => None end.

Definition createJsonRpcError (code : Z) (msg : string) (data : option JValue) : Thrown :=
  JsonRpcError code msg data.

Definition createTextPart (text : string) : Part := TextPart text None.

Definition createMessage (r : Role) (ps : list Part) : Message :=
  {| role := r; parts := ps; m_metadata := None |}.

(** [timestamp || new Date().toISOString()] with no timestamp given: the
    caller passes the current time. *)
Definition createTaskStatus (s : TaskState) (m : option Message) (now : Z) : TaskStatus :=
  {| state := s; message := m; timestamp := now |}.

Definition createTask (i : string) (st : TaskStatus) (sid : option string)
    (arts : option (list Artifact)) (hist : option (list Message))
    (md : option Metadata) : Task :=
  {| id := i; sessionId := sid; status := st; artifacts := arts;
     history := hist; metadata := md |}.

(** The state as it is written on the wire. *)
Definition state_name (s : TaskState) : string :=
  match s with
  | SUBMITTED => "submitted" | WORKING => "working"
  | INPUT_REQUIRED => "input-required" | COMPLETED => "completed"
  | CANCELED => "canceled" | FAILED => "failed" | UNKNOWN => "unknown"
  end.

(** [['completed', 'canceled', 'failed'].includes(state)] *)
Definition is_terminal (s : TaskState) : bool :=
  match s with COMPLETED | CANCELED | FAILED => true | _ => false end.

Definition is_input_required (s : TaskState) : bool :=
  match s with INPUT_REQUIRED => true | _ => false end.

(** Field updates of a task object. *)
Definition set_status (s : TaskStatus) (t : Task) : Task :=
  {| id := id t; sessionId := sessionId t; status := s;
     artifacts := artifacts t; history := history t; metadata := metadata t |}.
Definition set_history (h : option (list Message)) (t : Task) : Task :=
  {| id := id t; sessionId := sessionId t; status := status t;
     artifacts := artifacts t; history := h; metadata := metadata t |}.
Definition set_artifacts (a : option (list Artifact)) (t : Task) : Task :=
  {| id := id t; sessionId := sessionId t; status := status t;
     artifacts := a; history := history t; metadata := metadata t |}.
Definition set_status_message (m : option Message) (t : Task) : Task :=
  set_status {| state := state (status t); message := m;
                timestamp := timestamp (status t) |} t.

End Types.
Import Types.

(** ** Strings: [toLowerCase] and [includes] *)

Definition lower_ascii (c : ascii) : ascii :=
  let n := nat_of_ascii c in
  if (Nat.leb 65 n && Nat.leb n 90)%bool then ascii_of_nat (n + 32) else c.

(** [toLowerCase]: every keyword searched below is ASCII. *)
Fixpoint toLowerCase (s : string) : string :=
  match s with
  | EmptyString => EmptyString
  | String c r => String (lower_ascii c) (toLowerCase r)
  end.

Fixpoint includes (needle hay : string) : bool :=
  if String.prefix needle hay then true
  else match hay with
       | EmptyString => false
       | String _ r => includes needle r
       end.

(** ** The manager *)

(** A streaming connection is known by its identity. *)
Definition Connection := nat.

(** [sendEvent(eventType, data, isFinal)]: the event type and its payload,
    and the [final] flag. *)
Inductive EventData :=
| StatusEvent (s : TaskStatus)
| ArtifactEvent (a : Artifact).

Record StreamEvent := { ev_data : EventData; ev_final : bool }.

Record PushNotificationConfig := {
  url : string; token : option string;
  authentication : option (list string) }.

(** One webhook POST: target, headers and the payload fields. *)
Record PushRequest := {
  pr_url : string; pr_headers : list (string * string);
  pr_taskId : string; pr_status : TaskStatus; pr_timestamp : Z }.

Record TaskManager := {
  objs : list Task;
  tasks : gmap string nat;
  sessions : gmap string (list string);
  pushNotificationConfigs : gmap string PushNotificationConfig;
  streamingConnections : gmap string (list Connection);
  clock : Z;
  sent : list (Connection * StreamEvent);
  closed : list Connection;
  posted : list PushRequest }.

(** [new TaskManager()] at time [now]. *)
Definition new_TaskManager (now : Z) : TaskManager :=
  {| objs := []; tasks := ∅; sessions := ∅; pushNotificationConfigs := ∅;
     streamingConnections := ∅; clock := now; sent := []; closed := [];
     posted := [] |}.

Definition with_objs (f : list Task → list Task) (m : TaskManager) : TaskManager :=
  {| objs := f (objs m); tasks := tasks m; sessions := sessions m;
     pushNotificationConfigs := pushNotificationConfigs m;
     streamingConnections := streamingConnections m; clock := clock m;
     sent := sent m; closed := closed m; posted := posted m |}.
Definition with_tasks (f : gmap string nat → gmap string nat) (m : TaskManager) : TaskManager :=
  {| objs := objs m; tasks := f (tasks m); sessions := sessions m;
     pushNotificationConfigs := pushNotificationConfigs m;
     streamingConnections := streamingConnections m; clock := clock m;
     sent := sent m; closed := closed m; posted := posted m |}.
Definition with_sessions (f : gmap string (list string) → gmap string (list string))
    (m : TaskManager) : TaskManager :=
  {| objs := objs m; tasks := tasks m; sessions := f (sessions m);
     pushNotificationConfigs := pushNotificationConfigs m;
     streamingConnections := streamingConnections m; clock := clock m;
     sent := sent m; closed := closed m; posted := posted m |}.
Definition with_configs
    (f : gmap string PushNotificationConfig → gmap string PushNotificationConfig)
    (m : TaskManager) : TaskManager :=
  {| objs := objs m; tasks := tasks m; sessions := sessions m;
     pushNotificationConfigs := f (pushNotificationConfigs m);
     streamingConnections := streamingConnections m; clock := clock m;
     sent := sent m; closed := closed m; posted := posted m |}.
Definition with_connections
    (f : gmap string (list Connection) → gmap string (list Connection))
    (m : TaskManager) : TaskManager :=
  {| objs := objs m; tasks := tasks m; sessions := sessions m;
     pushNotificationConfigs := pushNotificationConfigs m;
     streamingConnections := f (streamingConnections m); clock := clock m;
     sent := sent m; closed := closed m; posted := posted m |}.
Definition with_sent (f : list (Connection * StreamEvent) → list (Connection * StreamEvent))
    (m : TaskManager) : TaskManager :=
  {| objs := objs m; tasks := tasks m; sessions := sessions m;
     pushNotificationConfigs := pushNotificationConfigs m;
     streamingConnections := streamingConnections m; clock := clock m;
     sent := f (sent m); closed := closed m; posted := posted m |}.
Definition with_closed (f : list Connection → list Connection) (m : TaskManager) : TaskManager :=
  {| objs := objs m; tasks := tasks m; sessions := sessions m;
     pushNotificationConfigs := pushNotificationConfigs m;
     streamingConnections := streamingConnections m; clock := clock m;
     sent := sent m; closed := f (closed m); posted := posted m |}.
Definition with_posted (f : list PushRequest → list PushRequest) (m : TaskManager) : TaskManager :=
  {| objs := objs m; tasks := tasks m; sessions := sessions m;
     pushNotificationConfigs := pushNotificationConfigs m;
     streamingConnections := streamingConnections m; clock := clock m;
     sent := sent m; closed := closed m; posted := f (posted m) |}.
(** Time passing between two operations. *)
Definition advance (d : Z) (m : TaskManager) : TaskManager :=
  {| objs := objs m; tasks := tasks m; sessions := sessions m;
     pushNotificationConfigs := pushNotificationConfigs m;
     streamingConnections := streamingConnections m; clock := clock m + d;
     sent := sent m; closed := closed m; posted := posted m |}.

(** *** Operations: a result or a thrown value, and the manager after *)

Inductive Result (A : Type) :=
| Ok (a : A)
| Throw (e : Thrown).
Arguments Ok {A} a.
Arguments Throw {A} e.

Definition M (A : Type) : Type := TaskManager → Result A * TaskManager.

Definition ret {A} (a : A) : M A := λ m, (Ok a, m).
Definition throw {A} (e : Thrown) : M A := λ m, (Throw e, m).
Definition bind {A B} (c : M A) (k : A → M B) : M B :=
  λ m, match c m with
       | (Ok a, m') => k a m'
       | (Throw e, m') => (Throw e, m')
       end.
(** [try { body } catch (error) { handler }] *)
Definition try_catch {A} (body : M A) (handler : Thrown → M A) : M A :=
  λ m, match body m with
       | (Ok a, m') => (Ok a, m')
       | (Throw e, m') => handler e m'
       end.
(** Calling an [async] function without awaiting it: what it does before
    its first [await] happens now, a failure rejects its promise and is not
    thrown to the caller. *)
Definition fire_and_forget (c : M unit) : M unit :=
  λ m, (Ok tt, snd (c m)).

Definition gets {A} (f : TaskManager → A) : M A := λ m, (Ok (f m), m).
Definition modify (f : TaskManager → TaskManager) : M unit := λ m, (Ok tt, f m).

Declare Scope js_scope.
Delimit Scope js_scope with js.
Notation "x <- c ;; k" := (bind c (λ x, k))
  (at level 100, c at next level, right associativity) : js_scope.
Notation "c ;;; k" := (bind c (λ _, k))
  (at level 100, right associativity) : js_scope.
Local Open Scope js_scope.

(** [for (x of xs) body(x)] and [xs.forEach(body)] *)
Fixpoint for_each {A} (xs : list A) (body : A → M unit) : M unit :=
  match xs with
  | [] => ret tt
  | x :: r => body x ;;; for_each r body
  end.

(** *** The object heap *)

(** A new object. *)
Definition alloc (t : Task) : M nat :=
  λ m, (Ok (List.length (objs m)), with_objs (λ h, h ++ [t]) m).

(** Reading an object through a reference.  References are only made by
    [alloc], so the second case is never met on a manager the operations
    built. *)
Definition load (r : nat) : M Task :=
  λ m, match objs m !! r with
       | Some t => (Ok t, m)
       | None => (Throw (JsError "invalid reference"), m)
       end.

(** An assignment to fields of the object behind [r]. *)
Definition store (r : nat) (f : Task → Task) : M unit :=
  modify (with_objs (λ h, alter f r h)).

(** The task object held by [this.tasks] under [taskId]. *)
Definition stored (m : TaskManager) (taskId : string) : option Task :=
  tasks m !! taskId ≫= λ r, objs m !! r.

(** *** Streaming sink *)

Definition sendEvent (c : Connection) (d : EventData) (isFinal : bool) : M unit :=
  modify (with_sent (λ l, l ++ [(c, {| ev_data := d; ev_final := isFinal |})])).

Definition close (c : Connection) : M unit :=
  modify (with_closed (λ l, l ++ [c])).

(** ** server/skills.js: the capability interface *)

Record SkillResult := {
  r_message : option Message; r_artifacts : option (list Artifact) }.

(** A capability call ([process], [continueOrchestration]) is given a task
    object; it may assign to the fields of that object, and it returns a
    result or throws. *)
Definition Capability : Type := Task → Task * Result SkillResult.

Record Skill := {
  process : Capability;
  continueOrchestration : option Capability }.

(** The call [f(task, this)] on the object behind [task]. *)
Definition invoke (f : Capability) (task : nat) : M SkillResult :=
  t <- load task ;;
  store task (λ _, fst (f t)) ;;;
  (λ m, (snd (f t), m)).

(** ** server/tasks.js: class TaskManager *)

Record CreateParams := {
  p_id : string; p_sessionId : option string; p_message : option Message }.

(** A string in a condition: absent and empty are false. *)
Definition truthy (s : option string) : bool :=
  match s with
  | Some s => negb (String.eqb s "")
  | None => false
  end.

Definition task_data (taskId : string) : option JValue :=
  Some (JObj [("taskId", JStr taskId)]).

Definition task_state_data (taskId : string) (s : TaskState) : option JValue :=
  Some (JObj [("taskId", JStr taskId); ("currentState", JStr (state_name s))]).

Definition TaskNotFound (taskId : string) : Thrown :=
  createJsonRpcError ErrorCodes.TASK_NOT_FOUND "Task not found" (task_data taskId).

(** [arr.slice(-n)] *)
Definition slice_last {A} (n : nat) (l : list A) : list A :=
  drop (List.length l - n) l.

(** [arr.splice(arr.indexOf(x), 1)] when [x] occurs *)
Fixpoint remove_first (x : Connection) (l : list Connection) : list Connection :=
  match l with
  | [] => []
  | y :: r => if Nat.eqb x y then r else y :: remove_first x r
  end.

Definition createTask (params : CreateParams) : M nat :=
  let id := p_id params in
  let sessionId := p_sessionId params in
  has <- gets (λ m, bool_decide (is_Some (tasks m !! id))) ;;
  if has : bool then
    throw (createJsonRpcError ErrorCodes.INVALID_PARAMS
             "Task with this ID already exists" (task_data id))
  else
    now <- gets clock ;;
    let status := createTaskStatus SUBMITTED (p_message params) now in
    task <- alloc (Types.createTask id status sessionId (Some []) None
                     (Some {| md_skill := None; md_orchestration := None |})) ;;
    modify (with_tasks (insert id task)) ;;;
    (if truthy sessionId then
       let sid := default "" sessionId in
       known <- gets (λ m, bool_decide (is_Some (sessions m !! sid))) ;;
       (if known : bool then ret tt else modify (with_sessions (insert sid []))) ;;;
       modify (with_sessions (alter (λ l, l ++ [id]) sid))
     else ret tt) ;;;
    ret task.

Definition getTask (taskId : string) (historyLength : nat) : M nat :=
  task <- gets (λ m, tasks m !! taskId) ;;
  match task with
  | None => throw (TaskNotFound taskId)
  | Some task =>
      t <- load task ;;
      (* JSON.parse(JSON.stringify(task)): a new object *)
      taskCopy <- alloc t ;;
      (match history t with
       | Some h =>
           if (0 <? historyLength)%nat
           then store taskCopy (set_history (Some (slice_last historyLength h)))
           else ret tt
       | None => ret tt
       end) ;;;
      ret taskCopy
  end.

Definition push_headers (config : PushNotificationConfig) : list (string * string) :=
  [("Content-Type", "application/json")]
  ++ (if truthy (token config)
      then [("X-A2A-Notification-Token", default "" (token config))] else [])
  ++ (match authentication config with
      | Some schemes =>
          if bool_decide ("Bearer" ∈ schemes)
          then [("Authorization", "Bearer demo-token")] else []
      | None => []
      end).

Definition sendPushNotification (taskId : string) : M unit :=
  config <- gets (λ m, pushNotificationConfigs m !! taskId) ;;
  match config with
  | None => ret tt
  | Some config =>
      task <- getTask taskId 0 ;;
      t <- load task ;;
      now <- gets clock ;;
      modify (with_posted (λ l, l ++
        [{| pr_url := url config; pr_headers := push_headers config;
            pr_taskId := taskId; pr_status := status t; pr_timestamp := now |}]))
  end.

Definition notifyStreamingConnections (taskId : string) (data : EventData) : M unit :=
  connections <- gets (λ m, streamingConnections m !! taskId) ;;
  match connections with
  | None => ret tt
  | Some connections =>
      task <- getTask taskId 0 ;;
      t <- load task ;;
      let isTerminal := is_terminal (state (status t)) in
      for_each connections (λ connection, sendEvent connection data isTerminal) ;;;
      if isTerminal then
        for_each connections close ;;;
        modify (with_connections (delete taskId))
      else ret tt
  end.

Definition updateTaskStatus (taskId : string) (newStatus : TaskStatus) : M nat :=
  task <- gets (λ m, tasks m !! taskId) ;;
  match task with
  | None => throw (TaskNotFound taskId)
  | Some task =>
      t <- load task ;;
      (match message (status t) with
       | Some msg =>
           store task (λ t, set_history (Some (default [] (history t) ++ [msg])) t)
       | None => ret tt
       end) ;;;
      store task (set_status newStatus) ;;;
      t <- load task ;;
      notifyStreamingConnections taskId (StatusEvent (status t)) ;;;
      configured <- gets (λ m, bool_decide (is_Some (pushNotificationConfigs m !! taskId))) ;;
      (if configured : bool then fire_and_forget (sendPushNotification taskId) else ret tt) ;;;
      ret task
  end.

Definition addArtifacts (taskId : string) (arts : list Artifact) : M nat :=
  task <- gets (λ m, tasks m !! taskId) ;;
  match task with
  | None => throw (TaskNotFound taskId)
  | Some task =>
      store task (λ t, set_artifacts (Some (default [] (artifacts t) ++ arts)) t) ;;;
      for_each arts (λ artifact, notifyStreamingConnections taskId (ArtifactEvent artifact)) ;;;
      ret task
  end.

(** The keywords of one lower-cased text part, in the order they are tried. *)
Definition keyword_skill (text : string) : option string :=
  if (includes "analyze" text || includes "sentiment" text)%bool
  then Some "text-analysis"
  else if (includes "image" text || includes "photo" text || includes "picture" text)%bool
  then Some "image-processing"
  else if (includes "convert" text || includes "transform" text
           || includes "csv" text || includes "json" text)%bool
  then Some "data-transformation"
  else if (includes "batch" text || includes "pipeline" text
           || includes "orchestrate" text)%bool
  then Some "task-orchestration"
  else None.

Fixpoint scan_parts (ps : list Part) : string :=
  match ps with
  | [] => "text-analysis"
  | TextPart text _ :: r =>
      match keyword_skill (toLowerCase text) with
      | Some skill => skill
      | None => scan_parts r
      end
  | _ :: r => scan_parts r
  end.

(** [null] is [None]. *)
Definition determineSkill (task : Task) : option string :=
  if truthy (metadata task ≫= md_skill) then metadata task ≫= md_skill
  else match message (status task) with
       | None => None
       | Some msg => Some (scan_parts (parts msg))
       end.

Definition cancelTask (taskId : string) : M nat :=
  task <- getTask taskId 0 ;;
  t <- load task ;;
  if is_terminal (state (status t)) then
    throw (createJsonRpcError ErrorCodes.TASK_NOT_CANCELABLE
             "Task cannot be canceled" (task_state_data taskId (state (status t))))
  else
    now <- gets clock ;;
    let canceledStatus :=
      createTaskStatus CANCELED
        (Some (createMessage agent [createTextPart "Task canceled by user request"])) now in
    updateTaskStatus taskId canceledStatus ;;;
    getTask taskId 0.

Definition setPushNotificationConfig (taskId : string)
    (config : option PushNotificationConfig)
  : M (string * option PushNotificationConfig) :=
  getTask taskId 0 ;;;
  (match config with
   | Some c => modify (with_configs (insert taskId c))
   | None => modify (with_configs (delete taskId))
   end) ;;;
  ret (taskId, config).

Definition getPushNotificationConfig (taskId : string)
  : M (string * option PushNotificationConfig) :=
  getTask taskId 0 ;;;
  config <- gets (λ m, pushNotificationConfigs m !! taskId) ;;
  ret (taskId, config).

Definition addStreamingConnection (taskId : string) (connection : Connection) : M unit :=
  has <- gets (λ m, bool_decide (is_Some (streamingConnections m !! taskId))) ;;
  (if has : bool then ret tt else modify (with_connections (insert taskId []))) ;;;
  modify (with_connections (alter (λ l, l ++ [connection]) taskId)) ;;;
  task <- getTask taskId 0 ;;
  t <- load task ;;
  sendEvent connection (StatusEvent (status t)) false ;;;
  match artifacts t with
  | Some arts => for_each arts (λ artifact, sendEvent connection (ArtifactEvent artifact) false)
  | None => ret tt
  end.

Definition removeStreamingConnection (taskId : string) (connection : Connection) : M unit :=
  connections <- gets (λ m, streamingConnections m !! taskId) ;;
  match connections with
  | None => ret tt
  | Some connections =>
      let connections := remove_first connection connections in
      modify (with_connections (insert taskId connections)) ;;;
      match connections with
      | [] => modify (with_connections (delete taskId))
      | _ => ret tt
      end
  end.

Definition cleanupExpiredTasks (maxAge : Z) : M unit :=
  now <- gets clock ;;
  entries <- gets (λ m, map_to_list (tasks m)) ;;
  for_each entries (λ '(taskId, task),
    t <- load task ;;
    let age := now - timestamp (status t) in
    if ((maxAge <? age) && is_terminal (state (status t)))%bool then
      modify (with_tasks (delete taskId)) ;;;
      modify (with_configs (delete taskId))
    else ret tt).

(** The registry of [server/skills.js] is a plain object, so a lookup by
    name also finds what every object inherits from [Object.prototype]: a
    function, and for [__proto__] the prototype itself, none of them
    [undefined]. *)
Definition inherited_names : list string :=
  ["constructor"; "__defineGetter__"; "__defineSetter__"; "hasOwnProperty";
   "__lookupGetter__"; "__lookupSetter__"; "isPrototypeOf"; "propertyIsEnumerable";
   "toString"; "valueOf"; "__proto__"; "toLocaleString"].

(** Such a member where a skill is expected: it has no [process], so
    [skill.process(task, this)] throws a TypeError with the task the call
    was to be given untouched, and it has no [continueOrchestration]. *)
Definition inherited_member : Skill :=
  {| process := λ task, (task, Throw (JsError "skill.process is not a function"));
     continueOrchestration := None |}.

Section Skills.

(** The registry exported by [server/skills.js]: its own keys. *)
Variable skills : gmap string Skill.

(** [skills[s]] *)
Definition member (s : string) : option Skill :=
  match skills !! s with
  | Some skill => Some skill
  | None => if bool_decide (s ∈ inherited_names) then Some inherited_member else None
  end.

(** [skills[skillId]] behind the guard [!skillId] of [processTask]. *)
Definition lookup_skill (skillId : option string) : option Skill :=
  skillId ≫= λ s, if String.eqb s "" then None else member s.

(** [processTask] up to [await skill.process(task, this)]: the copy handed
    to the capability, and the capability. *)
Definition processTask_begin (taskId : string) : M (nat * Skill) :=
  task <- getTask taskId 0 ;;
  t <- load task ;;
  let skillId := determineSkill t in
  match lookup_skill skillId with
  | None => throw (JsError (String.append "Unknown skill: " (default "null" skillId)))
  | Some skill =>
      now <- gets clock ;;
      updateTaskStatus taskId (createTaskStatus WORKING None now) ;;;
      ret (task, skill)
  end.

(** [processTask] from the [await] on: [outcome] is the awaited call. *)
Definition processTask_resume (taskId : string) (outcome : M SkillResult) : M nat :=
  try_catch
    (result <- outcome ;;
     (match r_artifacts result with
      | Some (a :: l) => addArtifacts taskId (a :: l) ;;; ret tt
      | _ => ret tt
      end) ;;;
     now <- gets clock ;;
     let finalStatus := createTaskStatus COMPLETED (r_message result) now in
     updateTaskStatus taskId finalStatus ;;;
     getTask taskId 0)
    (λ error,
       let errorMessage :=
         createMessage agent
           [createTextPart (String.append "Error: " (error_message error))] in
       now <- gets clock ;;
       let failedStatus := createTaskStatus FAILED (Some errorMessage) now in
       updateTaskStatus taskId failedStatus ;;;
       throw error).

(** [processTask] with nothing scheduled during the [await]. *)
Definition processTask (taskId : string) : M nat :=
  started <- processTask_begin taskId ;;
  processTask_resume taskId (invoke (process (snd started)) (fst started)).

Definition continueTask (taskId : string) (userMessage : Message) : M nat :=
  task <- getTask taskId 0 ;;
  t <- load task ;;
  if negb (is_input_required (state (status t))) then
    throw (createJsonRpcError ErrorCodes.INVALID_TASK_STATE
             "Task is not waiting for input"
             (task_state_data taskId (state (status t))))
  else
    store task (λ t, set_history (Some (default [] (history t) ++ [userMessage])) t) ;;;
    t <- load task ;;
    let skillId := determineSkill t in
    (* skills[skillId], with no guard: a null id is looked up as "null" *)
    match member (default "null" skillId) with
    | None =>
        throw (JsError "Cannot read properties of undefined (reading 'continueOrchestration')")
    | Some skill =>
        match continueOrchestration skill with
        | Some continue =>
            result <- invoke continue task ;;
            (match r_artifacts result with
             | Some arts => addArtifacts taskId arts ;;; ret tt
             | None => ret tt
             end) ;;;
            (match r_message result with
             | Some msg =>
                 t <- load task ;;
                 now <- gets clock ;;
                 let status :=
                   createTaskStatus
                     (if is_input_required (state (status t))
                      then INPUT_REQUIRED else COMPLETED)
                     (Some msg) now in
                 updateTaskStatus taskId status ;;; ret tt
             | None => ret tt
             end) ;;;
            getTask taskId 0
        | None =>
            store task (set_status_message (Some userMessage)) ;;;
            processTask taskId
        end
    end.

End Skills.

(** ** What the operations leave behind *)

(** The copy [getTask] makes of a task. *)
Definition truncated (n : nat) (t : Task) : Task :=
  match history t with
  | Some h => if (0 <? n)%nat then set_history (Some (slice_last n h)) t else t
  | None => t
  end.

(** The outgoing status message goes to the history. *)
Definition archived (t : Task) : Task :=
  match message (status t) with
  | Some msg => set_history (Some (default [] (history t) ++ [msg])) t
  | None => t
  end.

Definition installed (s : TaskStatus) (t : Task) : Task := set_status s (archived t).

Definition event_to (d : EventData) (f : bool) (c : Connection) : Connection * StreamEvent :=
  (c, {| ev_data := d; ev_final := f |}).

(** The manager after [notifyStreamingConnections] found the connections
    [cs] and the task [t]. *)
Definition notified (taskId : string) (d : EventData) (t : Task) (cs : list Connection)
    (m : TaskManager) : TaskManager :=
  let f := is_terminal (state (status t)) in
  let m1 := with_sent (λ l, l ++ map (event_to d f) cs) (with_objs (λ h, h ++ [t]) m) in
  if f then with_connections (delete taskId) (with_closed (λ l, l ++ cs) m1) else m1.

(** The manager after [sendPushNotification] found [config] and the task. *)
Definition pushed (taskId : string) (config : PushNotificationConfig) (t : Task)
    (m : TaskManager) : TaskManager :=
  with_posted (λ l, l ++
     [{| pr_url := url config; pr_headers := push_headers config;
         pr_taskId := taskId; pr_status := status t; pr_timestamp := clock m |}])
    (with_objs (λ h, h ++ [t]) m).

(** The manager after [updateTaskStatus] on the task object [t] behind [r]. *)
Definition updated (taskId : string) (s : TaskStatus) (r : nat) (t : Task)
    (m : TaskManager) : TaskManager :=
  let t1 := installed s t in
  let m1 := with_objs (λ h, <[r := t1]> h) m in
  let m2 := match streamingConnections m !! taskId with
            | Some cs => notified taskId (StatusEvent s) t1 cs m1
            | None => m1
            end in
  match pushNotificationConfigs m !! taskId with
  | Some config => pushed taskId config t1 m2
  | None => m2
  end.

(** Every reference held by [this.tasks] is a reference to an object. *)
Definition wf (m : TaskManager) : Prop :=
  ∀ taskId r, tasks m !! taskId = Some r → is_Some (objs m !! r).

(** The condition of the sweep. *)
Definition expired (maxAge now : Z) (t : Task) : bool :=
  ((maxAge <? now - timestamp (status t)) && is_terminal (state (status t)))%bool.

Definition sweepable (maxAge : Z) (m : TaskManager) (taskId : string) : bool :=
  match stored m taskId with
  | Some t => expired maxAge (clock m) t
  | None => false
  end.

(** A sequence of [updateTaskStatus] calls on one task. *)
Fixpoint updateStatuses (taskId : string) (ss : list TaskStatus) : M unit :=
  match ss with
  | [] => ret tt
  | s :: r => updateTaskStatus taskId s ;;; updateStatuses taskId r
  end.

(** A sequence of publishing calls on one task. *)
Inductive Publish :=
| PublishStatus (s : TaskStatus)
| PublishArtifacts (arts : list Artifact)
| PublishEvent (d : EventData).

Definition publish (taskId : string) (p : Publish) : M unit :=
  match p with
  | PublishStatus s => updateTaskStatus taskId s ;;; ret tt
  | PublishArtifacts arts => addArtifacts taskId arts ;;; ret tt
  | PublishEvent d => notifyStreamingConnections taskId d
  end.

Fixpoint publishes (taskId : string) (ps : list Publish) (m : TaskManager) : TaskManager :=
  match ps with
  | [] => m
  | p :: r => publishes taskId r (snd (publish taskId p m))
  end.

(** The final events a connection was sent. *)
Definition finals_to (c : Connection) (l : list (Connection * StreamEvent)) : nat :=
  List.length (filter (λ e, e.1 = c ∧ ev_final e.2 = true) l).

(** The statuses a task had before the current one, and the current one,
    when it started with [s0] and went through [ss]. *)
Definition prior_statuses (s0 : TaskStatus) (ss : list TaskStatus) : list TaskStatus :=
  removelast (s0 :: ss).

Definition current_status (s0 : TaskStatus) (ss : list TaskStatus) : TaskStatus :=
  List.last ss s0.

(** ** Section 7 of the specification: the error taxonomy *)

Inductive ErrorKind :=
| AlreadyExists | NotFound | InvalidParams | InvalidTaskState | NotCancelable
| MethodNotFound | AuthenticationRequired | Internal.

(** The taxonomy in the words of the specification, read on thrown values:
    a JSON-RPC error falls under the kind that the name of its code in
    [ErrorCodes] spells, and whatever else is thrown is what the dispatcher
    reports as an internal error.  No code of [ErrorCodes] stands for
    [AlreadyExists]: the error that [createTask] throws for an id that is
    taken has the code of the invalid parameters and is told from them by
    its message. *)
Definition error_kind (e : Thrown) : ErrorKind :=
  match e with
  | JsonRpcError c msg _ =>
      if ((c =? ErrorCodes.INVALID_PARAMS)
          && String.eqb msg "Task with this ID already exists")%bool then AlreadyExists
      else if c =? ErrorCodes.INVALID_PARAMS then InvalidParams
      else if c =? ErrorCodes.TASK_NOT_FOUND then NotFound
      else if c =? ErrorCodes.TASK_NOT_CANCELABLE then NotCancelable
      else if c =? ErrorCodes.INVALID_TASK_STATE then InvalidTaskState
      else if c =? ErrorCodes.METHOD_NOT_FOUND then MethodNotFound
      else if c =? ErrorCodes.AUTHENTICATION_REQUIRED then AuthenticationRequired
      else Internal
  | JsError _ => Internal
  end.

(** ** Auxiliary definitions for the statements *)

(** The task object [createTask] builds. *)
Definition new_task (params : CreateParams) (now : Z) : Task :=
  Types.createTask (p_id params)
    (createTaskStatus SUBMITTED (p_message params) now) (p_sessionId params)
    (Some []) None (Some {| md_skill := None; md_orchestration := None |}).

(** The events replayed to a new subscriber. *)
Definition replay (c : Connection) (t : Task) : list (Connection * StreamEvent) :=
  event_to (StatusEvent (status t)) false c
  :: map (λ a, event_to (ArtifactEvent a) false c) (default [] (artifacts t)).

(** The status [cancelTask] installs. *)
Definition canceledStatus (now : Z) : TaskStatus :=
  createTaskStatus CANCELED
    (Some (createMessage agent [createTextPart "Task canceled by user request"])) now.

(** The task object after the statuses [ss] were installed one by one. *)
Definition after_statuses (t : Task) (ss : list TaskStatus) : Task :=
  foldl (λ t s, installed s t) t ss.

(** One turn of the loop of [cleanupExpiredTasks]. *)
Definition sweep_entry (maxAge now : Z) (entry : string * nat) : M unit :=
  let '(taskId, task) := entry in
  t <- load task ;;
  let age := now - timestamp (status t) in
  if ((maxAge <? age) && is_terminal (state (status t)))%bool then
    modify (with_tasks (delete taskId)) ;;;
    modify (with_configs (delete taskId))
  else ret tt.

(** The entry under [taskId] is among [es] and its task meets the condition. *)
Definition swept (maxAge now : Z) (h : list Task) (es : list (string * nat))
    (taskId : string) : Prop :=
  ∃ r t, (taskId, r) ∈ es ∧ h !! r = Some t ∧ expired maxAge now t = true.

(** The task object after [addArtifacts]. *)
Definition with_artifacts (arts : list Artifact) (t : Task) : Task :=
  set_artifacts (Some (default [] (artifacts t) ++ arts)) t.

(** The two statuses the last step of [processTask] installs. *)
Definition completedStatus (result : SkillResult) (now : Z) : TaskStatus :=
  createTaskStatus COMPLETED (r_message result) now.

Definition failedStatus (error : Thrown) (now : Z) : TaskStatus :=
  createTaskStatus FAILED
    (Some (createMessage agent
             [createTextPart (String.append "Error: " (error_message error))])) now.

(** The artifacts [processTask] appends: none when the list is empty. *)
Definition with_result_artifacts (result : SkillResult) (t : Task) : Task :=
  match r_artifacts result with
  | Some (a :: l) => with_artifacts (a :: l) t
  | _ => t
  end.

(** ** A small run of the server *)

Definition analyze_request : Message :=
  createMessage user [createTextPart "please analyze this"].

Definition prompt : Message :=
  createMessage agent [createTextPart "Which format do you want?"].

Definition answer : Message :=
  createMessage user [createTextPart "json please"].

Definition summary : Artifact :=
  {| a_name := "analysis-summary.txt"; a_description := None;
     a_parts := [createTextPart "Text Analysis Summary"]; a_index := 0;
     a_append := false; a_lastChunk := false; a_metadata := None |}.

(** A capability that answers with the message of the status it was given
    and one artifact, and that, as [requestUserInput] does, assigns an
    input-required status to the task object it holds. *)
Definition echo : Capability :=
  λ task,
    (set_status (createTaskStatus INPUT_REQUIRED (message (status task)) 0) task,
     Ok {| r_message := message (status task); r_artifacts := Some [summary] |}).

(** A capability that leaves its task object alone. *)
Definition converted : Capability :=
  λ task,
    (task,
     Ok {| r_message := Some (createMessage agent [createTextPart "Data transformation completed"]);
           r_artifacts := None |}).

(** The shape of the registry of [server/skills.js]: one skill with a
    [continueOrchestration], the others without. *)
Definition demo_skills : gmap string Skill :=
  list_to_map
    [("text-analysis", {| process := echo; continueOrchestration := None |});
     ("data-transformation", {| process := converted; continueOrchestration := None |});
     ("task-orchestration", {| process := echo; continueOrchestration := Some echo |})].

Definition demo_params : CreateParams :=
  {| p_id := "t1"; p_sessionId := Some "s1"; p_message := Some analyze_request |}.

(** "t1" submitted at time 1000. *)
Definition demo_submitted : TaskManager :=
  (createTask demo_params (new_TaskManager 1000)).2.

(** Two subscribers attach. *)
Definition demo_subscribed : TaskManager :=
  (addStreamingConnection "t1" 8%nat (addStreamingConnection "t1" 7%nat demo_submitted).2).2.

(** [processTask] reaches its [await]. *)
Definition demo_started : Result (nat * Skill) * TaskManager :=
  processTask_begin demo_skills "t1" demo_submitted.

(** The rest of [processTask], for what [processTask_begin] returned. *)
Definition resume_started (taskId : string) (started : Result (nat * Skill)) : M nat :=
  match started with
  | Ok (task, skill) => processTask_resume taskId (invoke (process skill) task)
  | Throw e => throw e
  end.

(** The task is canceled while the capability runs... *)
Definition demo_canceled : TaskManager :=
  (cancelTask "t1" (advance 5 demo_started.2)).2.

(** ... and the capability returns after that. *)
Definition demo_late : TaskManager :=
  (resume_started "t1" demo_started.1 (advance 5 demo_canceled)).2.

(** The task waits for input. *)
Definition demo_waiting : TaskManager :=
  (updateTaskStatus "t1" (createTaskStatus INPUT_REQUIRED (Some prompt) 1001)
     demo_submitted).2.

(** The user answers. *)
Definition demo_continued : TaskManager :=
  (continueTask demo_skills "t1" answer demo_waiting).2.

(** A second status with the message of the first. *)
Definition demo_repeated : TaskManager :=
  (updateStatuses "t1" [createTaskStatus WORKING (Some analyze_request) 1001]
     demo_submitted).2.

Definition demo_config : PushNotificationConfig :=
  {| url := "https://client.example.com/hook"; token := Some "tok";
     authentication := None |}.

(** "t1" completed at 1000, "t2" submitted at 1000, a push config for each,
    looked at two days later. *)
Definition demo_aged : TaskManager :=
  let m1 := (processTask demo_skills "t1" demo_submitted).2 in
  let m2 := (createTask {| p_id := "t2"; p_sessionId := None;
                           p_message := Some analyze_request |} m1).2 in
  let m3 := (setPushNotificationConfig "t1" (Some demo_config) m2).2 in
  let m4 := (setPushNotificationConfig "t2" (Some demo_config) m3).2 in
  advance 172800000 m4.

(** A manager passes this check when all its references are valid. *)
Definition wf_check (m : TaskManager) : bool :=
  forallb (λ e, bool_decide (is_Some (objs m !! e.2))) (map_to_list (tasks m)).

(** An operation keeps the references of [this.tasks] valid. *)
Definition preserves {A} (c : M A) : Prop := ∀ m, wf m → wf (c m).2.

(** ** Further definitions: the engine *)

(** The artifact events sent to the subscribers [cs] of a task that is not
    in a terminal state: artifact by artifact, subscriber by subscriber. *)
Definition artifact_events (cs : list Connection) (arts : list Artifact)
  : list (Connection * StreamEvent) :=
  flat_map (λ a, map (event_to (ArtifactEvent a) false) cs) arts.

(** The status [processTask] installs before it calls the capability. *)
Definition workingStatus (now : Z) : TaskStatus := createTaskStatus WORKING None now.

(** The webhook request for a task in status [s]. *)
Definition push_request (taskId : string) (config : PushNotificationConfig)
    (s : TaskStatus) (now : Z) : PushRequest :=
  {| pr_url := url config; pr_headers := push_headers config;
     pr_taskId := taskId; pr_status := s; pr_timestamp := now |}.

(** The four keys of the registry of [server/skills.js]. *)
Definition skill_names : list string :=
  ["text-analysis"; "image-processing"; "data-transformation"; "task-orchestration"].

(** A part that [determineSkill] passes over: not a text part, or a text
    with none of the keywords. *)
Definition passed_over (p : Part) : bool :=
  match p with
  | TextPart text _ => bool_decide (keyword_skill (toLowerCase text) = None)
  | _ => true
  end.

(** The artifacts of a result, none when the field is absent. *)
Definition result_artifacts (result : SkillResult) : list Artifact :=
  default [] (r_artifacts result).

(** One status event for each of the subscribers [cs]. *)
Definition status_events (cs : list Connection) (s : TaskStatus) (final : bool)
  : list (Connection * StreamEvent) :=
  map (event_to (StatusEvent s) final) cs.

(** The webhook requests for the statuses [ss] of a task, when a config is
    registered for it in [m]. *)
Definition pushes (taskId : string) (m : TaskManager) (ss : list TaskStatus)
  : list PushRequest :=
  match pushNotificationConfigs m !! taskId with
  | Some config => map (λ s, push_request taskId config s (clock m)) ss
  | None => []
  end.

(** The object [continueTask] gives to the capability: the copy of the
    task with the user message added to its history. *)
Definition continuation_input (userMessage : Message) (t : Task) : Task :=
  set_history (Some (default [] (history t) ++ [userMessage])) t.

(** The status [continueTask] installs for a result with the message [msg]
    when the capability left its object as [held]. *)
Definition continuedStatus (held : Task) (msg : Message) (now : Z) : TaskStatus :=
  createTaskStatus
    (if is_input_required (state (status held)) then INPUT_REQUIRED else COMPLETED)
    (Some msg) now.

(** ** The invariant of the task map *)

(** Each id of the task map leads to a task object that carries this id. *)
Definition keyed (m : TaskManager) : Prop :=
  ∀ taskId r, tasks m !! taskId = Some r → ∃ t, objs m !! r = Some t ∧ id t = taskId.

(** [r] is an object that no id of the task map leads to. *)
Definition unheld (m : TaskManager) (r : nat) : Prop :=
  (r < List.length (objs m))%nat ∧ ∀ taskId, tasks m !! taskId ≠ Some r.

(** From [m] to [m'] no object was lost and no object that the task map
    did not hold came to be held. *)
Definition grows (m m' : TaskManager) : Prop :=
  (List.length (objs m) ≤ List.length (objs m'))%nat ∧ ∀ r, unheld m r → unheld m' r.

(** The operation [c], run while the objects [R] are unheld, keeps the
    task map keyed and leaves the objects [Q a] unheld when it returns
    [a]. *)
Definition safe_post {A} (R : list nat) (c : M A) (Q : A → list nat) : Prop :=
  ∀ m, keyed m → Forall (unheld m) R →
       keyed (c m).2 ∧ grows m (c m).2
       ∧ ∀ a, (c m).1 = Ok a → Forall (unheld (c m).2) (Q a).

Definition safe {A} (R : list nat) (c : M A) : Prop := safe_post R c (λ _, []).

(** ** shared/utils.js *)

(** *** Values of a JSON body *)

(** A property of a value; [None] is [undefined].  Of an object it is the
    first entry of the key; an array has none of the keys read below. *)
Definition prop (k : string) (v : JValue) : option JValue :=
  match v with
  | JObj l => snd <$> List.find (λ e, String.eqb (fst e) k) l
  | _ => None
  end.

(** A value in a condition. *)
Definition js_truthy (v : option JValue) : bool :=
  match v with
  | None | Some JNull => false
  | Some (JBool b) => b
  | Some (JNum z) => negb (z =? 0)
  | Some (JStr s) => negb (String.eqb s "")
  | Some (JArr _) | Some (JObj _) => true
  end.

(** [typeof v === 'object'] *)
Definition is_object (v : option JValue) : bool :=
  match v with
  | Some JNull | Some (JArr _) | Some (JObj _) => true
  | _ => false
  end.

(** [typeof v === 'string'] *)
Definition is_string (v : option JValue) : bool :=
  match v with Some (JStr _) => true | _ => false end.

(** [v === s] for a string literal [s] *)
Definition is_literal (s : string) (v : option JValue) : bool :=
  match v with Some (JStr x) => String.eqb x s | _ => false end.

(** *** Validators *)

Definition validateFileContent (file : option JValue) : bool :=
  if (negb (js_truthy file) || negb (is_object file))%bool then false
  else
    let hasBytes := is_string (file ≫= prop "bytes") in
    let hasUri := is_string (file ≫= prop "uri") in
    negb (Bool.eqb hasBytes hasUri).

Definition validatePart (part : JValue) : bool :=
  if (negb (js_truthy (Some part)) || negb (is_object (Some part)))%bool then false
  else
    let type := prop "type" part in
    if is_literal "text" type then is_string (prop "text" part)
    else if is_literal "file" type then validateFileContent (prop "file" part)
    else if is_literal "data" type then bool_decide (is_Some (prop "data" part))
    else false.

Definition validateMessage (message : option JValue) : bool :=
  if (negb (js_truthy message) || negb (is_object message))%bool then false
  else if negb (is_literal "user" (message ≫= prop "role")
                || is_literal "agent" (message ≫= prop "role"))%bool then false
  else
    match message ≫= prop "parts" with
    | Some (JArr ps) =>
        if (List.length ps =? 0)%nat then false else forallb validatePart ps
    | _ => false
    end.

(** *** The objects that the constructors of shared/types.js build *)

Definition role_name (r : Role) : string :=
  match r with user => "user" | agent => "agent" end.

(** [metadata = null] when none is given. *)
Definition metadata_json (md : option JValue) : JValue := default JNull md.

(** A file object has [bytes] or [uri] when it was given one. *)
Definition file_json (f : FileContent) : JValue :=
  JObj ([("name", JStr (fc_name f)); ("mimeType", JStr (fc_mimeType f))]
        ++ match fc_bytes f with Some b => [("bytes", JStr b)] | None => [] end
        ++ match fc_uri f with Some u => [("uri", JStr u)] | None => [] end).

Definition part_json (p : Part) : JValue :=
  match p with
  | TextPart text md =>
      JObj [("type", JStr "text"); ("text", JStr text); ("metadata", metadata_json md)]
  | FilePart file md =>
      JObj [("type", JStr "file"); ("file", file_json file);
            ("metadata", metadata_json md)]
  | DataPart data md =>
      JObj [("type", JStr "data"); ("data", data); ("metadata", metadata_json md)]
  end.

Definition message_json (msg : Message) : JValue :=
  JObj [("role", JStr (role_name (role msg)));
        ("parts", JArr (map part_json (parts msg)));
        ("metadata", metadata_json (m_metadata msg))].

(** Exactly one of [bytes] and [uri] is there. *)
Definition one_content (f : FileContent) : bool :=
  xorb (bool_decide (is_Some (fc_bytes f))) (bool_decide (is_Some (fc_uri f))).

Definition part_content_ok (p : Part) : bool :=
  match p with FilePart f _ => one_content f | _ => true end.

(** *** File content *)

Inductive Parsed (Data : Type) :=
| ParsedBytes (data : Data)
| ParsedUri (uri : string).
Arguments ParsedBytes {Data} data.
Arguments ParsedUri {Data} uri.

Section Files.

(** What a file holds, and the codecs of the platform. *)
Context {Data : Type}.
Variable encodeBase64 : Data → string.
Variable decodeBase64 : string → Data.
Variable encodeURIComponent : string → string.

Definition createFileContent (name mimeType : string) (data : Data) (useUri : bool)
  : FileContent :=
  if useUri then
    {| fc_name := name; fc_mimeType := mimeType; fc_bytes := None;
       fc_uri := Some (String.append "https://storage.example.com/files/"
                         (encodeURIComponent name)) |}
  else
    {| fc_name := name; fc_mimeType := mimeType;
       fc_bytes := Some (encodeBase64 data); fc_uri := None |}.

(** [None] is the [null] at the end. *)
Definition parseFileContent (file : FileContent) : option (Parsed Data) :=
  if truthy (fc_bytes file) then
    Some (ParsedBytes (decodeBase64 (default "" (fc_bytes file))))
  else if truthy (fc_uri file) then
    Some (ParsedUri (default "" (fc_uri file)))
  else None.

End Files.

(** *** chunkText *)

(** An index of [slice] on a text of [len] units: counted from the end when
    negative, and kept within the text. *)
Definition slice_index (len k : Z) : Z :=
  if k <? 0 then Z.max (len + k) 0 else Z.min k len.

Section Chunks.

(** A text is the sequence of its code units. *)
Context {Unit : Type}.

Definition slice (text : list Unit) (from to : Z) : list Unit :=
  let len := Z.of_nat (List.length text) in
  let a := slice_index len from in
  let b := slice_index len to in
  take (Z.to_nat (b - a)) (drop (Z.to_nat a) text).

(** The loop of [chunkText] from [i] on; [n] bounds the number of rounds,
    and [None] says that they did not suffice. *)
Fixpoint chunkText_from (n : nat) (text : list Unit) (chunkSize i : Z)
    (chunks : list (list Unit)) : option (list (list Unit)) :=
  if i <? Z.of_nat (List.length text) then
    match n with
    | O => None
    | S n =>
        chunkText_from n text chunkSize (i + chunkSize)
          (chunks ++ [slice text i (i + chunkSize)])
    end
  else Some chunks.

Definition chunkText (n : nat) (text : list Unit) (chunkSize : Z)
  : option (list (list Unit)) :=
  chunkText_from n text chunkSize 0 [].

End Chunks.

(** *** Authentication *)

Definition startsWith (s p : string) : bool := String.prefix p s.

(** [s.substring(n)] for [0 <= n] *)
Fixpoint substring_from (n : nat) (s : string) : string :=
  match n, s with
  | O, _ => s
  | S n, String _ r => substring_from n r
  | S _, EmptyString => EmptyString
  end.

Definition validateBearerToken (token : option string) (validTokens : list string) : bool :=
  if negb (truthy token) then false
  else
    let token := default "" token in
    if negb (startsWith token "Bearer ") then false
    else
      let actualToken := substring_from 7 token in
      bool_decide (actualToken ∈ validTokens).

(** White space of [trim] among the units below 256. *)
Definition is_space (c : ascii) : bool :=
  let n := nat_of_ascii c in
  ((Nat.leb 9 n && Nat.leb n 13) || Nat.eqb n 32 || Nat.eqb n 160)%bool.

Fixpoint trimStart (s : string) : string :=
  match s with
  | String c r => if is_space c then trimStart r else s
  | EmptyString => EmptyString
  end.

Fixpoint trimEnd (s : string) : string :=
  match s with
  | String c r =>
      match trimEnd r with
      | EmptyString => if is_space c then EmptyString else String c EmptyString
      | r' => String c r'
      end
  | EmptyString => EmptyString
  end.

Definition trim (s : string) : string := trimEnd (trimStart s).

Definition getAuthFromHeaders (headers : gmap string string) : option string :=
  let auth :=
    if truthy (headers !! "authorization") then headers !! "authorization"
    else headers !! "Authorization" in
  if truthy auth then Some (trim (default "" auth)) else None.

(** ** server/skills.js, from line 518: the HTTP server *)

Definition VALID_API_KEYS : list string := ["demo-api-key-123"; "test-api-key-456"].
Definition VALID_BEARER_TOKENS : list string :=
  ["demo-bearer-token-789"; "test-bearer-token-012"].

(** [next()], or the 401 response with its error. *)
Inductive Verdict :=
| Next
| Unauthorized (error : Thrown).

Definition authenticationRequired (msg : string) : Verdict :=
  Unauthorized (createJsonRpcError ErrorCodes.AUTHENTICATION_REQUIRED msg None).

Definition authenticateRequest (path : string) (headers : gmap string string) : Verdict :=
  if (String.eqb path "/.well-known/agent.json" || String.eqb path "/docs")%bool then Next
  else
    let auth := getAuthFromHeaders headers in
    if negb (truthy auth) then authenticationRequired "Authentication required"
    else
      let auth := default "" auth in
      if startsWith auth "Bearer " then
        if negb (validateBearerToken (Some auth) VALID_BEARER_TOKENS)
        then authenticationRequired "Invalid bearer token"
        else Next
      else if truthy (headers !! "x-a2a-api-key") then
        if negb (bool_decide (default "" (headers !! "x-a2a-api-key") ∈ VALID_API_KEYS))
        then authenticationRequired "Invalid API key"
        else Next
      else authenticationRequired "Invalid authentication method".

(** *** Method handlers *)

(** What [process.nextTick] was given: a call of [processTask] or of
    [continueTask], with its errors caught and logged. *)
Inductive Job :=
| ProcessJob (taskId : string)
| ContinueJob (taskId : string) (userMessage : Message).

(** [params] of tasks/send and tasks/sendSubscribe *)
Record SendParams := {
  sp_id : option string; sp_sessionId : option string;
  sp_message : option Message;
  sp_pushNotification : option PushNotificationConfig }.

(** [params] of tasks/pushNotification/set *)
Record PushParams := {
  pp_id : option string;
  pp_pushNotificationConfig : option PushNotificationConfig }.

Definition MissingIdMessage : Thrown :=
  createJsonRpcError ErrorCodes.INVALID_PARAMS
    "Missing required parameters: id, message" None.

Definition InvalidMessage : Thrown :=
  createJsonRpcError ErrorCodes.INVALID_PARAMS "Invalid message format" None.

Definition MissingId : Thrown :=
  createJsonRpcError ErrorCodes.INVALID_PARAMS "Missing required parameter: id" None.

Definition current_state_data (s : TaskState) : option JValue :=
  Some (JObj [("currentState", JStr (state_name s))]).

(** [taskManager.createTask(params)] takes [id], [sessionId] and [message]. *)
Definition create_params (id : string) (message : Message) (params : SendParams)
  : CreateParams :=
  {| p_id := id; p_sessionId := sp_sessionId params; p_message := Some message |}.

(** [if (params.pushNotification) taskManager.setPushNotificationConfig(...)] *)
Definition set_given_config (id : string) (params : SendParams) : M unit :=
  match sp_pushNotification params with
  | Some config => setPushNotificationConfig id (Some config) ;;; ret tt
  | None => ret tt
  end.

Section Handlers.

Variable skills : gmap string Skill.

(** The job when its turn comes. *)
Definition run_job (job : Job) : M unit :=
  try_catch
    (match job with
     | ProcessJob taskId => processTask skills taskId ;;; ret tt
     | ContinueJob taskId userMessage => continueTask skills taskId userMessage ;;; ret tt
     end)
    (λ _, ret tt).

(** The task it returns, and the job it left to run. *)
Definition handleTasksSend (params : SendParams) : M (nat * option Job) :=
  match sp_message params with
  | None => throw MissingIdMessage
  | Some message =>
      if negb (truthy (sp_id params)) then throw MissingIdMessage
      else if negb (validateMessage (Some (message_json message))) then throw InvalidMessage
      else
        let id := default "" (sp_id params) in
        try_catch
          (task <- getTask id 0 ;;
           t <- load task ;;
           if is_input_required (state (status t)) then
             task <- continueTask skills id message ;;
             ret (task, None)
           else
             throw (createJsonRpcError ErrorCodes.INVALID_TASK_STATE
                      "Task already exists and is not waiting for input"
                      (current_state_data (state (status t)))))
          (λ error,
             if bool_decide (error_code error = Some ErrorCodes.TASK_NOT_FOUND) then
               task <- createTask (create_params id message params) ;;
               set_given_config id params ;;;
               ret (task, Some (ProcessJob id))
             else throw error)
  end.

(** [connection] is the new [StreamingConnection]; what its constructor
    writes to the response is not part of the manager. *)
Definition handleTasksSendSubscribe (params : SendParams) (connection : Connection)
  : M (option Job) :=
  match sp_message params with
  | None => throw MissingIdMessage
  | Some message =>
      if negb (truthy (sp_id params)) then throw MissingIdMessage
      else if negb (validateMessage (Some (message_json message))) then throw InvalidMessage
      else
        let id := default "" (sp_id params) in
        try_catch
          (task <- getTask id 0 ;;
           addStreamingConnection id connection ;;;
           t <- load task ;;
           if is_input_required (state (status t))
           then ret (Some (ContinueJob id message))
           else ret None)
          (λ error,
             if bool_decide (error_code error = Some ErrorCodes.TASK_NOT_FOUND) then
               createTask (create_params id message params) ;;;
               set_given_config id params ;;;
               addStreamingConnection id connection ;;;
               ret (Some (ProcessJob id))
             else throw error)
  end.

End Handlers.

Definition handleTasksPushNotificationSet (params : PushParams)
  : M (string * option PushNotificationConfig) :=
  match pp_pushNotificationConfig params with
  | None =>
      throw (createJsonRpcError ErrorCodes.INVALID_PARAMS
               "Missing required parameters: id, pushNotificationConfig" None)
  | Some config =>
      if negb (truthy (pp_id params)) then
        throw (createJsonRpcError ErrorCodes.INVALID_PARAMS
                 "Missing required parameters: id, pushNotificationConfig" None)
      else setPushNotificationConfig (default "" (pp_id params)) (Some config)
  end.

Definition handleTasksResubscribe (id : option string) (connection : Connection) : M unit :=
  if negb (truthy id) then throw MissingId
  else
    getTask (default "" id) 0 ;;;
    addStreamingConnection (default "" id) connection.

(** ** Sequences of calls *)

(** A call from outside: of a method of the manager, of a handler of the
    server, or of a job that a handler left.  The two halves of
    [processTask] can be called apart, with other calls in between; the
    second half is then given what the capability came back with. *)
Inductive Call :=
| CreateTask (params : CreateParams)
| GetTask (taskId : string) (historyLength : nat)
| UpdateTaskStatus (taskId : string) (newStatus : TaskStatus)
| AddArtifacts (taskId : string) (arts : list Artifact)
| ProcessTask (taskId : string)
| ProcessTaskBegin (taskId : string)
| ProcessTaskResume (taskId : string) (outcome : Result SkillResult)
| ContinueTask (taskId : string) (userMessage : Message)
| CancelTask (taskId : string)
| SetPushNotificationConfig (taskId : string) (config : option PushNotificationConfig)
| GetPushNotificationConfig (taskId : string)
| AddStreamingConnection (taskId : string) (connection : Connection)
| RemoveStreamingConnection (taskId : string) (connection : Connection)
| CleanupExpiredTasks (maxAge : Z)
| NotifyStreamingConnections (taskId : string) (data : EventData)
| SendPushNotification (taskId : string)
| HandleTasksSend (params : SendParams)
| HandleTasksSendSubscribe (params : SendParams) (connection : Connection)
| HandleTasksPushNotificationSet (params : PushParams)
| HandleTasksResubscribe (id : option string) (connection : Connection)
| RunJob (job : Job)
| Advance (d : Z).

(** The manager after a call, whether it returned or threw. *)
Definition call (skills : gmap string Skill) (c : Call) (m : TaskManager) : TaskManager :=
  match c with
  | CreateTask params => (createTask params m).2
  | GetTask taskId n => (getTask taskId n m).2
  | UpdateTaskStatus taskId s => (updateTaskStatus taskId s m).2
  | AddArtifacts taskId arts => (addArtifacts taskId arts m).2
  | ProcessTask taskId => (processTask skills taskId m).2
  | ProcessTaskBegin taskId => (processTask_begin skills taskId m).2
  | ProcessTaskResume taskId outcome =>
      (processTask_resume taskId (λ m, (outcome, m)) m).2
  | ContinueTask taskId userMessage => (continueTask skills taskId userMessage m).2
  | CancelTask taskId => (cancelTask taskId m).2
  | SetPushNotificationConfig taskId config =>
      (setPushNotificationConfig taskId config m).2
  | GetPushNotificationConfig taskId => (getPushNotificationConfig taskId m).2
  | AddStreamingConnection taskId c => (addStreamingConnection taskId c m).2
  | RemoveStreamingConnection taskId c => (removeStreamingConnection taskId c m).2
  | CleanupExpiredTasks maxAge => (cleanupExpiredTasks maxAge m).2
  | NotifyStreamingConnections taskId data => (notifyStreamingConnections taskId data m).2
  | SendPushNotification taskId => (sendPushNotification taskId m).2
  | HandleTasksSend params => (handleTasksSend skills params m).2
  | HandleTasksSendSubscribe params c => (handleTasksSendSubscribe params c m).2
  | HandleTasksPushNotificationSet params => (handleTasksPushNotificationSet params m).2
  | HandleTasksResubscribe id c => (handleTasksResubscribe id c m).2
  | RunJob job => (run_job skills job m).2
  | Advance d => advance d m
  end.

Definition calls (skills : gmap string Skill) (cs : list Call) (m : TaskManager)
  : TaskManager :=
  foldl (λ m c, call skills c m) m cs.

(** ** Basic facts *)

(** The lookup of [continueTask] finds what the guarded lookup of
    [processTask] finds. *)
Lemma lookup_skill_member skills skillId skill :
  lookup_skill skills skillId = Some skill →
  member skills (default "null" skillId) = Some skill.
Proof.
  destruct skillId as [s|]; [|done]. simpl.
  by destruct (String.eqb s "").
Qed.

(** The guarded lookup finds nothing for no id, and for a name that is
    neither a key of the registry nor inherited. *)
Lemma lookup_skill_None skills skillId :
  lookup_skill skills skillId = None
  ↔ skillId = None ∨ skillId = Some ""
    ∨ ∃ s, skillId = Some s ∧ skills !! s = None ∧ (s ∉ inherited_names).
Proof.
  unfold lookup_skill, member. destruct skillId as [s|]; simpl; cycle 1.
  { split; [by left|done]. }
  destruct (String.eqb_spec s "") as [->|Hne].
  { split; [by right; left|done]. }
  destruct (skills !! s) as [skill|] eqn:E.
  { split; [done|]. intros [?|[[=]|(s' & [= <-] & ? & _)]]; congruence. }
  destruct (decide (s ∈ inherited_names)) as [Hin|Hout].
  - rewrite bool_decide_eq_true_2 by done. split; [done|].
    intros [?|[[=]|(s' & [= <-] & _ & ?)]]; done.
  - rewrite bool_decide_eq_false_2 by done. split; [|done].
    intros _. right; right. by exists s.
Qed.

Section Monad.
Context {A B : Type}.

Lemma bind_ok (c : M A) (k : A → M B) m a m' :
  c m = (Ok a, m') → bind c k m = k a m'.
Proof. intros H. unfold bind. by rewrite H. Qed.

Lemma bind_throw (c : M A) (k : A → M B) m e m' :
  c m = (Throw e, m') → bind c k m = (Throw e, m').
Proof. intros H. unfold bind. by rewrite H. Qed.
End Monad.

Section Heap.
Context {A : Type}.
Implicit Types (h : list A) (f : A → A).

Lemma alter_app_end f h x : alter f (List.length h) (h ++ [x]) = h ++ [f x].
Proof. induction h as [|y h IH]; simpl; [done|]. f_equal. exact IH. Qed.

Lemma lookup_app_end h x : (h ++ [x]) !! List.length h = Some x.
Proof. induction h as [|y h IH]; simpl; [done|]. exact IH. Qed.

Lemma alter_known f h r x : h !! r = Some x → alter f r h = <[r := f x]> h.
Proof.
  revert r. induction h as [|y h IH]; intros [|r] H; simpl in *; try done.
  - by inversion H.
  - f_equal. by apply IH.
Qed.
End Heap.

Lemma load_ok r m t : objs m !! r = Some t → load r m = (Ok t, m).
Proof. intros H. unfold load. by rewrite H. Qed.

Lemma stored_Some m taskId t :
  stored m taskId = Some t ↔ ∃ r, tasks m !! taskId = Some r ∧ objs m !! r = Some t.
Proof.
  unfold stored. destruct (tasks m !! taskId) as [r|]; simpl.
  - split; [eauto|]. intros (r' & Hr & ?). by injection Hr as ->.
  - split; [done|]. by intros (r' & Hr & ?).
Qed.

Lemma truncated_0 t : truncated 0 t = t.
Proof. unfold truncated. by destruct (history t). Qed.

Lemma installed_status s t : status (installed s t) = s.
Proof. done. Qed.

Lemma installed_history s t :
  default [] (history (installed s t))
  = default [] (history t) ++ from_option (λ x, [x]) [] (message (status t)).
Proof.
  unfold installed, archived. destruct (message (status t)); simpl; [done|].
  by rewrite app_nil_r.
Qed.

Lemma installed_metadata s t : metadata (installed s t) = metadata t.
Proof. unfold installed, archived. by destruct (message (status t)). Qed.

Lemma installed_artifacts s t : artifacts (installed s t) = artifacts t.
Proof. unfold installed, archived. by destruct (message (status t)). Qed.

(** *** getTask *)

Lemma getTask_found taskId n m r t :
  tasks m !! taskId = Some r → objs m !! r = Some t →
  getTask taskId n m
  = (Ok (List.length (objs m)), with_objs (λ h, h ++ [truncated n t]) m).
Proof.
  intros Hr Ht. unfold getTask, bind, gets. rewrite Hr.
  rewrite (load_ok _ _ _ Ht). simpl. unfold truncated.
  destruct (history t) as [h|]; [|done].
  destruct (0 <? n)%nat; [|done].
  unfold store, modify, with_objs; simpl. by rewrite alter_app_end.
Qed.

Lemma getTask_missing taskId n m :
  tasks m !! taskId = None → getTask taskId n m = (Throw (TaskNotFound taskId), m).
Proof. intros H. unfold getTask, bind, gets. by rewrite H. Qed.

(** *** The streaming fan-out *)

Lemma for_each_sendEvent cs d f m :
  for_each cs (λ c, sendEvent c d f) m
  = (Ok tt, with_sent (λ l, l ++ map (event_to d f) cs) m).
Proof.
  revert m. induction cs as [|c cs IH]; intros m.
  - simpl. unfold ret, with_sent. rewrite app_nil_r. by destruct m.
  - simpl. unfold bind at 1. unfold sendEvent at 1, modify. rewrite IH.
    unfold with_sent; simpl. by rewrite <- app_assoc.
Qed.

Lemma for_each_close cs m :
  for_each cs close m = (Ok tt, with_closed (λ l, l ++ cs) m).
Proof.
  revert m. induction cs as [|c cs IH]; intros m.
  - simpl. unfold ret, with_closed. rewrite app_nil_r. by destruct m.
  - simpl. unfold bind at 1. unfold close at 1, modify. rewrite IH.
    unfold with_closed; simpl. by rewrite <- app_assoc.
Qed.

Lemma notify_none taskId d m :
  streamingConnections m !! taskId = None →
  notifyStreamingConnections taskId d m = (Ok tt, m).
Proof. intros H. unfold notifyStreamingConnections, bind, gets. by rewrite H. Qed.

Lemma notify_some taskId d m cs r t :
  streamingConnections m !! taskId = Some cs →
  tasks m !! taskId = Some r → objs m !! r = Some t →
  notifyStreamingConnections taskId d m = (Ok tt, notified taskId d t cs m).
Proof.
  intros Hc Hr Ht. unfold notifyStreamingConnections, bind at 1, gets. rewrite Hc.
  rewrite (bind_ok _ _ _ _ _ (getTask_found _ 0 _ _ _ Hr Ht)), truncated_0.
  unfold bind at 1. unfold load at 1. simpl. rewrite lookup_app_end.
  unfold notified. rewrite (bind_ok _ _ _ _ _ (for_each_sendEvent _ _ _ _)).
  destruct (is_terminal (state (status t))); [|done].
  by rewrite (bind_ok _ _ _ _ _ (for_each_close _ _)).
Qed.

Lemma notified_tasks taskId d t cs m : tasks (notified taskId d t cs m) = tasks m.
Proof. unfold notified. by destruct (is_terminal _). Qed.
Lemma notified_sessions taskId d t cs m : sessions (notified taskId d t cs m) = sessions m.
Proof. unfold notified. by destruct (is_terminal _). Qed.
Lemma notified_configs taskId d t cs m :
  pushNotificationConfigs (notified taskId d t cs m) = pushNotificationConfigs m.
Proof. unfold notified. by destruct (is_terminal _). Qed.
Lemma notified_objs taskId d t cs m : objs (notified taskId d t cs m) = objs m ++ [t].
Proof. unfold notified. by destruct (is_terminal _). Qed.
Lemma notified_clock taskId d t cs m : clock (notified taskId d t cs m) = clock m.
Proof. unfold notified. by destruct (is_terminal _). Qed.
Lemma notified_posted taskId d t cs m : posted (notified taskId d t cs m) = posted m.
Proof. unfold notified. by destruct (is_terminal _). Qed.
Lemma notified_sent taskId d t cs m :
  sent (notified taskId d t cs m)
  = sent m ++ map (event_to d (is_terminal (state (status t)))) cs.
Proof. unfold notified. by destruct (is_terminal _). Qed.
Lemma notified_closed taskId d t cs m :
  closed (notified taskId d t cs m)
  = closed m ++ (if is_terminal (state (status t)) then cs else []).
Proof. unfold notified. destruct (is_terminal _); simpl; [done|]. by rewrite app_nil_r. Qed.
Lemma notified_connections taskId d t cs m :
  streamingConnections (notified taskId d t cs m)
  = if is_terminal (state (status t))
    then delete taskId (streamingConnections m) else streamingConnections m.
Proof. unfold notified. by destruct (is_terminal _). Qed.

(** *** sendPushNotification and updateTaskStatus *)

Lemma sendPushNotification_some taskId m config r t :
  pushNotificationConfigs m !! taskId = Some config →
  tasks m !! taskId = Some r → objs m !! r = Some t →
  sendPushNotification taskId m = (Ok tt, pushed taskId config t m).
Proof.
  intros Hc Hr Ht. unfold sendPushNotification, bind at 1, gets. rewrite Hc.
  rewrite (bind_ok _ _ _ _ _ (getTask_found _ 0 _ _ _ Hr Ht)), truncated_0.
  unfold bind, load. simpl. by rewrite lookup_app_end.
Qed.

Lemma updateTaskStatus_missing taskId s m :
  tasks m !! taskId = None →
  updateTaskStatus taskId s m = (Throw (TaskNotFound taskId), m).
Proof. intros H. unfold updateTaskStatus, bind, gets. by rewrite H. Qed.

Lemma updateTaskStatus_found taskId s m r t :
  tasks m !! taskId = Some r → objs m !! r = Some t →
  updateTaskStatus taskId s m = (Ok r, updated taskId s r t m).
Proof.
  intros Hr Ht. unfold updateTaskStatus, bind at 1, gets. rewrite Hr.
  rewrite (bind_ok _ _ _ _ _ (load_ok _ _ _ Ht)).
  set (m1 := with_objs (λ h, <[r := installed s t]> h) m).
  assert (objs m1 !! r = Some (installed s t)) as Ht1.
  { simpl. apply list_lookup_insert_eq. by eapply lookup_lt_Some. }
  assert (∀ k : unit → M nat,
    bind (match message (status t) with
          | Some msg => store r (λ t, set_history (Some (default [] (history t) ++ [msg])) t)
          | None => ret tt end)
      (λ _, bind (store r (set_status s)) k) m = k tt m1) as ->.
  { intros k. unfold m1, installed, archived.
    destruct (message (status t)) as [msg|]; unfold bind, store, modify, ret, with_objs; simpl.
    - rewrite (alter_known _ _ _ _ Ht).
      rewrite (alter_known _ (<[r:=_]> (objs m)) r
                 (set_history (Some (default [] (history t) ++ [msg])) t)).
      + by rewrite list_insert_insert_eq.
      + apply list_lookup_insert_eq. by eapply lookup_lt_Some.
    - by rewrite (alter_known _ _ _ _ Ht). }
  rewrite (bind_ok _ _ _ _ _ (load_ok _ _ _ Ht1)).
  unfold updated. fold m1. simpl status.
  assert (pushNotificationConfigs m1 = pushNotificationConfigs m) as Hpc by done.
  destruct (streamingConnections m !! taskId) as [cs|] eqn:Hcs.
  - rewrite (bind_ok _ _ _ _ _ (notify_some taskId _ m1 cs r _ Hcs Hr Ht1)).
    unfold bind at 1, gets. rewrite notified_configs, Hpc.
    destruct (pushNotificationConfigs m !! taskId) as [cfg|] eqn:Hcfg; simpl.
    + unfold bind, fire_and_forget, ret.
      erewrite sendPushNotification_some; [done| | |].
      * by rewrite notified_configs.
      * by rewrite notified_tasks.
      * rewrite notified_objs. by apply lookup_app_l_Some.
    + done.
  - rewrite (bind_ok _ _ _ _ _ (notify_none taskId _ m1 Hcs)).
    unfold bind at 1, gets. rewrite Hpc.
    destruct (pushNotificationConfigs m !! taskId) as [cfg|] eqn:Hcfg; simpl.
    + unfold bind, fire_and_forget, ret.
      by erewrite sendPushNotification_some.
    + done.
Qed.

Section Updated.
Variables (taskId : string) (s : TaskStatus) (r : nat) (t : Task) (m : TaskManager).

Lemma updated_tasks : tasks (updated taskId s r t m) = tasks m.
Proof.
  unfold updated. destruct (pushNotificationConfigs m !! taskId);
    destruct (streamingConnections m !! taskId); simpl; by rewrite ?notified_tasks.
Qed.

Lemma updated_sessions : sessions (updated taskId s r t m) = sessions m.
Proof.
  unfold updated. destruct (pushNotificationConfigs m !! taskId);
    destruct (streamingConnections m !! taskId); simpl; by rewrite ?notified_sessions.
Qed.

Lemma updated_configs :
  pushNotificationConfigs (updated taskId s r t m) = pushNotificationConfigs m.
Proof.
  unfold updated. destruct (pushNotificationConfigs m !! taskId);
    destruct (streamingConnections m !! taskId); simpl; by rewrite ?notified_configs.
Qed.

Lemma updated_clock : clock (updated taskId s r t m) = clock m.
Proof.
  unfold updated. destruct (pushNotificationConfigs m !! taskId);
    destruct (streamingConnections m !! taskId); simpl; by rewrite ?notified_clock.
Qed.

Lemma updated_objs :
  ∃ copies, objs (updated taskId s r t m) = <[r := installed s t]> (objs m) ++ copies.
Proof.
  unfold updated. destruct (pushNotificationConfigs m !! taskId);
    destruct (streamingConnections m !! taskId); simpl; rewrite ?notified_objs; simpl.
  - eexists. by rewrite <- app_assoc.
  - by eexists.
  - by eexists.
  - exists []. by rewrite app_nil_r.
Qed.

Lemma updated_sent :
  sent (updated taskId s r t m)
  = sent m ++ map (event_to (StatusEvent s) (is_terminal (state s)))
                (default [] (streamingConnections m !! taskId)).
Proof.
  unfold updated. destruct (pushNotificationConfigs m !! taskId);
    destruct (streamingConnections m !! taskId); simpl;
    rewrite ?notified_sent, ?app_nil_r; done.
Qed.

Lemma updated_closed :
  closed (updated taskId s r t m)
  = closed m ++ (if is_terminal (state s)
                 then default [] (streamingConnections m !! taskId) else []).
Proof.
  unfold updated. destruct (pushNotificationConfigs m !! taskId);
    destruct (streamingConnections m !! taskId); simpl;
    rewrite ?notified_closed; simpl; destruct (is_terminal (state s));
    by rewrite ?app_nil_r.
Qed.

Lemma updated_connections :
  streamingConnections (updated taskId s r t m)
  = if is_terminal (state s)
    then delete taskId (streamingConnections m) else streamingConnections m.
Proof.
  unfold updated. destruct (pushNotificationConfigs m !! taskId);
    destruct (streamingConnections m !! taskId) eqn:E; simpl;
    rewrite ?notified_connections; simpl; destruct (is_terminal (state s));
    try done; symmetry; by apply delete_id.
Qed.

Lemma updated_lookup r' :
  is_Some (objs m !! r) →
  is_Some (objs m !! r') →
  objs (updated taskId s r t m) !! r'
  = if decide (r = r') then Some (installed s t) else objs m !! r'.
Proof.
  intros Hr Hr'. destruct updated_objs as [copies ->].
  apply lookup_lt_is_Some in Hr, Hr'.
  rewrite lookup_app_l by (by rewrite length_insert).
  case_decide as E.
  - subst r'. by apply list_lookup_insert_eq.
  - by apply list_lookup_insert_ne.
Qed.

Lemma updated_stored :
  tasks m !! taskId = Some r → is_Some (objs m !! r) →
  stored (updated taskId s r t m) taskId = Some (installed s t).
Proof.
  intros Hr Ht. unfold stored. rewrite updated_tasks, Hr. simpl.
  rewrite updated_lookup by done. by rewrite decide_True.
Qed.

Lemma updated_length : (List.length (objs m) ≤ List.length (objs (updated taskId s r t m)))%nat.
Proof.
  destruct updated_objs as [copies ->]. rewrite length_app, length_insert. lia.
Qed.
End Updated.

(** *** createTask *)

Lemma createTask_existing params m :
  is_Some (tasks m !! p_id params) →
  createTask params m
  = (Throw (JsonRpcError ErrorCodes.INVALID_PARAMS "Task with this ID already exists"
              (task_data (p_id params))), m).
Proof.
  intros H. unfold createTask, bind, gets. by rewrite bool_decide_eq_true_2.
Qed.

Lemma createTask_fresh params m :
  tasks m !! p_id params = None →
  ∃ m', createTask params m = (Ok (List.length (objs m)), m')
        ∧ tasks m' = <[p_id params := List.length (objs m)]> (tasks m)
        ∧ objs m' = objs m ++ [new_task params (clock m)]
        ∧ pushNotificationConfigs m' = pushNotificationConfigs m
        ∧ streamingConnections m' = streamingConnections m
        ∧ clock m' = clock m ∧ sent m' = sent m ∧ closed m' = closed m.
Proof.
  intros H. unfold createTask, bind, gets, alloc, modify, ret.
  rewrite bool_decide_eq_false_2 by (rewrite H; by intros [? ?]). simpl.
  destruct (truthy (p_sessionId params)); simpl.
  - destruct (bool_decide _); simpl; eexists; (split; [reflexivity|done]).
  - eexists; (split; [reflexivity|done]).
Qed.

(** *** addStreamingConnection *)

Lemma for_each_sendEvent_to {X} (xs : list X) (c : Connection) (d : X → EventData) f m :
  for_each xs (λ x, sendEvent c (d x) f) m
  = (Ok tt, with_sent (λ l, l ++ map (λ x, event_to (d x) f c) xs) m).
Proof.
  revert m. induction xs as [|x xs IH]; intros m.
  - simpl. unfold ret, with_sent. rewrite app_nil_r. by destruct m.
  - simpl. unfold bind at 1. unfold sendEvent at 1, modify. rewrite IH.
    unfold with_sent; simpl. by rewrite <- app_assoc.
Qed.

Lemma replay_not_final c t : Forall (λ e, ev_final e.2 = false) (replay c t).
Proof.
  unfold replay. constructor; [done|]. apply Forall_forall. intros e He.
  apply list_elem_of_fmap in He as (a & -> & _). done.
Qed.

Lemma addStreamingConnection_replay taskId c m t :
  stored m taskId = Some t →
  ∃ m', addStreamingConnection taskId c m = (Ok tt, m')
        ∧ sent m' = sent m ++ replay c t
        ∧ closed m' = closed m
        ∧ streamingConnections m'
          = <[taskId := default [] (streamingConnections m !! taskId) ++ [c]]>
              (streamingConnections m)
        ∧ tasks m' = tasks m
        ∧ objs m' = objs m ++ [t].
Proof.
  intros (r & Hr & Ht)%stored_Some.
  unfold addStreamingConnection, bind at 1, gets.
  set (sc' := <[taskId := default [] (streamingConnections m !! taskId) ++ [c]]>
                (streamingConnections m)).
  set (m1 := with_connections (λ _, sc') m).
  assert (∀ k : unit → M unit,
    bind (if bool_decide (is_Some (streamingConnections m !! taskId))
          then ret tt else modify (with_connections (insert taskId [])))
      (λ _, bind (modify (with_connections (alter (λ l, l ++ [c]) taskId))) k) m
    = k tt m1) as ->.
  { intros k. unfold m1, sc', bind, modify, ret, with_connections.
    destruct (streamingConnections m !! taskId) as [cs|] eqn:E; simpl.
    - do 3 f_equal.
      apply map_eq. intros i. destruct (decide (i = taskId)) as [->|].
      + by rewrite lookup_alter_eq, lookup_insert_eq, E.
      + by rewrite lookup_alter_ne, lookup_insert_ne.
    - do 3 f_equal.
      apply map_eq. intros i. destruct (decide (i = taskId)) as [->|].
      + by rewrite lookup_alter_eq, !lookup_insert_eq.
      + by rewrite lookup_alter_ne, !lookup_insert_ne. }
  assert (tasks m1 !! taskId = Some r) as Hr1 by done.
  assert (objs m1 !! r = Some t) as Ht1 by done.
  rewrite (bind_ok _ _ _ _ _ (getTask_found _ 0 _ _ _ Hr1 Ht1)), truncated_0.
  unfold bind at 1. unfold load at 1. simpl objs. rewrite lookup_app_end.
  unfold bind at 1. unfold sendEvent at 1, modify.
  unfold replay. destruct (artifacts t) as [arts|].
  - rewrite for_each_sendEvent_to. eexists; split; [reflexivity|]. simpl.
    split_and!; try done. by rewrite <- app_assoc.
  - eexists; split; [reflexivity|]. by simpl.
Qed.

(** ** Cancellation *)

Lemma cancelTask_terminal taskId m t :
  stored m taskId = Some t →
  is_terminal (state (status t)) = true →
  cancelTask taskId m
  = (Throw (JsonRpcError ErrorCodes.TASK_NOT_CANCELABLE "Task cannot be canceled"
              (task_state_data taskId (state (status t)))),
     with_objs (λ h, h ++ [t]) m)
  ∧ stored (with_objs (λ h, h ++ [t]) m) taskId = Some t.
Proof.
  intros (r & Hr & Ht)%stored_Some Hterm.
  set (m0 := with_objs (λ h, h ++ [t]) m).
  assert (objs m0 !! List.length (objs m) = Some t) as Hcopy by apply lookup_app_end.
  split.
  - unfold cancelTask.
    rewrite (bind_ok _ _ _ _ _ (getTask_found _ 0 _ _ _ Hr Ht)), truncated_0.
    rewrite (bind_ok _ _ _ _ _ (load_ok _ _ _ Hcopy)). by rewrite Hterm.
  - apply stored_Some. exists r. split; [done|]. by apply lookup_app_l_Some.
Qed.

Lemma cancelTask_live taskId m t :
  stored m taskId = Some t →
  is_terminal (state (status t)) = false →
  ∃ r m', cancelTask taskId m = (Ok r, m')
    ∧ stored m' taskId = Some (installed (canceledStatus (clock m)) t)
    ∧ objs m' !! r = Some (installed (canceledStatus (clock m)) t).
Proof.
  intros (r & Hr & Ht)%stored_Some Hterm.
  set (m0 := with_objs (λ h, h ++ [t]) m).
  assert (tasks m0 !! taskId = Some r) as Hr0 by done.
  assert (objs m0 !! r = Some t) as Ht0 by (by apply lookup_app_l_Some).
  assert (objs m0 !! List.length (objs m) = Some t) as Hcopy by apply lookup_app_end.
  set (m1 := updated taskId (canceledStatus (clock m)) r t m0).
  assert (tasks m1 !! taskId = Some r) as Hr1 by (unfold m1; by rewrite updated_tasks).
  assert (objs m1 !! r = Some (installed (canceledStatus (clock m)) t)) as Ht1.
  { unfold m1. rewrite updated_lookup by eauto. by rewrite decide_True. }
  eexists _, _. split; [|split].
  - unfold cancelTask.
    rewrite (bind_ok _ _ _ _ _ (getTask_found _ 0 _ _ _ Hr Ht)), truncated_0.
    rewrite (bind_ok _ _ _ _ _ (load_ok _ _ _ Hcopy)). rewrite Hterm.
    unfold bind at 1, gets. change (clock m0) with (clock m).
    rewrite (bind_ok _ _ _ _ _ (updateTaskStatus_found _ _ _ _ _ Hr0 Ht0)).
    pose proof (getTask_found _ 0 _ _ _ Hr1 Ht1) as Hg.
    rewrite truncated_0 in Hg. exact Hg.
  - unfold stored. simpl. fold m1. rewrite Hr1. simpl. by apply lookup_app_l_Some.
  - simpl. apply lookup_app_end.
Qed.

(** C6: on a task whose state is completed, failed or canceled, [cancelTask]
    throws the error of code TASK_NOT_CANCELABLE and the manager keeps the
    task as it was (the copy made to read the state is the only new
    object); on a task in any other state it returns, and the stored task
    and the returned copy are in state canceled with the message
    "Task canceled by user request". *)
Theorem cancelTask_spec taskId m t :
  stored m taskId = Some t →
  if is_terminal (state (status t)) then
    ∃ e, cancelTask taskId m = (Throw e, with_objs (λ h, h ++ [t]) m)
         ∧ error_code e = Some ErrorCodes.TASK_NOT_CANCELABLE
         ∧ error_kind e = NotCancelable
         ∧ stored (with_objs (λ h, h ++ [t]) m) taskId = Some t
  else
    ∃ r m' t', cancelTask taskId m = (Ok r, m')
         ∧ stored m' taskId = Some t'
         ∧ objs m' !! r = Some t'
         ∧ status t' = canceledStatus (clock m)
         ∧ state (status t') = CANCELED
         ∧ t' = installed (canceledStatus (clock m)) t.
Proof.
  intros Hst. destruct (is_terminal (state (status t))) eqn:Hterm.
  - destruct (cancelTask_terminal taskId m t Hst Hterm) as [Hrun Hkept].
    eexists. split; [exact Hrun|]. by split_and!.
  - destruct (cancelTask_live taskId m t Hst Hterm) as (r & m' & Hrun & Hs & Hc).
    eexists _, _, _. split; [exact Hrun|]. by split_and!.
Qed.

(** ** Push-notification configuration *)

(** C10: for an id missing from the task map, [setPushNotificationConfig]
    and [getPushNotificationConfig] throw TASK_NOT_FOUND and leave the
    manager, so the config map, as it was; for a stored task,
    [setPushNotificationConfig] with no config deletes the entry and returns
    the absent config, and [getPushNotificationConfig] returns what the map
    holds, which is null when nothing is stored. *)
Theorem pushNotificationConfig_spec taskId m :
  wf m →
  match stored m taskId with
  | None =>
      (∀ config, setPushNotificationConfig taskId config m
                 = (Throw (TaskNotFound taskId), m))
      ∧ getPushNotificationConfig taskId m = (Throw (TaskNotFound taskId), m)
      ∧ error_code (TaskNotFound taskId) = Some ErrorCodes.TASK_NOT_FOUND
      ∧ error_kind (TaskNotFound taskId) = NotFound
  | Some t =>
      let m0 := with_objs (λ h, h ++ [t]) m in
      setPushNotificationConfig taskId None m
      = (Ok (taskId, None), with_configs (delete taskId) m0)
      ∧ pushNotificationConfigs (with_configs (delete taskId) m0) !! taskId = None
      ∧ getPushNotificationConfig taskId m
        = (Ok (taskId, pushNotificationConfigs m !! taskId), m0)
      ∧ (pushNotificationConfigs m !! taskId = None →
         fst (getPushNotificationConfig taskId m) = Ok (taskId, None))
  end.
Proof.
  intros Hwf. destruct (stored m taskId) as [t|] eqn:Hst.
  - apply stored_Some in Hst as (r & Hr & Ht).
    pose proof (getTask_found _ 0 _ _ _ Hr Ht) as Hget. rewrite truncated_0 in Hget.
    assert (getPushNotificationConfig taskId m
            = (Ok (taskId, pushNotificationConfigs m !! taskId),
               with_objs (λ h, h ++ [t]) m)) as Hg.
    { unfold getPushNotificationConfig. by rewrite (bind_ok _ _ _ _ _ Hget). }
    split_and!.
    + unfold setPushNotificationConfig. by rewrite (bind_ok _ _ _ _ _ Hget).
    + simpl. apply lookup_delete_eq.
    + exact Hg.
    + intros Hnone. by rewrite Hg, Hnone.
  - assert (tasks m !! taskId = None) as Hnone.
    { destruct (tasks m !! taskId) as [r|] eqn:Hr; [|done].
      destruct (Hwf _ _ Hr) as [t Ht].
      assert (stored m taskId = Some t) as E by (apply stored_Some; eauto).
      congruence. }
    split_and!; try done.
    + intros config. unfold setPushNotificationConfig.
      by rewrite (bind_throw _ _ _ _ _ (getTask_missing _ 0 _ Hnone)).
    + unfold getPushNotificationConfig.
      by rewrite (bind_throw _ _ _ _ _ (getTask_missing _ 0 _ Hnone)).
Qed.

(** ** Creation *)

(** C5: for an id already in the task map [createTask] throws its error
    for an id that is taken, which is the JSON-RPC error with the message
    "Task with this ID already exists", the code INVALID_PARAMS and the id
    as data, and leaves the manager, and so the existing task, as it was;
    for a fresh id it returns the new task object, registered under the id,
    in state submitted with the initial message. *)
Theorem createTask_spec params m :
  match tasks m !! p_id params with
  | Some _ =>
      ∃ e, createTask params m = (Throw e, m)
           ∧ e = JsonRpcError ErrorCodes.INVALID_PARAMS
                   "Task with this ID already exists" (task_data (p_id params))
           ∧ error_kind e = AlreadyExists
           ∧ stored (createTask params m).2 (p_id params) = stored m (p_id params)
  | None =>
      ∃ r m', createTask params m = (Ok r, m')
           ∧ tasks m' = <[p_id params := r]> (tasks m)
           ∧ stored m' (p_id params) = Some (new_task params (clock m))
           ∧ objs m' !! r = Some (new_task params (clock m))
           ∧ state (status (new_task params (clock m))) = SUBMITTED
           ∧ message (status (new_task params (clock m))) = p_message params
  end.
Proof.
  destruct (tasks m !! p_id params) as [r|] eqn:E.
  - pose proof (createTask_existing params m) as Hrun.
    rewrite Hrun by (by rewrite E).
    eexists. split; [reflexivity|]. by split_and!.
  - destruct (createTask_fresh params m E) as (m' & Hc & Htk & Hob & _).
    eexists _, _. split; [exact Hc|]. split_and!; try done.
    + unfold stored. rewrite Htk, lookup_insert_eq. simpl. rewrite Hob.
      apply lookup_app_end.
    + rewrite Hob. apply lookup_app_end.
Qed.

(** ** Attaching to a finished task *)

(** C9: on a task in a terminal state, [addStreamingConnection] sends the
    new connection the current status and every stored artifact, all with
    final=false, leaves the connection registered under the task, and
    closes nothing. *)
Theorem addStreamingConnection_terminal taskId c m t :
  stored m taskId = Some t →
  is_terminal (state (status t)) = true →
  ∃ m', addStreamingConnection taskId c m = (Ok tt, m')
        ∧ sent m' = sent m ++ replay c t
        ∧ Forall (λ e, ev_final e.2 = false) (replay c t)
        ∧ streamingConnections m' !! taskId
          = Some (default [] (streamingConnections m !! taskId) ++ [c])
        ∧ closed m' = closed m
        ∧ stored m' taskId = Some t.
Proof.
  intros Hst _. pose proof Hst as (r & Hr & Ht)%stored_Some.
  destruct (addStreamingConnection_replay taskId c m t Hst)
    as (m' & Hrun & Hsent & Hcl & Hsc & Htk & Hob).
  exists m'. split_and!; try done.
  - apply replay_not_final.
  - by rewrite Hsc, lookup_insert_eq.
  - unfold stored. rewrite Htk, Hr. simpl. rewrite Hob. by apply lookup_app_l_Some.
Qed.

(** ** The terminal transition and the subscribers *)

Lemma finals_to_app c l1 l2 : finals_to c (l1 ++ l2) = (finals_to c l1 + finals_to c l2)%nat.
Proof. unfold finals_to. by rewrite filter_app, length_app. Qed.

Lemma finals_to_absent c d cs : c ∉ cs → finals_to c (map (event_to d true) cs) = 0%nat.
Proof.
  unfold finals_to. induction cs as [|x cs IH]; intros Hc; [done|].
  simpl. rewrite filter_cons_False.
  - apply IH. intros ?. apply Hc. by right.
  - simpl. intros [-> _]. apply Hc. by left.
Qed.

Lemma finals_to_once c d cs :
  NoDup cs → c ∈ cs → finals_to c (map (event_to d true) cs) = 1%nat.
Proof.
  unfold finals_to. induction cs as [|x cs IH]; intros Hnd Hc.
  - by apply elem_of_nil in Hc.
  - apply NoDup_cons in Hnd as [Hx Hnd]. simpl.
    destruct (decide (x = c)) as [->|Hne].
    + rewrite filter_cons_True by done. simpl. f_equal.
      by apply (finals_to_absent c d cs).
    + rewrite filter_cons_False by (simpl; by intros [? _]).
      apply IH; [done|]. apply elem_of_cons in Hc as [->|]; done.
Qed.

Lemma load_fail r m : objs m !! r = None → load r m = (Throw (JsError "invalid reference"), m).
Proof. intros H. unfold load. by rewrite H. Qed.

Lemma for_each_notify_none {X} taskId (xs : list X) (d : X → EventData) m :
  streamingConnections m !! taskId = None →
  for_each xs (λ x, notifyStreamingConnections taskId (d x)) m = (Ok tt, m).
Proof.
  intros H. induction xs as [|x xs IH]; [done|].
  simpl. by rewrite (bind_ok _ _ _ _ _ (notify_none _ _ _ H)).
Qed.

Lemma updateTaskStatus_dangling taskId s m r :
  tasks m !! taskId = Some r → objs m !! r = None →
  updateTaskStatus taskId s m = (Throw (JsError "invalid reference"), m).
Proof.
  intros Hr Ht. unfold updateTaskStatus, bind at 1, gets. rewrite Hr.
  by rewrite (bind_throw _ _ _ _ _ (load_fail _ _ Ht)).
Qed.

Lemma addArtifacts_detached taskId arts m :
  streamingConnections m !! taskId = None →
  addArtifacts taskId arts m
  = match tasks m !! taskId with
    | Some r =>
        (Ok r, with_objs (alter (λ t, set_artifacts
                                        (Some (default [] (artifacts t) ++ arts)) t) r) m)
    | None => (Throw (TaskNotFound taskId), m)
    end.
Proof.
  intros Hsc. unfold addArtifacts, bind at 1, gets.
  destruct (tasks m !! taskId) as [r|] eqn:Hr; [|done].
  unfold bind at 1. unfold store at 1, modify.
  set (m1 := with_objs _ m).
  assert (streamingConnections m1 !! taskId = None) as Hsc1 by exact Hsc.
  by rewrite (bind_ok _ _ _ _ _ (for_each_notify_none _ _ _ _ Hsc1)).
Qed.

Lemma publish_detached taskId p m :
  streamingConnections m !! taskId = None →
  sent (snd (publish taskId p m)) = sent m
  ∧ closed (snd (publish taskId p m)) = closed m
  ∧ streamingConnections (snd (publish taskId p m)) !! taskId = None.
Proof.
  intros Hsc. destruct p as [s|arts|d]; simpl.
  - destruct (tasks m !! taskId) as [r|] eqn:Hr.
    + destruct (objs m !! r) as [t|] eqn:Ht.
      * rewrite (bind_ok _ _ _ _ _ (updateTaskStatus_found _ s _ _ _ Hr Ht)). simpl.
        rewrite updated_sent, updated_closed, updated_connections, Hsc. simpl.
        rewrite !app_nil_r. destruct (is_terminal (state s)); rewrite ?app_nil_r;
          split_and!; try done. by apply lookup_delete_None; left.
      * by rewrite (bind_throw _ _ _ _ _ (updateTaskStatus_dangling _ s _ _ Hr Ht)).
    + by rewrite (bind_throw _ _ _ _ _ (updateTaskStatus_missing _ s _ Hr)).
  - unfold bind. rewrite (addArtifacts_detached taskId arts m Hsc).
    by destruct (tasks m !! taskId).
  - by rewrite (notify_none _ _ _ Hsc).
Qed.

Lemma publishes_detached taskId ps m :
  streamingConnections m !! taskId = None →
  sent (publishes taskId ps m) = sent m
  ∧ closed (publishes taskId ps m) = closed m
  ∧ streamingConnections (publishes taskId ps m) !! taskId = None.
Proof.
  revert m. induction ps as [|p ps IH]; intros m Hsc; [done|].
  simpl. destruct (publish_detached taskId p m Hsc) as (Hs & Hc & Hn).
  destruct (IH _ Hn) as (Hs' & Hc' & Hn'). split_and!; congruence.
Qed.

(** C3: when [updateTaskStatus] installs a terminal status on a task with
    the subscriptions [cs] attached, the events it sends are one status
    event tagged final=true per subscription, so each subscriber receives
    exactly one final event; every subscription is then closed and the
    registry entry of the task is removed; and whatever is published on the
    task afterwards sends nothing and closes nothing. *)
Theorem terminal_transition_detaches taskId s m t cs :
  stored m taskId = Some t →
  is_terminal (state s) = true →
  streamingConnections m !! taskId = Some cs →
  NoDup cs →
  ∃ r m', updateTaskStatus taskId s m = (Ok r, m')
    ∧ stored m' taskId = Some (installed s t)
    ∧ sent m' = sent m ++ map (event_to (StatusEvent s) true) cs
    ∧ (∀ c, c ∈ cs → finals_to c (map (event_to (StatusEvent s) true) cs) = 1%nat)
    ∧ (∀ c, c ∉ cs → finals_to c (map (event_to (StatusEvent s) true) cs) = 0%nat)
    ∧ closed m' = closed m ++ cs
    ∧ streamingConnections m' !! taskId = None
    ∧ (∀ ps, sent (publishes taskId ps m') = sent m'
             ∧ closed (publishes taskId ps m') = closed m'
             ∧ streamingConnections (publishes taskId ps m') !! taskId = None).
Proof.
  intros (r & Hr & Ht)%stored_Some Hterm Hcs Hnd.
  exists r, (updated taskId s r t m).
  assert (streamingConnections (updated taskId s r t m) !! taskId = None) as Hnone.
  { rewrite updated_connections, Hterm. apply lookup_delete_eq. }
  split_and!.
  - by apply updateTaskStatus_found.
  - apply updated_stored; eauto.
  - by rewrite updated_sent, Hterm, Hcs.
  - intros c Hc. by apply finals_to_once.
  - intros c Hc. by apply finals_to_absent.
  - by rewrite updated_closed, Hterm, Hcs.
  - exact Hnone.
  - intros ps. by apply publishes_detached.
Qed.

(** ** The history of a task *)

Lemma last_cons_default {X} (x d : X) l : List.last (x :: l) d = List.last l x.
Proof.
  revert x d. induction l as [|y l IH]; intros x d; [done|].
  change (List.last (x :: y :: l) d) with (List.last (y :: l) d). by rewrite !IH.
Qed.

Lemma after_statuses_status t ss :
  status (after_statuses t ss) = current_status (status t) ss.
Proof.
  unfold after_statuses, current_status. revert t.
  induction ss as [|s ss IH]; intros t; [done|].
  simpl foldl. rewrite IH, installed_status. by rewrite last_cons_default.
Qed.

Lemma after_statuses_history t ss :
  default [] (history (after_statuses t ss))
  = default [] (history t) ++ omap message (prior_statuses (status t) ss).
Proof.
  unfold after_statuses, prior_statuses. revert t.
  induction ss as [|s ss IH]; intros t.
  - simpl. by rewrite app_nil_r.
  - simpl foldl. rewrite IH, installed_history, installed_status, <- app_assoc.
    f_equal. change (removelast (status t :: s :: ss))
               with (status t :: removelast (s :: ss)).
    simpl omap. by destruct (message (status t)).
Qed.

Lemma length_omap_message (l : list TaskStatus) :
  List.length (omap message l) = List.length (filter (λ s, is_Some (message s)) l).
Proof.
  induction l as [|s l IH]; [done|].
  destruct (message s) as [msg|] eqn:E.
  - rewrite filter_cons_True by (by rewrite E).
    change (omap message (s :: l))
      with (match message s with Some x => x :: omap message l | None => omap message l end).
    rewrite E. simpl. f_equal. exact IH.
  - rewrite filter_cons_False by (rewrite E; by intros [? ?]).
    change (omap message (s :: l))
      with (match message s with Some x => x :: omap message l | None => omap message l end).
    rewrite E. exact IH.
Qed.

Lemma updateStatuses_found taskId ss m r t :
  tasks m !! taskId = Some r → objs m !! r = Some t →
  ∃ m', updateStatuses taskId ss m = (Ok tt, m')
        ∧ tasks m' !! taskId = Some r
        ∧ objs m' !! r = Some (after_statuses t ss).
Proof.
  revert m t. induction ss as [|s ss IH]; intros m t Hr Ht.
  - exists m. by split_and!.
  - simpl. rewrite (bind_ok _ _ _ _ _ (updateTaskStatus_found _ s _ _ _ Hr Ht)).
    apply IH.
    + by rewrite updated_tasks.
    + rewrite updated_lookup by eauto. by rewrite decide_True.
Qed.

(** C4, as the code has it: after [createTask] and any sequence of
    [updateTaskStatus] calls on the task, the history lists, oldest first,
    the messages of the statuses the task had before the current one, so
    its length is the number of those statuses that carried a message; the
    current status takes no place in it, and its message occurs in the
    history exactly when an earlier status carried the same message. *)
Theorem history_lists_prior_messages params ss m :
  tasks m !! p_id params = None →
  let s0 := createTaskStatus SUBMITTED (p_message params) (clock m) in
  let prior := prior_statuses s0 ss in
  ∃ r m1 m2 t,
    createTask params m = (Ok r, m1)
    ∧ updateStatuses (p_id params) ss m1 = (Ok tt, m2)
    ∧ stored m2 (p_id params) = Some t
    ∧ status t = current_status s0 ss
    ∧ default [] (history t) = omap message prior
    ∧ List.length (default [] (history t))
      = List.length (filter (λ s, is_Some (message s)) prior)
    ∧ (∀ msg, message (status t) = Some msg →
         msg ∈ default [] (history t) ↔ ∃ s, s ∈ prior ∧ message s = Some msg).
Proof.
  intros Hfresh s0 prior.
  destruct (createTask_fresh params m Hfresh) as (m1 & Hc & Htk & Hob & _).
  assert (tasks m1 !! p_id params = Some (List.length (objs m))) as Hr
    by (by rewrite Htk, lookup_insert_eq).
  assert (objs m1 !! List.length (objs m) = Some (new_task params (clock m))) as Ht
    by (rewrite Hob; apply lookup_app_end).
  destruct (updateStatuses_found _ ss _ _ _ Hr Ht) as (m2 & Hu & Hr2 & Ht2).
  assert (default [] (history (after_statuses (new_task params (clock m)) ss))
          = omap message prior) as Hh by (by rewrite after_statuses_history).
  eexists _, m1, m2, _. split_and!; try done.
  - apply stored_Some. eauto.
  - by rewrite after_statuses_status.
  - rewrite Hh. apply length_omap_message.
  - intros msg _. rewrite Hh. rewrite list_elem_of_omap. done.
Qed.

(** ** The maintenance sweep *)

(** Whether an entry of the list is swept can be decided. *)
Lemma classic_swept maxAge now h es taskId :
  swept maxAge now h es taskId ∨ ¬ swept maxAge now h es taskId.
Proof.
  induction es as [|[i r] es IH].
  - right. intros (r & t & Hin & _). by apply elem_of_nil in Hin.
  - destruct IH as [(r' & t' & Hin & Hrest)|Hno].
    { left. exists r', t'. split; [by right|done]. }
    destruct (decide (i = taskId)) as [->|Hne].
    + destruct (h !! r) as [t|] eqn:Ht.
      * destruct (expired maxAge now t) eqn:Hexp.
        -- left. exists r, t. split; [by left|done].
        -- right. intros (r' & t' & Hin & Ht' & Hexp').
           apply elem_of_cons in Hin as [Heq|Hin].
           ++ injection Heq as ->. congruence.
           ++ apply Hno. by exists r', t'.
      * right. intros (r' & t' & Hin & Ht' & Hexp').
        apply elem_of_cons in Hin as [Heq|Hin].
        -- injection Heq as ->. congruence.
        -- apply Hno. by exists r', t'.
    + right. intros (r' & t' & Hin & Hrest).
      apply elem_of_cons in Hin as [Heq|Hin].
      * injection Heq as -> _. done.
      * apply Hno. by exists r', t'.
Qed.

Lemma cleanupExpiredTasks_unfold maxAge m :
  cleanupExpiredTasks maxAge m
  = for_each (map_to_list (tasks m)) (sweep_entry maxAge (clock m)) m.
Proof.
  unfold cleanupExpiredTasks, bind at 1, gets. unfold bind at 1.
  f_equal.
Qed.

Lemma sweep_entries maxAge now es m :
  (∀ taskId r, (taskId, r) ∈ es → is_Some (objs m !! r)) →
  ∃ m', for_each es (sweep_entry maxAge now) m = (Ok tt, m')
    ∧ objs m' = objs m ∧ clock m' = clock m ∧ sessions m' = sessions m
    ∧ streamingConnections m' = streamingConnections m
    ∧ sent m' = sent m ∧ closed m' = closed m ∧ posted m' = posted m
    ∧ (∀ taskId, swept maxAge now (objs m) es taskId →
         tasks m' !! taskId = None ∧ pushNotificationConfigs m' !! taskId = None)
    ∧ (∀ taskId, ¬ swept maxAge now (objs m) es taskId →
         tasks m' !! taskId = tasks m !! taskId
         ∧ pushNotificationConfigs m' !! taskId = pushNotificationConfigs m !! taskId).
Proof.
  revert m. induction es as [|[i r] es IH]; intros m Hvalid.
  - exists m. split_and!; try done. intros taskId (r & t & Hin & _).
    by apply elem_of_nil in Hin.
  - destruct (Hvalid i r) as [t Ht]; [by left|].
    set (m1 := if expired maxAge now t
               then with_configs (delete i) (with_tasks (delete i) m) else m).
    assert (objs m1 = objs m) as Hobj by (unfold m1; by destruct (expired _ _ _)).
    destruct (IH m1) as (m' & Hrun & Ho & Hc & Hs & Hsc & Hse & Hcl & Hp & Hyes & Hno).
    { intros taskId r' Hin. rewrite Hobj. apply (Hvalid taskId r'). by right. }
    exists m'. split.
    { simpl for_each. unfold bind at 1. unfold sweep_entry at 1.
      rewrite (bind_ok _ _ _ _ _ (load_ok _ _ _ Ht)).
      fold (expired maxAge now t). unfold m1 in Hrun.
      destruct (expired maxAge now t); exact Hrun. }
    rewrite Hobj in Hyes, Hno.
    split_and!; try (unfold m1 in *; destruct (expired maxAge now t); simpl in *; congruence).
    + intros taskId (r' & t' & Hin & Ht' & Hexp).
      destruct (classic_swept maxAge now (objs m) es taskId) as [Hsw|Hnsw].
      * by apply Hyes.
      * destruct (Hno _ Hnsw) as [-> ->].
        apply elem_of_cons in Hin as [Heq|Hin].
        -- injection Heq as -> ->. assert (t' = t) as -> by congruence.
           unfold m1. rewrite Hexp. simpl. by rewrite !lookup_delete_eq.
        -- exfalso. apply Hnsw. by exists r', t'.
    + intros taskId Hnsw.
      assert (¬ swept maxAge now (objs m) es taskId) as Hnsw'.
      { intros (r' & t' & Hin & Hrest). apply Hnsw. exists r', t'. split; [by right|done]. }
      destruct (Hno _ Hnsw') as [-> ->].
      unfold m1. destruct (expired maxAge now t) eqn:Hexp; [|done]. simpl.
      assert (i ≠ taskId) as Hne.
      { intros ->. apply Hnsw. exists r, t. split; [by left|done]. }
      by rewrite !lookup_delete_ne.
Qed.

Lemma swept_sweepable maxAge m taskId :
  wf m →
  swept maxAge (clock m) (objs m) (map_to_list (tasks m)) taskId
  ↔ sweepable maxAge m taskId = true.
Proof.
  intros Hwf. unfold swept, sweepable, stored. split.
  - intros (r & t & Hin%elem_of_map_to_list & Ht & Hexp).
    rewrite Hin. simpl. by rewrite Ht.
  - destruct (tasks m !! taskId) as [r|] eqn:Hr; simpl; [|done].
    destruct (objs m !! r) as [t|] eqn:Ht; [|done].
    intros Hexp. exists r, t. split; [by apply elem_of_map_to_list|done].
Qed.

(** C7: [cleanupExpiredTasks maxAge] deletes from the task map exactly the
    tasks whose status timestamp is more than [maxAge] before the current
    time and whose state is terminal, deletes the push-notification config
    stored under each deleted id, and keeps every other entry of both maps;
    so a task in a non-terminal state stays whatever its age. *)
Theorem cleanupExpiredTasks_spec maxAge m :
  wf m →
  ∃ m', cleanupExpiredTasks maxAge m = (Ok tt, m')
    ∧ (∀ taskId, tasks m' !! taskId
                 = if sweepable maxAge m taskId then None else tasks m !! taskId)
    ∧ (∀ taskId, pushNotificationConfigs m' !! taskId
                 = if sweepable maxAge m taskId then None
                   else pushNotificationConfigs m !! taskId)
    ∧ (∀ taskId, stored m' taskId
                 = if sweepable maxAge m taskId then None else stored m taskId)
    ∧ (∀ taskId t, stored m taskId = Some t →
         sweepable maxAge m taskId
         = ((maxAge <? clock m - timestamp (status t))
            && is_terminal (state (status t)))%bool)
    ∧ (∀ taskId t, stored m taskId = Some t →
         is_terminal (state (status t)) = false → stored m' taskId = Some t).
Proof.
  intros Hwf. rewrite cleanupExpiredTasks_unfold.
  destruct (sweep_entries maxAge (clock m) (map_to_list (tasks m)) m)
    as (m' & Hrun & Ho & _ & _ & _ & _ & _ & _ & Hyes & Hno).
  { intros taskId r Hin%elem_of_map_to_list. by apply (Hwf taskId). }
  assert (∀ taskId,
    tasks m' !! taskId = (if sweepable maxAge m taskId then None else tasks m !! taskId)
    ∧ pushNotificationConfigs m' !! taskId
      = (if sweepable maxAge m taskId then None
         else pushNotificationConfigs m !! taskId)) as Hboth.
  { intros taskId. destruct (sweepable maxAge m taskId) eqn:Hsw.
    - apply Hyes. by apply swept_sweepable.
    - apply Hno. rewrite swept_sweepable by done. by rewrite Hsw. }
  assert (∀ taskId, stored m' taskId
                    = if sweepable maxAge m taskId then None else stored m taskId) as Hst.
  { intros taskId. unfold stored at 1. rewrite (proj1 (Hboth taskId)).
    destruct (sweepable maxAge m taskId); [done|]. unfold stored. by rewrite Ho. }
  exists m'. split_and!; try done.
  - intros taskId. apply Hboth.
  - intros taskId. apply Hboth.
  - intros taskId t Ht. unfold sweepable. by rewrite Ht.
  - intros taskId t Ht Hterm. rewrite Hst. unfold sweepable, expired.
    rewrite Ht, Hterm. by rewrite andb_false_r.
Qed.

(** ** addArtifacts *)

Lemma for_each_notify_frame {X} taskId (xs : list X) (d : X → EventData) m r t :
  tasks m !! taskId = Some r → objs m !! r = Some t →
  ∃ copies m', for_each xs (λ x, notifyStreamingConnections taskId (d x)) m = (Ok tt, m')
    ∧ tasks m' = tasks m ∧ objs m' = objs m ++ copies ∧ clock m' = clock m
    ∧ pushNotificationConfigs m' = pushNotificationConfigs m.
Proof.
  intros Hr. revert m Hr. induction xs as [|x xs IH]; intros m Hr Ht.
  - exists [], m. rewrite app_nil_r. by split_and!.
  - simpl for_each. destruct (streamingConnections m !! taskId) as [cs|] eqn:Hcs.
    + rewrite (bind_ok _ _ _ _ _ (notify_some _ (d x) _ _ _ _ Hcs Hr Ht)).
      destruct (IH (notified taskId (d x) t cs m)) as (copies & m' & Hrun & Htk & Hob & Hck & Hcf).
      { by rewrite notified_tasks. }
      { rewrite notified_objs. by apply lookup_app_l_Some. }
      exists (t :: copies), m'. split; [exact Hrun|].
      rewrite Htk, Hob, Hck, Hcf, notified_tasks, notified_objs, notified_clock,
        notified_configs, <- app_assoc. by split_and!.
    + rewrite (bind_ok _ _ _ _ _ (notify_none _ (d x) _ Hcs)). by apply IH.
Qed.

Lemma addArtifacts_found taskId arts m r t :
  tasks m !! taskId = Some r → objs m !! r = Some t →
  ∃ copies m', addArtifacts taskId arts m = (Ok r, m')
    ∧ tasks m' = tasks m
    ∧ objs m' = <[r := with_artifacts arts t]> (objs m) ++ copies
    ∧ clock m' = clock m
    ∧ pushNotificationConfigs m' = pushNotificationConfigs m.
Proof.
  intros Hr Ht. unfold addArtifacts, bind at 1, gets. rewrite Hr.
  unfold bind at 1. unfold store at 1, modify.
  set (m1 := with_objs _ m).
  assert (objs m1 = <[r := with_artifacts arts t]> (objs m)) as Hob1.
  { unfold m1. simpl. by rewrite (alter_known _ _ _ _ Ht). }
  assert (tasks m1 !! taskId = Some r) as Hr1 by exact Hr.
  assert (objs m1 !! r = Some (with_artifacts arts t)) as Ht1.
  { rewrite Hob1. apply list_lookup_insert_eq. by eapply lookup_lt_Some. }
  destruct (for_each_notify_frame taskId arts ArtifactEvent m1 r _ Hr1 Ht1)
    as (copies & m' & Hrun & Htk & Hob & Hck & Hcf).
  exists copies, m'. rewrite (bind_ok _ _ _ _ _ Hrun).
  rewrite Htk, Hob, Hck, Hcf, Hob1. by split_and!.
Qed.

(** ** processTask *)

Lemma invoke_found (f : Capability) c m t :
  objs m !! c = Some t →
  invoke f c m = (snd (f t), with_objs (alter (λ _, fst (f t)) c) m).
Proof.
  intros Ht. unfold invoke. rewrite (bind_ok _ _ _ _ _ (load_ok _ _ _ Ht)).
  unfold bind, store, modify. done.
Qed.

Lemma with_result_artifacts_metadata result t :
  metadata (with_result_artifacts result t) = metadata t.
Proof. unfold with_result_artifacts. by destruct (r_artifacts result) as [[|? ?]|]. Qed.

Lemma with_result_artifacts_status result t :
  status (with_result_artifacts result t) = status t.
Proof. unfold with_result_artifacts. by destruct (r_artifacts result) as [[|? ?]|]. Qed.

Section SkillsFacts.
Variable skills : gmap string Skill.

Lemma processTask_begin_found taskId m r t skill :
tasks m !! taskId = Some r → objs m !! r = Some t →
lookup_skill skills (determineSkill t) = Some skill →
processTask_begin skills taskId m
= (Ok (List.length (objs m), skill),
   updated taskId (createTaskStatus WORKING None (clock m)) r t
     (with_objs (λ h, h ++ [t]) m)).
Proof.
intros Hr Ht Hsk. unfold processTask_begin.
rewrite (bind_ok _ _ _ _ _ (getTask_found _ 0 _ _ _ Hr Ht)), truncated_0.
set (m0 := with_objs (λ h, h ++ [t]) m).
assert (objs m0 !! List.length (objs m) = Some t) as Hcopy by apply lookup_app_end.
rewrite (bind_ok _ _ _ _ _ (load_ok _ _ _ Hcopy)). rewrite Hsk.
unfold bind at 1, gets. change (clock m0) with (clock m).
assert (tasks m0 !! taskId = Some r) as Hr0 by done.
assert (objs m0 !! r = Some t) as Ht0 by (by apply lookup_app_l_Some).
by rewrite (bind_ok _ _ _ _ _ (updateTaskStatus_found _ _ _ _ _ Hr0 Ht0)).
Qed.

Lemma processTask_begin_unknown taskId m r t :
tasks m !! taskId = Some r → objs m !! r = Some t →
lookup_skill skills (determineSkill t) = None →
∃ e, processTask_begin skills taskId m = (Throw e, with_objs (λ h, h ++ [t]) m).
Proof.
intros Hr Ht Hsk. unfold processTask_begin.
rewrite (bind_ok _ _ _ _ _ (getTask_found _ 0 _ _ _ Hr Ht)), truncated_0.
set (m0 := with_objs (λ h, h ++ [t]) m).
assert (objs m0 !! List.length (objs m) = Some t) as Hcopy by apply lookup_app_end.
rewrite (bind_ok _ _ _ _ _ (load_ok _ _ _ Hcopy)). rewrite Hsk. by eexists.
Qed.

Lemma processTask_resume_ok taskId (outcome : M SkillResult) m m1 result r t :
outcome m = (Ok result, m1) →
tasks m1 !! taskId = Some r → objs m1 !! r = Some t →
∃ rc m',
  processTask_resume taskId outcome m = (Ok rc, m')
  ∧ tasks m' !! taskId = Some r
  ∧ objs m' !! r
    = Some (installed (completedStatus result (clock m1)) (with_result_artifacts result t))
  ∧ objs m' !! rc
    = Some (installed (completedStatus result (clock m1)) (with_result_artifacts result t))
  ∧ (∀ r', r' ≠ r → is_Some (objs m1 !! r') → objs m' !! r' = objs m1 !! r').
Proof.
intros Hout Hr Ht. unfold processTask_resume, try_catch.
rewrite (bind_ok _ _ _ _ _ Hout).
assert (∃ m2, ∀ k : unit → M nat,
  bind (match r_artifacts result with
        | Some (a :: l) => bind (addArtifacts taskId (a :: l)) (λ _, ret tt)
        | _ => ret tt
        end) k m1 = k tt m2
  ∧ tasks m2 !! taskId = Some r
  ∧ objs m2 !! r = Some (with_result_artifacts result t)
  ∧ clock m2 = clock m1
  ∧ (∀ r', r' ≠ r → is_Some (objs m1 !! r') → objs m2 !! r' = objs m1 !! r'))
  as (m2 & Hm2).
{ unfold with_result_artifacts.
  destruct (r_artifacts result) as [[|a l]|]; try (exists m1; intros k; by split_and!).
  destruct (addArtifacts_found taskId (a :: l) m1 r t Hr Ht)
    as (copies & m2 & Hrun & Htk & Hob & Hck & _).
  exists m2. intros k. split_and!.
  - by rewrite (bind_ok _ _ _ _ _ (bind_ok _ _ _ _ _ Hrun)).
  - by rewrite Htk.
  - rewrite Hob. apply lookup_app_l_Some, list_lookup_insert_eq.
    by eapply lookup_lt_Some.
  - done.
  - intros r' Hne [x Hx]. rewrite Hob.
    rewrite lookup_app_l by (rewrite length_insert; by eapply lookup_lt_Some).
    by apply list_lookup_insert_ne. }
destruct (Hm2 (λ _, ret 0%nat)) as (_ & Hr2 & Ht2 & Hck2 & Hframe2).
rewrite (proj1 (Hm2 _)).
unfold bind at 1, gets. rewrite Hck2. fold (completedStatus result (clock m1)).
rewrite (bind_ok _ _ _ _ _ (updateTaskStatus_found _ _ _ _ _ Hr2 Ht2)).
set (m3 := updated taskId (completedStatus result (clock m1)) r _ m2).
assert (tasks m3 !! taskId = Some r) as Hr3 by (unfold m3; by rewrite updated_tasks).
assert (objs m3 !! r = Some (installed (completedStatus result (clock m1))
                               (with_result_artifacts result t))) as Ht3.
{ unfold m3. rewrite updated_lookup by eauto. by rewrite decide_True. }
pose proof (getTask_found _ 0 _ _ _ Hr3 Ht3) as Hg. rewrite truncated_0 in Hg.
rewrite Hg. eexists _, _. split; [reflexivity|]. simpl. split_and!.
- done.
- by apply lookup_app_l_Some.
- apply lookup_app_end.
- intros r' Hne Hsome. rewrite <- (Hframe2 r' Hne Hsome).
  assert (is_Some (objs m2 !! r')) as Hsome2 by (by rewrite Hframe2).
  assert (objs m3 !! r' = objs m2 !! r') as E.
  { unfold m3. rewrite updated_lookup by eauto. by rewrite decide_False. }
  rewrite <- E. apply lookup_app_l. apply lookup_lt_is_Some. by rewrite E.
Qed.


End SkillsFacts.

(** ** What a capability does to the object it is given *)

Section Capabilities.
Variable skills : gmap string Skill.

(** C8: when the capability resolved for a stored task returns a result,
  [processTask] leaves the stored task in state completed, carrying the
  returned message, never in state input-required: the capability worked
  on the copy made by [getTask], which holds whatever it assigned, while
  the stored record keeps its own metadata. *)
Theorem processTask_completes taskId m t skill result :
stored m taskId = Some t →
lookup_skill skills (determineSkill t) = Some skill →
snd (process skill t) = Ok result →
∃ rc m' t',
  processTask skills taskId m = (Ok rc, m')
  ∧ stored m' taskId = Some t'
  ∧ objs m' !! rc = Some t'
  ∧ state (status t') = COMPLETED
  ∧ state (status t') ≠ INPUT_REQUIRED
  ∧ message (status t') = r_message result
  ∧ metadata t' = metadata t
  ∧ objs m' !! List.length (objs m) = Some (fst (process skill t)).
Proof.
intros (r & Hr & Ht)%stored_Some Hsk Hres.
set (c := List.length (objs m)).
set (working := createTaskStatus WORKING None (clock m)).
set (m0 := with_objs (λ h, h ++ [t]) m).
set (m1 := updated taskId working r t m0).
assert (r ≠ c) as Hrc by (apply lookup_lt_Some in Ht; unfold c; lia).
assert (objs m0 !! r = Some t) as Ht0 by (by apply lookup_app_l_Some).
assert (objs m0 !! c = Some t) as Hc0 by apply lookup_app_end.
assert (objs m1 !! c = Some t) as Hc1.
{ unfold m1. rewrite updated_lookup by eauto. by rewrite decide_False. }
assert (objs m1 !! r = Some (installed working t)) as Ht1.
{ unfold m1. rewrite updated_lookup by eauto. by rewrite decide_True. }
set (m2 := with_objs (alter (λ _, fst (process skill t)) c) m1).
assert (invoke (process skill) c m1 = (Ok result, m2)) as Hinv
  by (by rewrite (invoke_found _ _ _ _ Hc1), Hres).
assert (tasks m2 !! taskId = Some r) as Hr2 by (unfold m2, m1; simpl; by rewrite updated_tasks).
assert (objs m2 !! r = Some (installed working t)) as Ht2.
{ unfold m2. simpl. by rewrite list_lookup_alter_ne. }
assert (objs m2 !! c = Some (fst (process skill t))) as Hc2.
{ unfold m2. simpl. by rewrite list_lookup_alter_eq, Hc1. }
destruct (processTask_resume_ok taskId _ m1 m2 result r _ Hinv Hr2 Ht2)
  as (rc & m' & Hrun & Hr' & Ht' & Hrc' & Hframe).
eexists rc, m', _. split_and!.
- unfold processTask.
  rewrite (bind_ok _ _ _ _ _ (processTask_begin_found skills _ _ _ _ _ Hr Ht Hsk)).
  exact Hrun.
- apply stored_Some. eauto.
- exact Hrc'.
- done.
- done.
- done.
- by rewrite installed_metadata, with_result_artifacts_metadata, installed_metadata.
- rewrite Hframe; eauto.
Qed.

(** When the resolved capability has no [continueOrchestration],
  [continueTask] is [processTask] on a manager that differs in one
  object only: the copy that was given the user message. *)
Lemma continueTask_restarts taskId userMessage m t skill :
stored m taskId = Some t →
state (status t) = INPUT_REQUIRED →
lookup_skill skills (determineSkill t) = Some skill →
continueOrchestration skill = None →
continueTask skills taskId userMessage m
= processTask skills taskId
    (with_objs (λ h, h ++ [set_status_message (Some userMessage)
                             (set_history (Some (default [] (history t) ++ [userMessage])) t)])
       m).
Proof.
intros (r & Hr & Ht)%stored_Some Hstate Hsk Hcont.
unfold continueTask.
rewrite (bind_ok _ _ _ _ _ (getTask_found _ 0 _ _ _ Hr Ht)), truncated_0.
set (m0 := with_objs (λ h, h ++ [t]) m).
assert (objs m0 !! List.length (objs m) = Some t) as Hcopy by apply lookup_app_end.
rewrite (bind_ok _ _ _ _ _ (load_ok _ _ _ Hcopy)). rewrite Hstate.
change (negb (is_input_required INPUT_REQUIRED)) with false. cbv iota.
unfold bind at 1. unfold store at 1, modify. cbv beta.
set (t1 := set_history (Some (default [] (history t) ++ [userMessage])) t).
set (m1 := with_objs _ m0).
assert (objs m1 = objs m ++ [t1]) as Hob1.
{ unfold m1, m0. simpl. by rewrite alter_app_end. }
assert (objs m1 !! List.length (objs m) = Some t1) as Hcopy1.
{ rewrite Hob1. apply lookup_app_end. }
rewrite (bind_ok _ _ _ _ _ (load_ok _ _ _ Hcopy1)).
assert (determineSkill t1 = determineSkill t) as -> by done.
rewrite (lookup_skill_member _ _ _ Hsk), Hcont.
unfold bind at 1. unfold store at 1, modify. cbv beta. f_equal.
unfold m1, m0, with_objs. simpl. f_equal. by rewrite !alter_app_end.
Qed.

End Capabilities.

(** ** Terminal states *)






(** ** The run, evaluated *)

Lemma wf_check_sound m : wf_check m = true → wf m.
Proof.
  unfold wf_check, wf. intros H taskId r Hr.
  rewrite forallb_forall in H.
  specialize (H (taskId, r)). simpl in H.
  eapply bool_decide_eq_true_1, H.
  apply list_elem_of_In. by apply elem_of_map_to_list.
Qed.



(** C2, evaluated: "t1" waits for input with the question of the agent as
    its status message, the capability resolved for it has no
    [continueOrchestration], and [continueTask] is called with the answer
    of the user.  Afterwards the stored history holds the first request and
    the question but not the answer, and the capability, which reports the
    message it was given, reported the question: the answer reached neither
    the stored task nor the restarted processing. *)
Theorem continueTask_loses_userMessage :
  ∃ t skill t',
    stored demo_waiting "t1" = Some t
    ∧ state (status t) = INPUT_REQUIRED
    ∧ message (status t) = Some prompt
    ∧ lookup_skill demo_skills (determineSkill t) = Some skill
    ∧ continueOrchestration skill = None
    ∧ stored demo_continued "t1" = Some t'
    ∧ history t' = Some [analyze_request; prompt]
    ∧ (answer ∉ default [] (history t'))
    ∧ state (status t') = COMPLETED
    ∧ message (status t') = Some prompt
    ∧ message (status t') ≠ Some answer.
Proof.
  eexists _, _, _.
  split; [vm_compute; reflexivity|].
  split; [reflexivity|]. split; [reflexivity|].
  split; [vm_compute; reflexivity|]. split; [reflexivity|].
  split; [vm_compute; reflexivity|].
  split; [reflexivity|]. split; [|split; [reflexivity|split; [reflexivity|done]]].
  simpl. intros H. apply elem_of_cons in H as [H|H]; [done|].
  apply elem_of_cons in H as [H|H]; [done|]. by apply elem_of_nil in H.
Qed.

(** C3, witness: the two subscribers of "t1" when it is canceled. *)
Lemma terminal_transition_detaches_witness :
  ∃ t, stored demo_subscribed "t1" = Some t
    ∧ is_terminal (state (canceledStatus 1001)) = true
    ∧ streamingConnections demo_subscribed !! "t1" = Some [7%nat; 8%nat]
    ∧ NoDup [7%nat; 8%nat]
    ∧ ∃ r m', updateTaskStatus "t1" (canceledStatus 1001) demo_subscribed = (Ok r, m')
        ∧ stored m' "t1" = Some (installed (canceledStatus 1001) t)
        ∧ sent m' = sent demo_subscribed
                    ++ map (event_to (StatusEvent (canceledStatus 1001)) true) [7%nat; 8%nat]
        ∧ (∀ c, c ∈ [7%nat; 8%nat] →
             finals_to c (map (event_to (StatusEvent (canceledStatus 1001)) true)
                            [7%nat; 8%nat]) = 1%nat)
        ∧ (∀ c, c ∉ [7%nat; 8%nat] →
             finals_to c (map (event_to (StatusEvent (canceledStatus 1001)) true)
                            [7%nat; 8%nat]) = 0%nat)
        ∧ closed m' = closed demo_subscribed ++ [7%nat; 8%nat]
        ∧ streamingConnections m' !! "t1" = None
        ∧ (∀ ps, sent (publishes "t1" ps m') = sent m'
                 ∧ closed (publishes "t1" ps m') = closed m'
                 ∧ streamingConnections (publishes "t1" ps m') !! "t1" = None).
Proof.
  assert (NoDup [7%nat; 8%nat]) as Hnd.
  { apply NoDup_cons. split; [|apply NoDup_singleton].
    intros [E|E]%elem_of_cons; [done|by apply elem_of_nil in E]. }
  eexists. split; [vm_compute; reflexivity|]. split; [reflexivity|].
  split; [vm_compute; reflexivity|]. split; [exact Hnd|].
  eapply (terminal_transition_detaches "t1" (canceledStatus 1001) demo_subscribed);
    [vm_compute; reflexivity|reflexivity|vm_compute; reflexivity|exact Hnd].
Defined.

(** C4, counterexample: the second status of "t1" carries the message of
    the first, so the message of the current status is in the history. *)
Lemma repeated_message_is_in_history :
  ∃ t msg, stored demo_repeated "t1" = Some t
           ∧ message (status t) = Some msg
           ∧ msg ∈ default [] (history t).
Proof.
  eexists _, _. split; [vm_compute; reflexivity|]. split; [reflexivity|].
  simpl. apply elem_of_cons. by left.
Qed.

(** C4, witness: a new task taken through working to completed. *)
Lemma history_lists_prior_messages_witness :
  let ss := [createTaskStatus WORKING None 1001;
             createTaskStatus COMPLETED (Some prompt) 1002] in
  let s0 := createTaskStatus SUBMITTED (p_message demo_params) 1000 in
  tasks (new_TaskManager 1000) !! "t1" = None
  ∧ ∃ r m1 m2 t,
      createTask demo_params (new_TaskManager 1000) = (Ok r, m1)
      ∧ updateStatuses "t1" ss m1 = (Ok tt, m2)
      ∧ stored m2 "t1" = Some t
      ∧ status t = current_status s0 ss
      ∧ default [] (history t) = omap message (prior_statuses s0 ss)
      ∧ List.length (default [] (history t))
        = List.length (filter (λ s, is_Some (message s)) (prior_statuses s0 ss))
      ∧ (∀ msg, message (status t) = Some msg →
           msg ∈ default [] (history t)
           ↔ ∃ s, s ∈ prior_statuses s0 ss ∧ message s = Some msg).
Proof.
  intros ss s0. split; [reflexivity|].
  apply (history_lists_prior_messages demo_params ss (new_TaskManager 1000)).
  reflexivity.
Defined.

(** C5, evaluated: "t1" is created a second time; the error is the one for
    an id that is taken and "t1" is as it was. *)
Lemma createTask_again_already_exists :
  ∃ e, createTask demo_params demo_submitted = (Throw e, demo_submitted)
       ∧ error_message e = "Task with this ID already exists"
       ∧ error_code e = Some ErrorCodes.INVALID_PARAMS
       ∧ error_kind e = AlreadyExists
       ∧ stored demo_submitted "t1" = Some (new_task demo_params 1000).
Proof.
  eexists. split; [vm_compute; reflexivity|]. split_and!; try done.
Qed.

(** C6, witness: "t1" just submitted is canceled. *)
Lemma cancelTask_spec_witness :
  stored demo_submitted "t1" = Some (new_task demo_params 1000)
  ∧ ∃ r m' t', cancelTask "t1" demo_submitted = (Ok r, m')
       ∧ stored m' "t1" = Some t'
       ∧ objs m' !! r = Some t'
       ∧ status t' = canceledStatus (clock demo_submitted)
       ∧ state (status t') = CANCELED
       ∧ t' = installed (canceledStatus (clock demo_submitted)) (new_task demo_params 1000).
Proof.
  split; [vm_compute; reflexivity|].
  apply (cancelTask_spec "t1" demo_submitted (new_task demo_params 1000)).
  vm_compute; reflexivity.
Defined.

(** C7, witness: two days later and with a limit of one day, the completed
    "t1" can be swept and the submitted "t2" cannot. *)
Lemma cleanupExpiredTasks_spec_witness :
  wf demo_aged
  ∧ sweepable 86400000 demo_aged "t1" = true
  ∧ sweepable 86400000 demo_aged "t2" = false
  ∧ ∃ m', cleanupExpiredTasks 86400000 demo_aged = (Ok tt, m')
    ∧ (∀ taskId, tasks m' !! taskId
                 = if sweepable 86400000 demo_aged taskId then None
                   else tasks demo_aged !! taskId)
    ∧ (∀ taskId, pushNotificationConfigs m' !! taskId
                 = if sweepable 86400000 demo_aged taskId then None
                   else pushNotificationConfigs demo_aged !! taskId)
    ∧ (∀ taskId, stored m' taskId
                 = if sweepable 86400000 demo_aged taskId then None
                   else stored demo_aged taskId)
    ∧ (∀ taskId t, stored demo_aged taskId = Some t →
         sweepable 86400000 demo_aged taskId
         = ((86400000 <? clock demo_aged - timestamp (status t))
            && is_terminal (state (status t)))%bool)
    ∧ (∀ taskId t, stored demo_aged taskId = Some t →
         is_terminal (state (status t)) = false → stored m' taskId = Some t).
Proof.
  assert (wf demo_aged) as Hwf by (apply wf_check_sound; vm_compute; reflexivity).
  split; [exact Hwf|]. split; [vm_compute; reflexivity|]. split; [vm_compute; reflexivity|].
  apply (cleanupExpiredTasks_spec 86400000 demo_aged Hwf).
Defined.

(** C8, witness: the capability of "t1" assigns input-required to the
    object it holds and returns; the stored task is completed. *)
Lemma processTask_completes_witness :
  let t := new_task demo_params 1000 in
  let skill := {| process := echo; continueOrchestration := None |} in
  let result := {| r_message := Some analyze_request; r_artifacts := Some [summary] |} in
  stored demo_submitted "t1" = Some t
  ∧ lookup_skill demo_skills (determineSkill t) = Some skill
  ∧ snd (process skill t) = Ok result
  ∧ state (status (fst (process skill t))) = INPUT_REQUIRED
  ∧ ∃ rc m' t',
      processTask demo_skills "t1" demo_submitted = (Ok rc, m')
      ∧ stored m' "t1" = Some t'
      ∧ objs m' !! rc = Some t'
      ∧ state (status t') = COMPLETED
      ∧ state (status t') ≠ INPUT_REQUIRED
      ∧ message (status t') = r_message result
      ∧ metadata t' = metadata t
      ∧ objs m' !! List.length (objs demo_submitted) = Some (fst (process skill t)).
Proof.
  intros t skill result.
  split; [vm_compute; reflexivity|]. split; [vm_compute; reflexivity|].
  split; [reflexivity|]. split; [reflexivity|].
  apply (processTask_completes demo_skills "t1" demo_submitted t skill result);
    [vm_compute; reflexivity|vm_compute; reflexivity|reflexivity].
Defined.

(** C9, witness: a subscriber attaches to the canceled "t1". *)
Lemma addStreamingConnection_terminal_witness :
  ∃ t, stored demo_canceled "t1" = Some t
    ∧ is_terminal (state (status t)) = true
    ∧ ∃ m', addStreamingConnection "t1" 9%nat demo_canceled = (Ok tt, m')
        ∧ sent m' = sent demo_canceled ++ replay 9%nat t
        ∧ Forall (λ e, ev_final e.2 = false) (replay 9%nat t)
        ∧ streamingConnections m' !! "t1"
          = Some (default [] (streamingConnections demo_canceled !! "t1") ++ [9%nat])
        ∧ closed m' = closed demo_canceled
        ∧ stored m' "t1" = Some t.
Proof.
  eexists. split; [vm_compute; reflexivity|]. split; [reflexivity|].
  eapply (addStreamingConnection_terminal "t1" 9%nat demo_canceled);
    [vm_compute; reflexivity|reflexivity].
Defined.

(** C10, witness: "t1" is stored and has no config, "t9" is unknown. *)
Lemma pushNotificationConfig_spec_witness :
  wf demo_submitted
  ∧ (getPushNotificationConfig "t9" demo_submitted
     = (Throw (TaskNotFound "t9"), demo_submitted))
  ∧ fst (getPushNotificationConfig "t1" demo_submitted) = Ok ("t1", None).
Proof.
  assert (wf demo_submitted) as Hwf by (apply wf_check_sound; vm_compute; reflexivity).
  split; [exact Hwf|]. split.
  - pose proof (pushNotificationConfig_spec "t9" demo_submitted Hwf) as H.
    assert (stored demo_submitted "t9" = None) as E by (vm_compute; reflexivity).
    rewrite E in H. apply H.
  - pose proof (pushNotificationConfig_spec "t1" demo_submitted Hwf) as H.
    assert (stored demo_submitted "t1" = Some (new_task demo_params 1000)) as E
      by (vm_compute; reflexivity).
    rewrite E in H. apply H. vm_compute; reflexivity.
Defined.

(** ** Validity of the references is an invariant *)

Create HintDb preserves.

Lemma wf_new now : wf (new_TaskManager now).
Proof. intros taskId r H. simpl in H. by apply lookup_empty_Some in H. Qed.

Lemma wf_advance d m : wf m → wf (advance d m).
Proof. done. Qed.

Section Preserves.
Context {A B : Type}.

Lemma preserves_pure (r : Result A) : preserves (λ m, (r, m)).
Proof. by intros m H. Qed.

Lemma preserves_ret (a : A) : preserves (ret a).
Proof. by intros m H. Qed.

Lemma preserves_throw e : preserves (@throw A e).
Proof. by intros m H. Qed.

Lemma preserves_gets (f : TaskManager → A) : preserves (gets f).
Proof. by intros m H. Qed.

Lemma preserves_bind (c : M A) (k : A → M B) :
preserves c → (∀ a, preserves (k a)) → preserves (bind c k).
Proof.
intros Hc Hk m H. unfold bind. specialize (Hc m H).
destruct (c m) as [[a|e] m']; simpl in *; [by apply Hk|done].
Qed.

Lemma preserves_try_catch (c : M A) (h : Thrown → M A) :
preserves c → (∀ e, preserves (h e)) → preserves (try_catch c h).
Proof.
intros Hc Hh m H. unfold try_catch. specialize (Hc m H).
destruct (c m) as [[a|e] m']; simpl in *; [done|by apply Hh].
Qed.

End Preserves.

Lemma preserves_for_each {X} (xs : list X) (body : X → M unit) :
  (∀ x, preserves (body x)) → preserves (for_each xs body).
Proof.
  intros Hb. induction xs as [|x xs IH]; simpl.
  - apply preserves_ret.
  - apply preserves_bind; [apply Hb|]. intros _. exact IH.
Qed.

Lemma preserves_fire_and_forget (c : M unit) : preserves c → preserves (fire_and_forget c).
Proof. intros Hc m H. unfold fire_and_forget. simpl. by apply Hc. Qed.

Lemma preserves_modify (f : TaskManager → TaskManager) :
  (∀ m, tasks (f m) = tasks m) → (∀ m, objs (f m) = objs m) → preserves (modify f).
Proof.
  intros Ht Ho m H taskId r. unfold modify. simpl. rewrite Ht, Ho. apply H.
Qed.

Lemma preserves_delete taskId : preserves (modify (with_tasks (delete taskId))).
Proof.
  intros m H i r. unfold modify. simpl. intros Hr.
  apply lookup_delete_Some in Hr as [_ Hr]. by apply (H i).
Qed.

Lemma preserves_load r : preserves (load r).
Proof. intros m H. unfold load. by destruct (objs m !! r). Qed.

Lemma preserves_alloc t : preserves (alloc t).
Proof.
  intros m H taskId r Hr. unfold alloc in *. simpl in *.
  destruct (H taskId r Hr) as [x Hx]. exists x. by apply lookup_app_l_Some.
Qed.

Lemma preserves_store r f : preserves (store r f).
Proof.
  intros m H taskId r' Hr. unfold store, modify in *. simpl in *.
  destruct (H taskId r' Hr) as [x Hx].
  apply lookup_lt_is_Some. rewrite length_alter. by eapply lookup_lt_Some.
Qed.

Ltac preserves_step :=
  lazymatch goal with
  | |- preserves (bind _ _) => apply preserves_bind; [|intros ?]
  | |- preserves (try_catch _ _) => apply preserves_try_catch; [|intros ?]
  | |- preserves (for_each _ _) => apply preserves_for_each; intros ?
  | |- preserves (fire_and_forget _) => apply preserves_fire_and_forget
  | |- preserves (ret _) => apply preserves_ret
  | |- preserves (throw _) => apply preserves_throw
  | |- preserves (gets _) => apply preserves_gets
  | |- preserves (load _) => apply preserves_load
  | |- preserves (alloc _) => apply preserves_alloc
  | |- preserves (store _ _) => apply preserves_store
  | |- preserves (modify (with_tasks (delete _))) => apply preserves_delete
  | |- preserves (modify _) => apply preserves_modify; intros ?; reflexivity
  | |- preserves (match ?x with _ => _ end) => destruct x
  | |- preserves (λ m, (_, m)) => apply preserves_pure
  | |- preserves _ => solve [auto with preserves]
  end.

Ltac preserves_all := repeat preserves_step.

Lemma preserves_sendEvent c d f : preserves (sendEvent c d f).
Proof. unfold sendEvent. preserves_all. Qed.

Lemma preserves_close c : preserves (close c).
Proof. unfold close. preserves_all. Qed.

#[local] Hint Resolve preserves_sendEvent preserves_close : preserves.

Lemma preserves_getTask taskId n : preserves (getTask taskId n).
Proof. unfold getTask. preserves_all. Qed.

#[local] Hint Resolve preserves_getTask : preserves.

Lemma preserves_sendPushNotification taskId : preserves (sendPushNotification taskId).
Proof. unfold sendPushNotification. preserves_all. Qed.

Lemma preserves_notifyStreamingConnections taskId d :
  preserves (notifyStreamingConnections taskId d).
Proof. unfold notifyStreamingConnections. preserves_all. Qed.

#[local] Hint Resolve preserves_sendPushNotification
  preserves_notifyStreamingConnections : preserves.

Lemma preserves_updateTaskStatus taskId s : preserves (updateTaskStatus taskId s).
Proof. unfold updateTaskStatus. preserves_all. Qed.

Lemma preserves_addArtifacts taskId arts : preserves (addArtifacts taskId arts).
Proof. unfold addArtifacts. preserves_all. Qed.

#[local] Hint Resolve preserves_updateTaskStatus preserves_addArtifacts : preserves.

Lemma preserves_createTask params : preserves (createTask params).
Proof.
  intros m H. destruct (tasks m !! p_id params) as [r|] eqn:E.
  - rewrite createTask_existing by (by rewrite E). done.
  - destruct (createTask_fresh params m E) as (m' & -> & Htk & Hob & _). simpl.
    intros taskId r. rewrite Htk, Hob. intros Hr.
    apply lookup_insert_Some in Hr as [[_ <-]|[_ Hr]].
    + eexists. apply lookup_app_end.
    + destruct (H taskId r Hr) as [x Hx]. exists x. by apply lookup_app_l_Some.
Qed.

Lemma preserves_cancelTask taskId : preserves (cancelTask taskId).
Proof. unfold cancelTask. preserves_all. Qed.

Lemma preserves_setPushNotificationConfig taskId config :
  preserves (setPushNotificationConfig taskId config).
Proof. unfold setPushNotificationConfig. preserves_all. Qed.

Lemma preserves_getPushNotificationConfig taskId :
  preserves (getPushNotificationConfig taskId).
Proof. unfold getPushNotificationConfig. preserves_all. Qed.

Lemma preserves_addStreamingConnection taskId c :
  preserves (addStreamingConnection taskId c).
Proof. unfold addStreamingConnection. preserves_all. Qed.

Lemma preserves_removeStreamingConnection taskId c :
  preserves (removeStreamingConnection taskId c).
Proof. unfold removeStreamingConnection. preserves_all. Qed.

Lemma preserves_cleanupExpiredTasks maxAge : preserves (cleanupExpiredTasks maxAge).
Proof. unfold cleanupExpiredTasks. preserves_all. Qed.

Lemma preserves_invoke f task : preserves (invoke f task).
Proof. unfold invoke. preserves_all. Qed.

#[local] Hint Resolve preserves_invoke : preserves.

Lemma preserves_processTask_resume taskId outcome :
  preserves outcome → preserves (processTask_resume taskId outcome).
Proof. intros H. unfold processTask_resume. preserves_all. Qed.

Lemma preserves_processTask skills taskId : preserves (processTask skills taskId).
Proof.
  unfold processTask, processTask_begin. preserves_all.
  apply preserves_processTask_resume. preserves_all.
Qed.

#[local] Hint Resolve preserves_processTask : preserves.

Lemma preserves_continueTask skills taskId userMessage :
  preserves (continueTask skills taskId userMessage).
Proof. unfold continueTask. preserves_all. Qed.

(** * Further properties of the code *)

(** ** More of the engine *)

(** *** getTask *)

Lemma slice_last_length {X} n (l : list X) :
  List.length (slice_last n l) = Nat.min n (List.length l).
Proof. unfold slice_last. rewrite length_drop. lia. Qed.

Lemma slice_last_suffix {X} n (l : list X) : slice_last n l `suffix_of` l.
Proof. unfold slice_last. apply suffix_drop. Qed.

(** X1: [getTask] on a stored task returns a new object, not the one the
    task map holds.  The copy agrees with the stored task except that with
    a positive [historyLength] its history is cut down to the last
    [historyLength] entries; the stored task is the same as before, and it
    stays the same whatever is assigned to the copy. *)
Theorem getTask_returns_a_copy taskId n m t :
  stored m taskId = Some t →
  ∃ r m' copy,
    getTask taskId n m = (Ok r, m')
    ∧ objs m' !! r = Some copy
    ∧ tasks m' !! taskId ≠ Some r
    ∧ id copy = id t ∧ sessionId copy = sessionId t ∧ status copy = status t
    ∧ artifacts copy = artifacts t ∧ metadata copy = metadata t
    ∧ history copy = (if (0 <? n)%nat then slice_last n <$> history t else history t)
    ∧ (∀ h, history t = Some h → (0 < n)%nat →
         ∃ h', history copy = Some h' ∧ h' `suffix_of` h
               ∧ List.length h' = Nat.min n (List.length h))
    ∧ stored m' taskId = Some t
    ∧ (∀ f, stored (store r f m').2 taskId = Some t).
Proof.
  intros (r0 & Hr & Ht)%stored_Some.
  pose proof (lookup_lt_Some _ _ _ Ht) as Hlt.
  assert (history (truncated n t)
          = if (0 <? n)%nat then slice_last n <$> history t else history t) as Hh.
  { unfold truncated. destruct (history t) eqn:E; destruct (0 <? n)%nat; simpl;
      rewrite ?E; done. }
  eexists _, _, (truncated n t). split; [by apply (getTask_found _ _ _ r0)|].
  assert (id (truncated n t) = id t ∧ sessionId (truncated n t) = sessionId t
          ∧ status (truncated n t) = status t
          ∧ artifacts (truncated n t) = artifacts t
          ∧ metadata (truncated n t) = metadata t) as (? & ? & ? & ? & ?).
  { unfold truncated. destruct (history t); destruct (0 <? n)%nat; by split_and!. }
  split_and!; try done.
  - simpl. apply lookup_app_end.
  - simpl. rewrite Hr. intros [= E]. lia.
  - intros h Hhist Hn. exists (slice_last n h). rewrite Hh, Hhist.
    apply Nat.ltb_lt in Hn. rewrite Hn. split_and!; [done|apply slice_last_suffix|
      apply slice_last_length].
  - apply stored_Some. exists r0. split; [done|]. by apply lookup_app_l_Some.
  - intros f. apply stored_Some. exists r0. split; [done|]. simpl.
    rewrite list_lookup_alter_ne by lia. by apply lookup_app_l_Some.
Qed.

(** X1, witness. *)
Lemma getTask_returns_a_copy_witness :
  ∃ t, stored demo_late "t1" = Some t
    ∧ ∃ r m' copy,
        getTask "t1" 1 demo_late = (Ok r, m')
        ∧ objs m' !! r = Some copy
        ∧ history copy = slice_last 1 <$> history t
        ∧ stored m' "t1" = Some t.
Proof.
  eexists. split; [vm_compute; reflexivity|].
  edestruct (getTask_returns_a_copy "t1" 1 demo_late) as (r & m' & copy & H);
    [vm_compute; reflexivity|].
  exists r, m', copy. destruct H as (H1 & H2 & _ & _ & _ & _ & _ & _ & H3 & _ & H4 & _).
  by split_and!.
Defined.

(** *** Unknown ids *)

(** X2: on an id that the task map does not hold, [getTask],
    [updateTaskStatus], [addArtifacts], [cancelTask], [processTask],
    [continueTask] and the handler of tasks/resubscribe all throw the
    TASK_NOT_FOUND error and leave the manager exactly as it was; the
    handler, unlike [addStreamingConnection] called on its own, registers
    no connection. *)
Theorem unknown_task_is_not_found skills taskId m :
  tasks m !! taskId = None →
  error_code (TaskNotFound taskId) = Some ErrorCodes.TASK_NOT_FOUND
  ∧ (∀ n, getTask taskId n m = (Throw (TaskNotFound taskId), m))
  ∧ (∀ s, updateTaskStatus taskId s m = (Throw (TaskNotFound taskId), m))
  ∧ (∀ arts, addArtifacts taskId arts m = (Throw (TaskNotFound taskId), m))
  ∧ cancelTask taskId m = (Throw (TaskNotFound taskId), m)
  ∧ processTask skills taskId m = (Throw (TaskNotFound taskId), m)
  ∧ (∀ userMessage,
       continueTask skills taskId userMessage m = (Throw (TaskNotFound taskId), m))
  ∧ (∀ connection, taskId ≠ "" →
       handleTasksResubscribe (Some taskId) connection m
       = (Throw (TaskNotFound taskId), m)).
Proof.
  intros H. pose proof (getTask_missing taskId 0 m H) as Hg. split_and!.
  - done.
  - intros n. by apply getTask_missing.
  - intros s. by apply updateTaskStatus_missing.
  - intros arts. unfold addArtifacts, bind, gets. by rewrite H.
  - unfold cancelTask. by rewrite (bind_throw _ _ _ _ _ Hg).
  - unfold processTask, processTask_begin.
    by rewrite (bind_throw _ _ _ _ _ (bind_throw _ _ _ _ _ Hg)).
  - intros userMessage. unfold continueTask. by rewrite (bind_throw _ _ _ _ _ Hg).
  - intros connection Hne. unfold handleTasksResubscribe, truthy.
    destruct (String.eqb_spec taskId "") as [?|_]; [done|]. cbn [negb].
    change (default "" (Some taskId)) with taskId.
    by rewrite (bind_throw _ _ _ _ _ Hg).
Qed.

(** X2, witness: "t9" is not known. *)
Lemma unknown_task_is_not_found_witness :
  tasks demo_submitted !! "t9" = None
  ∧ cancelTask "t9" demo_submitted = (Throw (TaskNotFound "t9"), demo_submitted).
Proof.
  split; [vm_compute; reflexivity|].
  apply (unknown_task_is_not_found demo_skills "t9" demo_submitted).
  vm_compute; reflexivity.
Defined.

Lemma register_connection taskId c m (k : unit → M unit) :
  bind (if bool_decide (is_Some (streamingConnections m !! taskId))
        then ret tt else modify (with_connections (insert taskId [])))
    (λ _, bind (modify (with_connections (alter (λ l, l ++ [c]) taskId))) k) m
  = k tt (with_connections
            (λ sc, <[taskId := default [] (sc !! taskId) ++ [c]]> sc) m).
Proof.
  unfold bind, modify, ret, with_connections.
  destruct (streamingConnections m !! taskId) as [cs|] eqn:E; simpl.
  - do 3 f_equal. apply map_eq. intros i. destruct (decide (i = taskId)) as [->|].
    + by rewrite lookup_alter_eq, lookup_insert_eq, E.
    + by rewrite lookup_alter_ne, lookup_insert_ne.
  - do 3 f_equal. apply map_eq. intros i. destruct (decide (i = taskId)) as [->|].
    + by rewrite lookup_alter_eq, !lookup_insert_eq.
    + by rewrite lookup_alter_ne, !lookup_insert_ne.
Qed.

(** X3: [addStreamingConnection] registers the connection before it looks
    the task up: on an unknown id it throws TASK_NOT_FOUND, sends nothing,
    and leaves the connection in the registry under that id. *)
Theorem addStreamingConnection_unknown_registers taskId c m :
  tasks m !! taskId = None →
  ∃ m', addStreamingConnection taskId c m = (Throw (TaskNotFound taskId), m')
    ∧ streamingConnections m' !! taskId
      = Some (default [] (streamingConnections m !! taskId) ++ [c])
    ∧ sent m' = sent m ∧ closed m' = closed m
    ∧ tasks m' = tasks m ∧ objs m' = objs m.
Proof.
  intros H. unfold addStreamingConnection, bind at 1, gets.
  rewrite register_connection.
  set (m1 := with_connections _ m).
  assert (tasks m1 !! taskId = None) as H1 by exact H.
  rewrite (bind_throw _ _ _ _ _ (getTask_missing taskId 0 m1 H1)).
  eexists. split; [reflexivity|]. split_and!; try done.
  simpl. apply lookup_insert_eq.
Qed.

(** X3, witness. *)
Lemma addStreamingConnection_unknown_registers_witness :
  tasks demo_submitted !! "t9" = None
  ∧ ∃ m', addStreamingConnection "t9" 7%nat demo_submitted
          = (Throw (TaskNotFound "t9"), m')
    ∧ streamingConnections m' !! "t9" = Some [7%nat].
Proof.
  split; [vm_compute; reflexivity|].
  destruct (addStreamingConnection_unknown_registers "t9" 7%nat demo_submitted)
    as (m' & H1 & H2 & _); [vm_compute; reflexivity|].
  exists m'. split; [exact H1|]. etrans; [exact H2|]. vm_compute; reflexivity.
Defined.

(** *** createTask *)

(** X4: [createTask] with a non-empty session id appends the task id to
    the list of that session, starting the list when the session is new;
    with no session id, or an empty one, or an id already taken, the
    sessions are left as they were. *)
Theorem createTask_sessions params m :
  sessions (createTask params m).2
  = match tasks m !! p_id params, p_sessionId params with
    | None, Some sid =>
        if String.eqb sid "" then sessions m
        else <[sid := default [] (sessions m !! sid) ++ [p_id params]]> (sessions m)
    | _, _ => sessions m
    end.
Proof.
  destruct (tasks m !! p_id params) as [r|] eqn:E.
  - rewrite createTask_existing by (by rewrite E). done.
  - unfold createTask, bind, gets, alloc, modify, ret.
    rewrite bool_decide_eq_false_2 by (rewrite E; by intros [? ?]). simpl.
    destruct (p_sessionId params) as [sid|]; simpl; [|done].
    destruct (String.eqb sid ""); simpl; [done|].
    destruct (sessions m !! sid) as [l|] eqn:El; simpl.
    + apply map_eq. intros i. destruct (decide (i = sid)) as [->|].
      * by rewrite lookup_alter_eq, lookup_insert_eq, El.
      * by rewrite lookup_alter_ne, lookup_insert_ne.
    + apply map_eq. intros i. destruct (decide (i = sid)) as [->|].
      * by rewrite lookup_alter_eq, !lookup_insert_eq.
      * by rewrite lookup_alter_ne, !lookup_insert_ne.
Qed.

(** X5: [createTask] followed by [getTask], with any history limit, gives
    a task in state submitted that carries the initial message, with an
    empty artifact list and no history. *)
Theorem createTask_then_getTask params n m :
  tasks m !! p_id params = None →
  ∃ r0 m1 r m2 copy,
    createTask params m = (Ok r0, m1)
    ∧ getTask (p_id params) n m1 = (Ok r, m2)
    ∧ objs m2 !! r = Some copy
    ∧ id copy = p_id params
    ∧ state (status copy) = SUBMITTED
    ∧ message (status copy) = p_message params
    ∧ timestamp (status copy) = clock m
    ∧ artifacts copy = Some []
    ∧ history copy = None.
Proof.
  intros Hfresh.
  destruct (createTask_fresh params m Hfresh) as (m1 & Hc & Htk & Hob & _).
  assert (tasks m1 !! p_id params = Some (List.length (objs m))) as Hr
    by (by rewrite Htk, lookup_insert_eq).
  assert (objs m1 !! List.length (objs m) = Some (new_task params (clock m))) as Ht
    by (rewrite Hob; apply lookup_app_end).
  eexists _, m1, _, _, _. split; [exact Hc|].
  split; [exact (getTask_found _ n _ _ _ Hr Ht)|].
  split; [simpl; apply lookup_app_end|]. done.
Qed.

(** X5, witness. *)
Lemma createTask_then_getTask_witness :
  tasks (new_TaskManager 1000) !! p_id demo_params = None
  ∧ ∃ r0 m1 r m2 copy,
      createTask demo_params (new_TaskManager 1000) = (Ok r0, m1)
      ∧ getTask (p_id demo_params) 3 m1 = (Ok r, m2)
      ∧ objs m2 !! r = Some copy
      ∧ id copy = p_id demo_params
      ∧ state (status copy) = SUBMITTED
      ∧ message (status copy) = p_message demo_params
      ∧ timestamp (status copy) = clock (new_TaskManager 1000)
      ∧ artifacts copy = Some []
      ∧ history copy = None.
Proof.
  split; [reflexivity|].
  apply (createTask_then_getTask demo_params 3 (new_TaskManager 1000)). reflexivity.
Defined.

(** *** Push notification on a status update *)

Lemma updated_posted taskId s r t m :
  posted (updated taskId s r t m)
  = posted m ++ match pushNotificationConfigs m !! taskId with
                | Some config => [push_request taskId config s (clock m)]
                | None => []
                end.
Proof.
  unfold updated, pushed, push_request.
  destruct (pushNotificationConfigs m !! taskId);
    destruct (streamingConnections m !! taskId); simpl;
    rewrite ?notified_posted, ?notified_clock, ?app_nil_r; done.
Qed.





(** *** cancelTask and continueTask against the state *)

(** X7: a canceled task stays canceled under [cancelTask] and
    [continueTask]: after [cancelTask] has succeeded, a second [cancelTask]
    throws TASK_NOT_CANCELABLE and [continueTask] throws
    INVALID_TASK_STATE, and neither changes the stored task. *)
Theorem cancelTask_is_not_repeatable skills taskId userMessage m t :
  stored m taskId = Some t →
  is_terminal (state (status t)) = false →
  ∃ r m1 t1, cancelTask taskId m = (Ok r, m1)
    ∧ stored m1 taskId = Some t1
    ∧ state (status t1) = CANCELED
    ∧ (∃ e m2, cancelTask taskId m1 = (Throw e, m2)
         ∧ error_code e = Some ErrorCodes.TASK_NOT_CANCELABLE
         ∧ stored m2 taskId = Some t1)
    ∧ (∃ e m2, continueTask skills taskId userMessage m1 = (Throw e, m2)
         ∧ error_code e = Some ErrorCodes.INVALID_TASK_STATE
         ∧ stored m2 taskId = Some t1).
Proof.
  intros Hst Hlive.
  destruct (cancelTask_live taskId m t Hst Hlive) as (r & m1 & Hrun & Hst1 & _).
  eexists r, m1, _. split; [exact Hrun|]. split; [exact Hst1|]. split; [done|].
  split.
  - destruct (cancelTask_terminal taskId m1 _ Hst1 eq_refl) as [Hrun2 Hkept].
    eexists _, _. split; [exact Hrun2|]. by split.
  - pose proof Hst1 as (r1 & Hr1 & Ht1)%stored_Some.
    unfold continueTask.
    rewrite (bind_ok _ _ _ _ _ (getTask_found _ 0 _ _ _ Hr1 Ht1)), truncated_0.
    set (m2 := with_objs _ m1).
    assert (objs m2 !! List.length (objs m1) = Some (installed (canceledStatus (clock m)) t))
      as Hcopy by apply lookup_app_end.
    rewrite (bind_ok _ _ _ _ _ (load_ok _ _ _ Hcopy)).
    eexists _, _. split; [reflexivity|]. split; [done|].
    apply stored_Some. exists r1. split; [done|]. by apply lookup_app_l_Some.
Qed.

(** X7, witness. *)
Lemma cancelTask_is_not_repeatable_witness :
  stored demo_submitted "t1" = Some (new_task demo_params 1000)
  ∧ ∃ r m1 t1, cancelTask "t1" demo_submitted = (Ok r, m1)
      ∧ stored m1 "t1" = Some t1
      ∧ state (status t1) = CANCELED
      ∧ ∃ e m2, cancelTask "t1" m1 = (Throw e, m2)
          ∧ error_code e = Some ErrorCodes.TASK_NOT_CANCELABLE
          ∧ stored m2 "t1" = Some t1.
Proof.
  split; [vm_compute; reflexivity|].
  edestruct (cancelTask_is_not_repeatable demo_skills "t1" answer demo_submitted)
    as (r & m1 & t1 & H1 & H2 & H3 & H4 & _); [vm_compute; reflexivity|reflexivity|].
  by exists r, m1, t1.
Defined.

(** X8: on a stored task in any state but input-required, [continueTask]
    throws INVALID_TASK_STATE, naming the current state, whatever the
    message; the stored task is untouched and no capability is called. *)
Theorem continueTask_needs_input_required skills taskId userMessage m t :
  stored m taskId = Some t →
  state (status t) ≠ INPUT_REQUIRED →
  continueTask skills taskId userMessage m
  = (Throw (JsonRpcError ErrorCodes.INVALID_TASK_STATE "Task is not waiting for input"
              (Some (JObj [("taskId", JStr taskId);
                           ("currentState", JStr (state_name (state (status t))))]))),
     with_objs (λ h, h ++ [t]) m)
  ∧ stored (with_objs (λ h, h ++ [t]) m) taskId = Some t.
Proof.
  intros Hst Hstate. pose proof Hst as (r & Hr & Ht)%stored_Some. split.
  - unfold continueTask.
    rewrite (bind_ok _ _ _ _ _ (getTask_found _ 0 _ _ _ Hr Ht)), truncated_0.
    set (m0 := with_objs _ m).
    assert (objs m0 !! List.length (objs m) = Some t) as Hcopy by apply lookup_app_end.
    rewrite (bind_ok _ _ _ _ _ (load_ok _ _ _ Hcopy)).
    by destruct (state (status t)).
  - apply stored_Some. exists r. split; [done|]. by apply lookup_app_l_Some.
Qed.

(** X8, witness: "t1" is only submitted. *)
Lemma continueTask_needs_input_required_witness :
  stored demo_submitted "t1" = Some (new_task demo_params 1000)
  ∧ state (status (new_task demo_params 1000)) ≠ INPUT_REQUIRED
  ∧ fst (continueTask demo_skills "t1" answer demo_submitted)
    = Throw (JsonRpcError ErrorCodes.INVALID_TASK_STATE "Task is not waiting for input"
               (Some (JObj [("taskId", JStr "t1"); ("currentState", JStr "submitted")]))).
Proof.
  assert (stored demo_submitted "t1" = Some (new_task demo_params 1000)) as H
    by (vm_compute; reflexivity).
  split; [exact H|]. split; [done|].
  destruct (continueTask_needs_input_required demo_skills "t1" answer demo_submitted
              _ H) as [-> _]; done.
Defined.

(** *** addArtifacts and the subscribers *)

Lemma artifact_events_nil arts : artifact_events [] arts = [].
Proof. unfold artifact_events. induction arts as [|a arts IH]; [done|]. exact IH. Qed.

Lemma for_each_notify_live taskId arts m r t cs :
  tasks m !! taskId = Some r → objs m !! r = Some t →
  is_terminal (state (status t)) = false →
  streamingConnections m !! taskId = Some cs →
  ∃ copies m',
    for_each arts (λ a, notifyStreamingConnections taskId (ArtifactEvent a)) m = (Ok tt, m')
    ∧ tasks m' = tasks m ∧ objs m' = objs m ++ copies
    ∧ streamingConnections m' = streamingConnections m
    ∧ sent m' = sent m ++ artifact_events cs arts
    ∧ closed m' = closed m ∧ posted m' = posted m
    ∧ pushNotificationConfigs m' = pushNotificationConfigs m
    ∧ clock m' = clock m.
Proof.
  intros Hr Ht Hlive. revert m Hr Ht. induction arts as [|a arts IH]; intros m Hr Ht Hcs.
  - exists [], m. rewrite !app_nil_r. by split_and!.
  - simpl for_each.
    rewrite (bind_ok _ _ _ _ _ (notify_some _ (ArtifactEvent a) _ _ _ _ Hcs Hr Ht)).
    set (m1 := notified taskId (ArtifactEvent a) t cs m).
    assert (streamingConnections m1 = streamingConnections m) as Hsc1
      by (unfold m1; by rewrite notified_connections, Hlive).
    destruct (IH m1)
      as (copies & m' & Hrun & Htk & Hob & Hsc & Hse & Hcl & Hpo & Hcf & Hck).
    { unfold m1. by rewrite notified_tasks. }
    { unfold m1. rewrite notified_objs. by apply lookup_app_l_Some. }
    { by rewrite Hsc1. }
    exists (t :: copies), m'. split; [exact Hrun|].
    rewrite Htk, Hob, Hsc, Hse, Hcl, Hpo, Hcf, Hck, Hsc1. unfold m1.
    rewrite notified_tasks, notified_objs, notified_sent, notified_closed,
      notified_posted, notified_configs, notified_clock, Hlive, <- !app_assoc, app_nil_r.
    by split_and!.
Qed.

Lemma addArtifacts_live taskId arts m t :
  stored m taskId = Some t →
  is_terminal (state (status t)) = false →
  ∃ r m',
    addArtifacts taskId arts m = (Ok r, m')
    ∧ tasks m !! taskId = Some r
    ∧ tasks m' = tasks m
    ∧ objs m' !! r = Some (with_artifacts arts t)
    ∧ stored m' taskId = Some (with_artifacts arts t)
    ∧ sent m' = sent m
                ++ artifact_events (default [] (streamingConnections m !! taskId)) arts
    ∧ streamingConnections m' = streamingConnections m
    ∧ closed m' = closed m ∧ posted m' = posted m
    ∧ pushNotificationConfigs m' = pushNotificationConfigs m
    ∧ clock m' = clock m
    ∧ (∀ r', r' ≠ r → is_Some (objs m !! r') → objs m' !! r' = objs m !! r').
Proof.
  intros (r & Hr & Ht)%stored_Some Hlive.
  pose proof (lookup_lt_Some _ _ _ Ht) as Hlt.
  destruct (streamingConnections m !! taskId) as [cs|] eqn:Hcs.
  - unfold addArtifacts, bind at 1, gets. rewrite Hr.
    unfold bind at 1. unfold store at 1, modify.
    set (m1 := with_objs _ m).
    assert (objs m1 = <[r := with_artifacts arts t]> (objs m)) as Hob1.
    { unfold m1. simpl. by rewrite (alter_known _ _ _ _ Ht). }
    assert (tasks m1 !! taskId = Some r) as Hr1 by exact Hr.
    assert (objs m1 !! r = Some (with_artifacts arts t)) as Ht1.
    { rewrite Hob1. by apply list_lookup_insert_eq. }
    assert (streamingConnections m1 !! taskId = Some cs) as Hcs1 by exact Hcs.
    destruct (for_each_notify_live taskId arts m1 r _ cs Hr1 Ht1 Hlive Hcs1)
      as (copies & m' & Hrun & Htk & Hob & Hsc & Hse & Hcl & Hpo & Hcf & Hck).
    rewrite (bind_ok _ _ _ _ _ Hrun).
    assert (objs m' !! r = Some (with_artifacts arts t)) as Ht'.
    { rewrite Hob. by apply lookup_app_l_Some. }
    eexists r, m'. split; [reflexivity|].
    split_and!; try done.
    + apply stored_Some. exists r. by rewrite Htk.
    + intros r' Hne [x Hx]. rewrite Hob, Hob1.
      rewrite lookup_app_l by (rewrite length_insert; by eapply lookup_lt_Some).
      by apply list_lookup_insert_ne.
  - rewrite (addArtifacts_detached taskId arts m Hcs), Hr.
    assert (objs (with_objs (alter (λ t0, set_artifacts
                     (Some (default [] (artifacts t0) ++ arts)) t0) r) m) !! r
            = Some (with_artifacts arts t)) as Ht'.
    { simpl. rewrite (alter_known _ _ _ _ Ht). by apply list_lookup_insert_eq. }
    eexists r, _. split; [reflexivity|].
    simpl. rewrite artifact_events_nil, app_nil_r. split_and!; try done.
    + apply stored_Some. by exists r.
    + intros r' Hne _. by apply list_lookup_alter_ne.
Qed.

(** X9: [addArtifacts] on a task that is not in a terminal state appends
    the artifacts to the stored list in the order given, leaves the status
    and the history alone, and sends every subscriber one artifact event per
    artifact, artifact by artifact, each with final=false; the subscribers
    stay attached, nothing is closed and nothing is pushed. *)
Theorem addArtifacts_streams_in_order taskId arts m t :
  stored m taskId = Some t →
  is_terminal (state (status t)) = false →
  ∃ r m' t',
    addArtifacts taskId arts m = (Ok r, m')
    ∧ stored m' taskId = Some t'
    ∧ artifacts t' = Some (default [] (artifacts t) ++ arts)
    ∧ status t' = status t ∧ history t' = history t
    ∧ sent m' = sent m
                ++ artifact_events (default [] (streamingConnections m !! taskId)) arts
    ∧ streamingConnections m' = streamingConnections m
    ∧ closed m' = closed m ∧ posted m' = posted m.
Proof.
  intros Hst Hlive.
  destruct (addArtifacts_live taskId arts m t Hst Hlive)
    as (r & m' & Hrun & _ & _ & _ & Hst' & Hse & Hsc & Hcl & Hpo & _).
  exists r, m', (with_artifacts arts t). by split_and!.
Qed.

(** X9, witness: two artifacts for the two subscribers of "t1". *)
Lemma addArtifacts_streams_in_order_witness :
  ∃ t, stored demo_subscribed "t1" = Some t
    ∧ is_terminal (state (status t)) = false
    ∧ ∃ r m' t',
        addArtifacts "t1" [summary; summary] demo_subscribed = (Ok r, m')
        ∧ stored m' "t1" = Some t'
        ∧ artifacts t' = Some [summary; summary]
        ∧ sent m' = sent demo_subscribed
                    ++ [event_to (ArtifactEvent summary) false 7%nat;
                        event_to (ArtifactEvent summary) false 8%nat;
                        event_to (ArtifactEvent summary) false 7%nat;
                        event_to (ArtifactEvent summary) false 8%nat].
Proof.
  eexists. split; [vm_compute; reflexivity|]. split; [reflexivity|].
  edestruct (addArtifacts_streams_in_order "t1" [summary; summary] demo_subscribed)
    as (r & m' & t' & H1 & H2 & H3 & _ & _ & H4 & _);
    [vm_compute; reflexivity|reflexivity|].
  exists r, m', t'. split; [exact H1|]. split; [exact H2|]. split; [exact H3|].
  etrans; [exact H4|]. f_equal.
Defined.

(** X10: on a task in a terminal state that has subscribers, [addArtifacts]
    with a non-empty list stores all the artifacts but streams only the
    first: that event is tagged final=true, after it every subscriber is
    closed and the registry entry is removed, so the other artifacts are
    sent to no one. *)
Theorem addArtifacts_after_terminal taskId a arts m t cs :
  stored m taskId = Some t →
  is_terminal (state (status t)) = true →
  streamingConnections m !! taskId = Some cs →
  ∃ r m' t',
    addArtifacts taskId (a :: arts) m = (Ok r, m')
    ∧ stored m' taskId = Some t'
    ∧ artifacts t' = Some (default [] (artifacts t) ++ a :: arts)
    ∧ sent m' = sent m ++ map (event_to (ArtifactEvent a) true) cs
    ∧ closed m' = closed m ++ cs
    ∧ streamingConnections m' !! taskId = None.
Proof.
  intros (r & Hr & Ht)%stored_Some Hterm Hcs.
  pose proof (lookup_lt_Some _ _ _ Ht) as Hlt.
  unfold addArtifacts, bind at 1, gets. rewrite Hr.
  unfold bind at 1. unfold store at 1, modify.
  set (m1 := with_objs _ m).
  assert (objs m1 = <[r := with_artifacts (a :: arts) t]> (objs m)) as Hob1.
  { unfold m1. simpl. by rewrite (alter_known _ _ _ _ Ht). }
  assert (tasks m1 !! taskId = Some r) as Hr1 by exact Hr.
  assert (objs m1 !! r = Some (with_artifacts (a :: arts) t)) as Ht1.
  { rewrite Hob1. by apply list_lookup_insert_eq. }
  assert (streamingConnections m1 !! taskId = Some cs) as Hcs1 by exact Hcs.
  set (m2 := notified taskId (ArtifactEvent a) (with_artifacts (a :: arts) t) cs m1).
  assert (streamingConnections m2 !! taskId = None) as Hnone.
  { unfold m2. rewrite notified_connections. simpl. rewrite Hterm.
    apply lookup_delete_eq. }
  assert (for_each (a :: arts)
            (λ artifact, notifyStreamingConnections taskId (ArtifactEvent artifact)) m1
          = (Ok tt, m2)) as Hloop.
  { simpl for_each.
    rewrite (bind_ok _ _ _ _ _ (notify_some _ (ArtifactEvent a) _ _ _ _ Hcs1 Hr1 Ht1)).
    by apply for_each_notify_none. }
  rewrite (bind_ok _ _ _ _ _ Hloop).
  eexists r, m2, (with_artifacts (a :: arts) t). split; [reflexivity|].
  unfold m2. rewrite notified_sent, notified_closed. simpl. rewrite Hterm.
  split_and!; try done.
  apply stored_Some. exists r. fold m2. unfold m2.
  rewrite notified_tasks, notified_objs. split; [done|]. by apply lookup_app_l_Some.
Qed.

(** X10, witness: a subscriber attached to the canceled "t1". *)
Lemma addArtifacts_after_terminal_witness :
  let m := (addStreamingConnection "t1" 9%nat demo_canceled).2 in
  ∃ t, stored m "t1" = Some t
    ∧ is_terminal (state (status t)) = true
    ∧ streamingConnections m !! "t1" = Some [9%nat]
    ∧ ∃ r m' t',
        addArtifacts "t1" [summary; summary] m = (Ok r, m')
        ∧ stored m' "t1" = Some t'
        ∧ artifacts t' = Some (default [] (artifacts t) ++ [summary; summary])
        ∧ sent m' = sent m ++ map (event_to (ArtifactEvent summary) true) [9%nat]
        ∧ closed m' = closed m ++ [9%nat]
        ∧ streamingConnections m' !! "t1" = None.
Proof.
  intros m. eexists. split; [vm_compute; reflexivity|]. split; [reflexivity|].
  split; [vm_compute; reflexivity|].
  eapply (addArtifacts_after_terminal "t1" summary [summary] m);
    [vm_compute; reflexivity|reflexivity|vm_compute; reflexivity].
Defined.

(** *** removeStreamingConnection *)

Lemma remove_first_app_fresh c l : c ∉ l → remove_first c (l ++ [c]) = l.
Proof.
  induction l as [|y l IH]; intros Hc; simpl.
  - by rewrite Nat.eqb_refl.
  - destruct (Nat.eqb c y) eqn:E.
    + apply Nat.eqb_eq in E as ->. exfalso. apply Hc. by left.
    + f_equal. apply IH. intros ?. apply Hc. by right.
Qed.

(** X11: detaching undoes attaching.  For a stored task and a connection
    that is not yet registered under it, [addStreamingConnection] followed
    by [removeStreamingConnection] gives back the registry as it was (an
    entry that would be left empty is dropped); the events of the replay
    stay sent and nothing is closed. *)
Theorem attach_then_detach taskId c m t :
  stored m taskId = Some t →
  c ∉ default [] (streamingConnections m !! taskId) →
  streamingConnections m !! taskId ≠ Some [] →
  ∃ m1 m2,
    addStreamingConnection taskId c m = (Ok tt, m1)
    ∧ removeStreamingConnection taskId c m1 = (Ok tt, m2)
    ∧ streamingConnections m2 = streamingConnections m
    ∧ sent m2 = sent m ++ replay c t
    ∧ closed m2 = closed m
    ∧ stored m2 taskId = Some t.
Proof.
  intros Hst Hc Hne. pose proof Hst as (r & Hr & Ht)%stored_Some.
  destruct (addStreamingConnection_replay taskId c m t Hst)
    as (m1 & Hrun & Hsent & Hcl & Hsc & Htk & Hob).
  exists m1. unfold removeStreamingConnection, bind at 1, gets.
  rewrite Hsc, lookup_insert_eq.
  rewrite (remove_first_app_fresh _ _ Hc).
  destruct (streamingConnections m !! taskId) as [cs|] eqn:Hcs; simpl.
  - destruct cs as [|x cs]; [done|].
    eexists. split; [exact Hrun|]. split; [reflexivity|]. simpl.
    rewrite Hsc, Hsent, Hcl. split_and!; try done.
    + rewrite insert_insert_eq. by apply insert_id.
    + unfold stored. simpl. rewrite Htk, Hr. simpl. rewrite Hob.
      by apply lookup_app_l_Some.
  - eexists. split; [exact Hrun|]. split; [reflexivity|]. simpl.
    rewrite Hsc, Hsent, Hcl. split_and!; try done.
    + rewrite insert_insert_eq, delete_insert_eq. by apply delete_id.
    + unfold stored. simpl. rewrite Htk, Hr. simpl. rewrite Hob.
      by apply lookup_app_l_Some.
Qed.

(** X11, witness: a third subscriber comes and goes. *)
Lemma attach_then_detach_witness :
  ∃ t, stored demo_subscribed "t1" = Some t
    ∧ (9%nat ∉ default [] (streamingConnections demo_subscribed !! "t1"))
    ∧ streamingConnections demo_subscribed !! "t1" ≠ Some []
    ∧ ∃ m1 m2,
        addStreamingConnection "t1" 9%nat demo_subscribed = (Ok tt, m1)
        ∧ removeStreamingConnection "t1" 9%nat m1 = (Ok tt, m2)
        ∧ streamingConnections m2 = streamingConnections demo_subscribed
        ∧ sent m2 = sent demo_subscribed ++ replay 9%nat t
        ∧ closed m2 = closed demo_subscribed
        ∧ stored m2 "t1" = Some t.
Proof.
  assert (streamingConnections demo_subscribed !! "t1" = Some [7%nat; 8%nat]) as E
    by (vm_compute; reflexivity).
  assert (9%nat ∉ default [] (streamingConnections demo_subscribed !! "t1")) as Hc.
  { rewrite E. simpl. intros [?|[?|?%elem_of_nil]%elem_of_cons]%elem_of_cons; done. }
  assert (streamingConnections demo_subscribed !! "t1" ≠ Some []) as Hne.
  { intros H. pose proof (eq_trans (eq_sym E) H) as H'. done. }
  eexists. split; [vm_compute; reflexivity|]. split; [exact Hc|]. split; [exact Hne|].
  eapply (attach_then_detach "t1" 9%nat demo_subscribed);
    [vm_compute; reflexivity|exact Hc|exact Hne].
Defined.

(** *** determineSkill *)

Lemma keyword_skill_names text s : keyword_skill text = Some s → s ∈ skill_names.
Proof.
  unfold keyword_skill, skill_names.
  repeat match goal with
         | |- context [if ?b then _ else _] => destruct b
         end; intros [= <-]; set_solver.
Qed.

Lemma scan_parts_names ps : scan_parts ps ∈ skill_names.
Proof.
  induction ps as [|p ps IH]; simpl.
  - unfold skill_names. set_solver.
  - destruct p as [text md| |]; try exact IH.
    destruct (keyword_skill (toLowerCase text)) as [s|] eqn:E; [|exact IH].
    by apply (keyword_skill_names _ _ E).
Qed.

Lemma scan_parts_first pre text md post s :
  forallb passed_over pre = true →
  keyword_skill (toLowerCase text) = Some s →
  scan_parts (pre ++ TextPart text md :: post) = s.
Proof.
  intros Hpre Hs. induction pre as [|p pre IH]; simpl.
  - by rewrite Hs.
  - simpl in Hpre. apply andb_true_iff in Hpre as [Hp Hpre].
    destruct p as [text' md'| |]; simpl in Hp; try (by apply IH).
    apply bool_decide_eq_true in Hp. rewrite Hp. by apply IH.
Qed.

Lemma scan_parts_default ps :
  forallb passed_over ps = true → scan_parts ps = "text-analysis".
Proof.
  induction ps as [|p ps IH]; simpl; [done|].
  intros [Hp Hps]%andb_true_iff.
  destruct p as [text md| |]; simpl in Hp; try (by apply IH).
  apply bool_decide_eq_true in Hp. rewrite Hp. by apply IH.
Qed.

(** X12: an explicit, non-empty [metadata.skill] is what [determineSkill]
    returns, whatever the message says.  Without it, the result is null
    exactly when the status has no message, and otherwise it is one of the
    four keys of the skill registry. *)
Theorem determineSkill_routes t :
  (∀ s, metadata t ≫= md_skill = Some s → s ≠ "" → determineSkill t = Some s)
  ∧ (truthy (metadata t ≫= md_skill) = false →
     (determineSkill t = None ↔ message (status t) = None)
     ∧ (∀ s, determineSkill t = Some s → s ∈ skill_names)).
Proof.
  unfold determineSkill. split.
  - intros s Hs Hne. rewrite Hs. simpl.
    destruct (String.eqb s "") eqn:E; [by apply String.eqb_eq in E|done].
  - intros ->. destruct (message (status t)) as [msg|]; split; try done.
    + intros s [= <-]. apply scan_parts_names.
Qed.

(** X13: without an explicit skill, the first text part that has a keyword
    decides: the parts before it, which are not text or have no keyword, do
    not count, nor do the parts after it.  A message in which no text part
    has a keyword goes to text-analysis. *)
Theorem determineSkill_first_keyword t msg :
  truthy (metadata t ≫= md_skill) = false →
  message (status t) = Some msg →
  (∀ pre text md post s,
     parts msg = pre ++ TextPart text md :: post →
     forallb passed_over pre = true →
     keyword_skill (toLowerCase text) = Some s →
     determineSkill t = Some s)
  ∧ (forallb passed_over (parts msg) = true → determineSkill t = Some "text-analysis").
Proof.
  intros Hmd Hmsg. unfold determineSkill. rewrite Hmd, Hmsg. split.
  - intros pre text md post s -> Hpre Hs. f_equal. by apply scan_parts_first.
  - intros H. f_equal. by apply scan_parts_default.
Qed.

(** X13, witness: a data part and a text without keyword come before the
    text that asks for a conversion; the later mention of a picture is not
    looked at. *)
Lemma determineSkill_first_keyword_witness :
  let msg := createMessage user
               [DataPart (JObj [("provider", JStr "mock")]) None;
                createTextPart "Hello there";
                createTextPart "Please CONVERT this table";
                createTextPart "and describe the picture"] in
  let t := new_task {| p_id := "t1"; p_sessionId := None; p_message := Some msg |} 0 in
  truthy (metadata t ≫= md_skill) = false
  ∧ message (status t) = Some msg
  ∧ determineSkill t = Some "data-transformation".
Proof.
  intros msg t. split; [reflexivity|]. split; [reflexivity|].
  eapply (proj1 (determineSkill_first_keyword t msg eq_refl eq_refl)
            [DataPart (JObj [("provider", JStr "mock")]) None; createTextPart "Hello there"]
            "Please CONVERT this table" None
            [createTextPart "and describe the picture"]);
    [reflexivity|vm_compute; reflexivity|vm_compute; reflexivity].
Defined.

Lemma prefix_toLowerCase n h :
  String.prefix n h = true → String.prefix (toLowerCase n) (toLowerCase h) = true.
Proof.
  revert n. induction h as [|b h IH]; intros [|a n]; simpl; try done.
  destruct (ascii_dec a b) as [->|]; [|done].
  intros H. destruct (ascii_dec (lower_ascii b) (lower_ascii b)); [by apply IH|done].
Qed.

Lemma includes_cons n b h :
  includes n (String b h) = if String.prefix n (String b h) then true else includes n h.
Proof. done. Qed.

Lemma includes_toLowerCase n h :
  includes n h = true → includes (toLowerCase n) (toLowerCase h) = true.
Proof.
  induction h as [|b h IH]; [by destruct n|].
  change (toLowerCase (String b h)) with (String (lower_ascii b) (toLowerCase h)).
  rewrite !includes_cons.
  destruct (String.prefix n (String b h)) eqn:E.
  - intros _. pose proof (prefix_toLowerCase _ _ E) as E'.
    change (toLowerCase (String b h)) with (String (lower_ascii b) (toLowerCase h)) in E'.
    by rewrite E'.
  - intros H. rewrite (IH H).
    by destruct (String.prefix (toLowerCase n) (String (lower_ascii b) (toLowerCase h))).
Qed.

(** X14: keywords are matched without regard to case, and the analysis
    keywords come first: a text that contains "analyze" or "sentiment" in
    any capitalization is routed to text-analysis, whatever other keywords
    it contains. *)
Theorem keyword_skill_ignores_case word text :
  toLowerCase word = "analyze" ∨ toLowerCase word = "sentiment" →
  includes word text = true →
  keyword_skill (toLowerCase text) = Some "text-analysis"
  ∧ ∀ t md post,
      truthy (metadata t ≫= md_skill) = false →
      message (status t) = Some (createMessage user (TextPart text md :: post)) →
      determineSkill t = Some "text-analysis".
Proof.
  intros Hword Hin. apply includes_toLowerCase in Hin.
  assert (keyword_skill (toLowerCase text) = Some "text-analysis") as Hk.
  { unfold keyword_skill. destruct Hword as [E|E]; rewrite E in Hin; rewrite Hin.
    - done.
    - by rewrite orb_true_r. }
  split; [exact Hk|].
  intros t md post Hmd Hmsg. unfold determineSkill. rewrite Hmd, Hmsg. simpl.
  by rewrite Hk.
Qed.

(** X14, witness. *)
Lemma keyword_skill_ignores_case_witness :
  toLowerCase "SentiMent" = "sentiment"
  ∧ includes "SentiMent" "Convert the SentiMent image batch" = true
  ∧ keyword_skill (toLowerCase "Convert the SentiMent image batch") = Some "text-analysis".
Proof.
  split; [reflexivity|]. split; [reflexivity|].
  apply (keyword_skill_ignores_case "SentiMent" "Convert the SentiMent image batch");
    [by right|reflexivity].
Defined.

(** *** processTask, step by step *)

Lemma updated_posted_pushes taskId s r t m :
  posted (updated taskId s r t m) = posted m ++ pushes taskId m [s].
Proof.
  rewrite updated_posted. unfold pushes.
  by destruct (pushNotificationConfigs m !! taskId).
Qed.

Lemma updated_sent_events taskId s r t m :
  sent (updated taskId s r t m)
  = sent m ++ status_events (default [] (streamingConnections m !! taskId)) s
                (is_terminal (state s)).
Proof. apply updated_sent. Qed.

Lemma with_result_artifacts_artifacts result t :
  artifacts (with_result_artifacts result t)
  = match result_artifacts result with
    | [] => artifacts t
    | arts => Some (default [] (artifacts t) ++ arts)
    end.
Proof.
  unfold with_result_artifacts, result_artifacts.
  by destruct (r_artifacts result) as [[|a l]|].
Qed.

Lemma with_result_artifacts_history result t :
  history (with_result_artifacts result t) = history t.
Proof. unfold with_result_artifacts. by destruct (r_artifacts result) as [[|? ?]|]. Qed.

(** The last step of [processTask] on a task that is not in a terminal
    state, when the capability returned. *)
Lemma processTask_resume_returned taskId (outcome : M SkillResult) m m1 result t :
  outcome m = (Ok result, m1) →
  stored m1 taskId = Some t →
  is_terminal (state (status t)) = false →
  let cs := default [] (streamingConnections m1 !! taskId) in
  let done := completedStatus result (clock m1) in
  ∃ r rc m',
    processTask_resume taskId outcome m = (Ok rc, m')
    ∧ tasks m1 !! taskId = Some r
    ∧ tasks m' !! taskId = Some r
    ∧ objs m' !! r = Some (installed done (with_result_artifacts result t))
    ∧ objs m' !! rc = Some (installed done (with_result_artifacts result t))
    ∧ sent m' = sent m1 ++ artifact_events cs (result_artifacts result)
                ++ status_events cs done true
    ∧ closed m' = closed m1 ++ cs
    ∧ streamingConnections m' !! taskId = None
    ∧ posted m' = posted m1 ++ pushes taskId m1 [done]
    ∧ (∀ r', r' ≠ r → is_Some (objs m1 !! r') → objs m' !! r' = objs m1 !! r').
Proof.
  intros Hout Hst Hlive cs done. pose proof Hst as (r & Hr & Ht)%stored_Some.
  assert (∃ m2, (∀ k : unit → M nat,
    bind (match r_artifacts result with
          | Some (a :: l) => bind (addArtifacts taskId (a :: l)) (λ _, ret tt)
          | _ => ret tt
          end) k m1 = k tt m2)
    ∧ tasks m2 = tasks m1
    ∧ objs m2 !! r = Some (with_result_artifacts result t)
    ∧ clock m2 = clock m1
    ∧ sent m2 = sent m1 ++ artifact_events cs (result_artifacts result)
    ∧ closed m2 = closed m1 ∧ posted m2 = posted m1
    ∧ streamingConnections m2 = streamingConnections m1
    ∧ pushNotificationConfigs m2 = pushNotificationConfigs m1
    ∧ (∀ r', r' ≠ r → is_Some (objs m1 !! r') → objs m2 !! r' = objs m1 !! r'))
    as (m2 & Hk & Htk2 & Ht2 & Hck2 & Hse2 & Hcl2 & Hpo2 & Hsc2 & Hcf2 & Hfr2).
  { unfold with_result_artifacts, result_artifacts.
    destruct (r_artifacts result) as [[|a l]|]; simpl;
      try (exists m1; rewrite app_nil_r; by split_and!).
    destruct (addArtifacts_live taskId (a :: l) m1 t Hst Hlive)
      as (r' & m2 & Hrun & Hr' & Htk & Hob & _ & Hse & Hsc & Hcl & Hpo & Hcf & Hck & Hfr).
    assert (r' = r) as -> by congruence.
    exists m2. split_and!; try done.
    intros k. by rewrite (bind_ok _ _ _ _ _ (bind_ok _ _ _ _ _ Hrun)). }
  assert (tasks m2 !! taskId = Some r) as Hr2 by (by rewrite Htk2).
  set (m3 := updated taskId done r (with_result_artifacts result t) m2).
  assert (tasks m3 !! taskId = Some r) as Hr3 by (unfold m3; by rewrite updated_tasks).
  assert (objs m3 !! r = Some (installed done (with_result_artifacts result t))) as Ht3.
  { unfold m3. rewrite updated_lookup by eauto. by rewrite decide_True. }
  pose proof (getTask_found _ 0 _ _ _ Hr3 Ht3) as Hg. rewrite truncated_0 in Hg.
  exists r. eexists _, _. split.
  { unfold processTask_resume, try_catch.
    rewrite (bind_ok _ _ _ _ _ Hout), Hk.
    unfold bind at 1, gets. rewrite Hck2. fold (completedStatus result (clock m1)).
    rewrite (bind_ok _ _ _ _ _ (updateTaskStatus_found _ _ _ _ _ Hr2 Ht2)).
    fold done. fold m3. rewrite Hg. reflexivity. }
  simpl. unfold m3.
  rewrite updated_sent_events, updated_closed, updated_connections,
    updated_posted_pushes, Hse2, Hcl2, Hpo2, Hsc2.
  assert (pushes taskId m2 [done] = pushes taskId m1 [done]) as ->
    by (unfold pushes; by rewrite Hcf2, Hck2).
  fold m3. fold cs. split_and!; try done.
  - by apply lookup_app_l_Some.
  - apply lookup_app_end.
  - by rewrite <- app_assoc.
  - apply lookup_delete_eq.
  - intros r' Hne Hsome. rewrite <- (Hfr2 r' Hne Hsome).
    assert (is_Some (objs m2 !! r')) as Hsome2 by (by rewrite Hfr2).
    assert (objs m3 !! r' = objs m2 !! r') as E.
    { unfold m3. rewrite updated_lookup by eauto. by rewrite decide_False. }
    rewrite <- E. apply lookup_app_l. apply lookup_lt_is_Some. by rewrite E.
Qed.

(** The last step of [processTask] when the capability threw. *)
Lemma processTask_resume_thrown taskId (outcome : M SkillResult) m m1 error r t :
  outcome m = (Throw error, m1) →
  tasks m1 !! taskId = Some r → objs m1 !! r = Some t →
  processTask_resume taskId outcome m
  = (Throw error, updated taskId (failedStatus error (clock m1)) r t m1).
Proof.
  intros Hout Hr Ht. unfold processTask_resume, try_catch.
  rewrite (bind_throw _ _ _ _ _ Hout).
  unfold bind at 1, gets. fold (failedStatus error (clock m1)).
  by rewrite (bind_ok _ _ _ _ _ (updateTaskStatus_found _ _ _ _ _ Hr Ht)).
Qed.

Section Paths.
Variable skills : gmap string Skill.

(** The manager when [processTask] has called the capability, and the
    object the capability was given. *)
Lemma processTask_began taskId m r t skill :
  tasks m !! taskId = Some r → objs m !! r = Some t →
  lookup_skill skills (determineSkill t) = Some skill →
  let cs := default [] (streamingConnections m !! taskId) in
  let working := workingStatus (clock m) in
  ∃ m1,
    processTask_begin skills taskId m = (Ok (List.length (objs m), skill), m1)
    ∧ tasks m1 = tasks m
    ∧ objs m1 !! r = Some (installed working t)
    ∧ objs m1 !! List.length (objs m) = Some t
    ∧ r ≠ List.length (objs m)
    ∧ clock m1 = clock m
    ∧ pushNotificationConfigs m1 = pushNotificationConfigs m
    ∧ streamingConnections m1 = streamingConnections m
    ∧ sent m1 = sent m ++ status_events cs working false
    ∧ closed m1 = closed m
    ∧ posted m1 = posted m ++ pushes taskId m [working].
Proof.
  intros Hr Ht Hsk cs working.
  set (c := List.length (objs m)).
  set (m0 := with_objs (λ h, h ++ [t]) m).
  assert (r ≠ c) as Hrc by (apply lookup_lt_Some in Ht; unfold c; lia).
  assert (objs m0 !! r = Some t) as Ht0 by (by apply lookup_app_l_Some).
  assert (objs m0 !! c = Some t) as Hc0 by apply lookup_app_end.
  exists (updated taskId working r t m0). split.
  { by apply processTask_begin_found. }
  rewrite updated_tasks, updated_clock, updated_configs, updated_connections,
    updated_sent_events, updated_closed, updated_posted_pushes.
  rewrite !updated_lookup by eauto. rewrite decide_True, decide_False by done.
  simpl. rewrite app_nil_r. by split_and!.
Qed.

(** X15: the guard of [processTask] on the resolved skill.  When there
    is no skill id, or the id is neither a key of the registry nor a name
    that the registry inherits as an object, [processTask] throws
    "Unknown skill: ..." before it touches the task: the status is not set
    to working, nothing is sent to the subscribers and nothing is pushed.
    An inherited name such as toString that is no key of the registry
    passes the guard: the task is set to working, the call of [process]
    on what was found throws a TypeError, and the task ends failed with
    that error. *)
Theorem processTask_unknown_skill taskId m t :
  stored m taskId = Some t →
  (determineSkill t = None
   ∨ (∃ s, determineSkill t = Some s ∧ skills !! s = None ∧ (s ∉ inherited_names)) →
   processTask skills taskId m
   = (Throw (JsError (String.append "Unknown skill: "
                        (default "null" (determineSkill t)))),
      with_objs (λ h, h ++ [t]) m)
   ∧ stored (with_objs (λ h, h ++ [t]) m) taskId = Some t)
  ∧ (∀ s, determineSkill t = Some s → skills !! s = None → s ∈ inherited_names →
     let error := JsError "skill.process is not a function" in
     ∃ m' t',
       processTask skills taskId m = (Throw error, m')
       ∧ stored m' taskId = Some t'
       ∧ status t' = failedStatus error (clock m)
       ∧ state (status t') = FAILED
       ∧ message (status t')
         = Some (createMessage agent
                   [createTextPart "Error: skill.process is not a function"])).
Proof.
  intros Hst. pose proof Hst as (r & Hr & Ht)%stored_Some. split.
  - intros Hnone.
    assert (lookup_skill skills (determineSkill t) = None) as Hsk.
    { apply lookup_skill_None. destruct Hnone as [?|(s & ? & ? & ?)]; [by left|].
      right; right. by exists s. }
    split.
    + assert (processTask_begin skills taskId m
              = (Throw (JsError (String.append "Unknown skill: "
                                   (default "null" (determineSkill t)))),
                 with_objs (λ h, h ++ [t]) m)) as Hbegin.
      { unfold processTask_begin.
        rewrite (bind_ok _ _ _ _ _ (getTask_found _ 0 _ _ _ Hr Ht)), truncated_0.
        set (m0 := with_objs _ m).
        assert (objs m0 !! List.length (objs m) = Some t) as Hcopy by apply lookup_app_end.
        rewrite (bind_ok _ _ _ _ _ (load_ok _ _ _ Hcopy)). by rewrite Hsk. }
      unfold processTask. by rewrite (bind_throw _ _ _ _ _ Hbegin).
    + apply stored_Some. exists r. split; [done|]. by apply lookup_app_l_Some.
  - intros s Hs Hown Hin error.
    assert (s ≠ "") as Hne.
    { intros ->. unfold inherited_names in Hin.
      repeat (apply elem_of_cons in Hin as [Hin|Hin]; [discriminate Hin|]).
      by apply elem_of_nil in Hin. }
    assert (lookup_skill skills (determineSkill t) = Some inherited_member) as Hsk.
    { rewrite Hs. unfold lookup_skill, member. simpl. rewrite Hown.
      destruct (String.eqb_spec s "") as [?|_]; [done|].
      by rewrite bool_decide_eq_true_2. }
    destruct (processTask_began taskId m r t inherited_member Hr Ht Hsk)
      as (m1 & Hbegin & Htk1 & Ht1 & Hc1 & Hrc & Hck1 & _).
    set (c := List.length (objs m)) in *.
    set (m2 := with_objs (alter (λ _, fst (process inherited_member t)) c) m1).
    assert (invoke (process inherited_member) c m1 = (Throw error, m2)) as Hinv
      by (by rewrite (invoke_found _ _ _ _ Hc1)).
    assert (tasks m2 !! taskId = Some r) as Hr2 by (unfold m2; simpl; by rewrite Htk1).
    assert (objs m2 !! r = Some (installed (workingStatus (clock m)) t)) as Ht2.
    { unfold m2. simpl. by rewrite list_lookup_alter_ne. }
    pose proof (processTask_resume_thrown taskId _ m1 m2 error r _ Hinv Hr2 Ht2) as Hrun.
    assert (clock m2 = clock m) as Hck2 by (unfold m2; simpl; by rewrite Hck1).
    rewrite Hck2 in Hrun. clearbody m2.
    eexists _, (installed (failedStatus error (clock m))
                  (installed (workingStatus (clock m)) t)). split.
    { unfold processTask. rewrite (bind_ok _ _ _ _ _ Hbegin). exact Hrun. }
    split; [apply updated_stored; eauto|]. by split_and!.
Qed.

(** X16: when the capability throws, [processTask] rethrows the same value
    and leaves the stored task in state failed with the agent message
    "Error: " followed by the message of what was thrown; the subscribers
    are sent the working status and then the failed status tagged
    final=true, and are closed and removed; a registered webhook gets both
    statuses. *)
Theorem processTask_failure taskId m t skill error :
  stored m taskId = Some t →
  lookup_skill skills (determineSkill t) = Some skill →
  snd (process skill t) = Throw error →
  let cs := default [] (streamingConnections m !! taskId) in
  let working := workingStatus (clock m) in
  let failed := failedStatus error (clock m) in
  ∃ m' t',
    processTask skills taskId m = (Throw error, m')
    ∧ stored m' taskId = Some t'
    ∧ status t' = failed
    ∧ state (status t') = FAILED
    ∧ message (status t')
      = Some (createMessage agent
                [createTextPart (String.append "Error: " (error_message error))])
    ∧ artifacts t' = artifacts t
    ∧ default [] (history t')
      = default [] (history t) ++ from_option (λ x, [x]) [] (message (status t))
    ∧ sent m' = sent m ++ status_events cs working false ++ status_events cs failed true
    ∧ closed m' = closed m ++ cs
    ∧ streamingConnections m' !! taskId = None
    ∧ posted m' = posted m ++ pushes taskId m [working; failed].
Proof.
  intros (r & Hr & Ht)%stored_Some Hsk Hres cs working failed.
  destruct (processTask_began taskId m r t skill Hr Ht Hsk)
    as (m1 & Hbegin & Htk1 & Ht1 & Hc1 & Hrc & Hck1 & Hcf1 & Hsc1 & Hse1 & Hcl1 & Hpo1).
  set (c := List.length (objs m)) in *.
  set (m2 := with_objs (alter (λ _, fst (process skill t)) c) m1).
  assert (invoke (process skill) c m1 = (Throw error, m2)) as Hinv
    by (by rewrite (invoke_found _ _ _ _ Hc1), Hres).
  assert (tasks m2 !! taskId = Some r) as Hr2 by (unfold m2; simpl; by rewrite Htk1).
  assert (objs m2 !! r = Some (installed (workingStatus (clock m)) t)) as Ht2.
  { unfold m2. simpl. by rewrite list_lookup_alter_ne. }
  pose proof (processTask_resume_thrown taskId _ m1 m2 error r _ Hinv Hr2 Ht2) as Hrun.
  assert (clock m2 = clock m) as Hck2 by (unfold m2; simpl; by rewrite Hck1).
  assert (streamingConnections m2 = streamingConnections m) as Hsc2 by exact Hsc1.
  assert (sent m2 = sent m ++ status_events cs working false) as Hse2 by exact Hse1.
  assert (closed m2 = closed m) as Hcl2 by exact Hcl1.
  assert (posted m2 = posted m ++ pushes taskId m [working]) as Hpo2 by exact Hpo1.
  assert (pushes taskId m2 [failed] = pushes taskId m [failed]) as Hpu.
  { unfold pushes, m2. simpl. by rewrite Hcf1, Hck1. }
  rewrite Hck2 in Hrun. fold failed in Hrun. fold working in Ht2.
  clearbody m2.
  eexists _, (installed failed (installed working t)). split.
  { unfold processTask. rewrite (bind_ok _ _ _ _ _ Hbegin). exact Hrun. }
  rewrite updated_sent_events, updated_closed, updated_connections, updated_posted_pushes.
  rewrite Hsc2, Hse2, Hcl2, Hpo2, Hpu, <- !app_assoc. fold cs.
  split_and!; try done.
  - apply updated_stored; eauto.
  - by rewrite !installed_artifacts.
  - rewrite !installed_history. simpl. by rewrite app_nil_r.
  - apply lookup_delete_eq.
  - f_equal. unfold pushes. by destruct (pushNotificationConfigs m !! taskId).
Qed.

(** What [processTask] does when the capability returns. *)
Lemma processTask_success_path taskId m t skill result :
  stored m taskId = Some t →
  lookup_skill skills (determineSkill t) = Some skill →
  snd (process skill t) = Ok result →
  let cs := default [] (streamingConnections m !! taskId) in
  let working := workingStatus (clock m) in
  let done := completedStatus result (clock m) in
  ∃ rc m' t',
    processTask skills taskId m = (Ok rc, m')
    ∧ stored m' taskId = Some t'
    ∧ objs m' !! rc = Some t'
    ∧ status t' = done
    ∧ artifacts t' = match result_artifacts result with
                     | [] => artifacts t
                     | arts => Some (default [] (artifacts t) ++ arts)
                     end
    ∧ default [] (history t')
      = default [] (history t) ++ from_option (λ x, [x]) [] (message (status t))
    ∧ sent m' = sent m ++ status_events cs working false
                ++ artifact_events cs (result_artifacts result)
                ++ status_events cs done true
    ∧ closed m' = closed m ++ cs
    ∧ streamingConnections m' !! taskId = None
    ∧ posted m' = posted m ++ pushes taskId m [working; done].
Proof.
  intros (r & Hr & Ht)%stored_Some Hsk Hres cs working done.
  destruct (processTask_began taskId m r t skill Hr Ht Hsk)
    as (m1 & Hbegin & Htk1 & Ht1 & Hc1 & Hrc & Hck1 & Hcf1 & Hsc1 & Hse1 & Hcl1 & Hpo1).
  set (c := List.length (objs m)) in *.
  set (m2 := with_objs (alter (λ _, fst (process skill t)) c) m1).
  assert (invoke (process skill) c m1 = (Ok result, m2)) as Hinv
    by (by rewrite (invoke_found _ _ _ _ Hc1), Hres).
  assert (stored m2 taskId = Some (installed working t)) as Hst2.
  { apply stored_Some. exists r. unfold m2. simpl. rewrite Htk1. split; [done|].
    by rewrite list_lookup_alter_ne. }
  destruct (processTask_resume_returned taskId _ m1 m2 result _ Hinv Hst2 eq_refl)
    as (r' & rc & m' & Hrun & Hr2 & Hr' & Ht' & Hrc' & Hse & Hcl & Hsc & Hpo & _).
  assert (r' = r) as ->.
  { unfold m2 in Hr2. simpl in Hr2. rewrite Htk1 in Hr2. congruence. }
  eexists rc, m', (installed (completedStatus result (clock m2))
                      (with_result_artifacts result (installed working t))). split.
  { unfold processTask. rewrite (bind_ok _ _ _ _ _ Hbegin). exact Hrun. }
  assert (clock m2 = clock m) as Hck2 by (unfold m2; simpl; by rewrite Hck1).
  rewrite Hck2 in *. fold done in Ht', Hrc', Hse, Hpo |- *.
  assert (streamingConnections m2 = streamingConnections m) as Hsc2 by exact Hsc1.
  rewrite Hsc2 in Hse, Hcl. fold cs in Hse, Hcl.
  assert (pushes taskId m2 [done] = pushes taskId m [done]) as Hpu.
  { unfold pushes, m2. simpl. by rewrite Hcf1, Hck1. }
  rewrite Hpu in Hpo.
  assert (sent m2 = sent m1) as Hse2 by done.
  assert (closed m2 = closed m1) as Hcl2 by done.
  assert (posted m2 = posted m1) as Hpo2 by done.
  rewrite Hse2, Hse1 in Hse. rewrite Hcl2, Hcl1 in Hcl. rewrite Hpo2, Hpo1 in Hpo.
  split_and!; try done.
  - apply stored_Some. eauto.
  - by rewrite installed_artifacts, with_result_artifacts_artifacts, installed_artifacts.
  - rewrite installed_history, with_result_artifacts_history, with_result_artifacts_status.
    rewrite installed_history. simpl. by rewrite !app_nil_r.
  - by rewrite Hse, <- !app_assoc.
  - rewrite Hpo, <- app_assoc. f_equal. unfold pushes.
    by destruct (pushNotificationConfigs m !! taskId).
Qed.

(** X17: when the capability returns, the subscribers of the task are sent,
    in this order, the working status, one artifact event per returned
    artifact and subscriber, all with final=false, and then the completed
    status tagged final=true; they are then closed and removed.  The stored
    task is completed with the returned message, holds the returned
    artifacts after the ones it had, and its history has gained the message
    of the status it was processed from; a registered webhook gets the
    working and the completed status. *)
Theorem processTask_success_stream taskId m t skill result :
  stored m taskId = Some t →
  lookup_skill skills (determineSkill t) = Some skill →
  snd (process skill t) = Ok result →
  let cs := default [] (streamingConnections m !! taskId) in
  let working := workingStatus (clock m) in
  let done := completedStatus result (clock m) in
  ∃ rc m' t',
    processTask skills taskId m = (Ok rc, m')
    ∧ stored m' taskId = Some t'
    ∧ objs m' !! rc = Some t'
    ∧ status t' = done
    ∧ artifacts t' = match result_artifacts result with
                     | [] => artifacts t
                     | arts => Some (default [] (artifacts t) ++ arts)
                     end
    ∧ default [] (history t')
      = default [] (history t) ++ from_option (λ x, [x]) [] (message (status t))
    ∧ sent m' = sent m ++ status_events cs working false
                ++ artifact_events cs (result_artifacts result)
                ++ status_events cs done true
    ∧ closed m' = closed m ++ cs
    ∧ streamingConnections m' !! taskId = None
    ∧ posted m' = posted m ++ pushes taskId m [working; done].
Proof. apply processTask_success_path. Qed.

End Paths.

(** X15, witness: the registry has no image-processing, and a task that
    asks about a photo is refused; a task whose metadata names the skill
    toString is set to working and fails. *)
Lemma processTask_unknown_skill_witness :
  let photo := createMessage user [createTextPart "describe this photo"] in
  let m := (createTask {| p_id := "t3"; p_sessionId := None; p_message := Some photo |}
              (new_TaskManager 1000)).2 in
  let t := new_task {| p_id := "t3"; p_sessionId := None; p_message := Some photo |} 1000 in
  let t' := Types.createTask "t4" (createTaskStatus SUBMITTED (Some analyze_request) 1000)
              None (Some []) None
              (Some {| md_skill := Some "toString"; md_orchestration := None |}) in
  let m' := with_tasks (insert "t4" 0%nat) (with_objs (λ _, [t']) (new_TaskManager 1000)) in
  (stored m "t3" = Some t
   ∧ determineSkill t = Some "image-processing"
   ∧ demo_skills !! "image-processing" = None
   ∧ ("image-processing" ∉ inherited_names)
   ∧ fst (processTask demo_skills "t3" m)
     = Throw (JsError "Unknown skill: image-processing"))
  ∧ (stored m' "t4" = Some t'
     ∧ determineSkill t' = Some "toString"
     ∧ demo_skills !! "toString" = None
     ∧ "toString" ∈ inherited_names
     ∧ ∃ m2 t2,
         processTask demo_skills "t4" m'
         = (Throw (JsError "skill.process is not a function"), m2)
         ∧ stored m2 "t4" = Some t2
         ∧ state (status t2) = FAILED).
Proof.
  intros photo m t t' m'.
  assert (stored m "t3" = Some t) as H by (vm_compute; reflexivity).
  assert (stored m' "t4" = Some t') as H' by (vm_compute; reflexivity).
  assert ("image-processing" ∉ inherited_names) as Hout
    by (apply (bool_decide_unpack _); vm_compute; reflexivity).
  assert ("toString" ∈ inherited_names) as Hin
    by (apply (bool_decide_unpack _); vm_compute; reflexivity).
  split.
  - split; [exact H|]. split; [reflexivity|]. split; [reflexivity|].
    split; [exact Hout|].
    destruct (proj1 (processTask_unknown_skill demo_skills "t3" m t H)) as [-> _];
      [|reflexivity].
    right. exists "image-processing". by split_and!.
  - split; [exact H'|]. split; [reflexivity|]. split; [reflexivity|].
    split; [exact Hin|].
    destruct (proj2 (processTask_unknown_skill demo_skills "t4" m' t' H')
                "toString" eq_refl eq_refl Hin)
      as (m2 & t2 & H1 & H2 & _ & H3 & _).
    exists m2, t2. by split_and!.
Defined.

(** X16, witness: a capability that throws, and the two subscribers of
    "t1". *)
Lemma processTask_failure_witness :
  let failing : Capability := λ task, (task, Throw (JsError "No text provided for analysis")) in
  let skill := {| process := failing; continueOrchestration := None |} in
  let skills : gmap string Skill := {[ "text-analysis" := skill ]} in
  let t := new_task demo_params 1000 in
  stored demo_subscribed "t1" = Some t
  ∧ lookup_skill skills (determineSkill t) = Some skill
  ∧ snd (process skill t) = Throw (JsError "No text provided for analysis")
  ∧ ∃ m' t',
      processTask skills "t1" demo_subscribed
      = (Throw (JsError "No text provided for analysis"), m')
      ∧ stored m' "t1" = Some t'
      ∧ state (status t') = FAILED
      ∧ message (status t')
        = Some (createMessage agent
                  [createTextPart "Error: No text provided for analysis"])
      ∧ closed m' = closed demo_subscribed ++ [7%nat; 8%nat].
Proof.
  intros failing skill skills t.
  split; [vm_compute; reflexivity|]. split; [vm_compute; reflexivity|].
  split; [reflexivity|].
  edestruct (processTask_failure skills "t1" demo_subscribed t skill
               (JsError "No text provided for analysis"))
    as (m' & t' & H1 & H2 & H3 & H4 & H5 & _ & _ & _ & H6 & _);
    [vm_compute; reflexivity|vm_compute; reflexivity|reflexivity|].
  exists m', t'. split; [exact H1|]. split; [exact H2|]. split; [exact H4|].
  split; [exact H5|]. etrans; [exact H6|]. f_equal.
Defined.

(** X17, witness: the two subscribers of "t1" and the echoing capability. *)
Lemma processTask_success_stream_witness :
  let t := new_task demo_params 1000 in
  let skill := {| process := echo; continueOrchestration := None |} in
  let result := {| r_message := Some analyze_request; r_artifacts := Some [summary] |} in
  let working := workingStatus 1000 in
  let done := completedStatus result 1000 in
  stored demo_subscribed "t1" = Some t
  ∧ lookup_skill demo_skills (determineSkill t) = Some skill
  ∧ snd (process skill t) = Ok result
  ∧ ∃ rc m' t',
      processTask demo_skills "t1" demo_subscribed = (Ok rc, m')
      ∧ stored m' "t1" = Some t'
      ∧ status t' = done
      ∧ artifacts t' = Some [summary]
      ∧ sent m' = sent demo_subscribed
                  ++ [event_to (StatusEvent working) false 7%nat;
                      event_to (StatusEvent working) false 8%nat;
                      event_to (ArtifactEvent summary) false 7%nat;
                      event_to (ArtifactEvent summary) false 8%nat;
                      event_to (StatusEvent done) true 7%nat;
                      event_to (StatusEvent done) true 8%nat]
      ∧ closed m' = closed demo_subscribed ++ [7%nat; 8%nat]
      ∧ streamingConnections m' !! "t1" = None.
Proof.
  intros t skill result working done.
  split; [vm_compute; reflexivity|]. split; [vm_compute; reflexivity|].
  split; [reflexivity|].
  edestruct (processTask_success_stream demo_skills "t1" demo_subscribed t skill result)
    as (rc & m' & t' & H1 & H2 & _ & H3 & H4 & _ & H5 & H6 & H7 & _);
    [vm_compute; reflexivity|vm_compute; reflexivity|reflexivity|].
  exists rc, m', t'. split; [exact H1|]. split; [exact H2|]. split; [exact H3|].
  split; [exact H4|]. split; [etrans; [exact H5|]; f_equal|].
  split; [etrans; [exact H6|]; f_equal|exact H7].
Defined.

(** *** continueTask with a capability that continues *)

Section Continue.
Variable skills : gmap string Skill.

(** X18: when the resolved capability has a [continueOrchestration],
    [continueTask] gives it a copy of the task whose history ends with the
    user message, appends the artifacts of the result to the stored task,
    and, when the result has a message, installs a status with that
    message whose state is input-required if the object the capability
    holds is still input-required, and completed otherwise.  A result
    without a message leaves the stored status as it was.  The user message
    does not enter the stored history. *)
Theorem continueTask_continues taskId userMessage m t skill continue result :
  stored m taskId = Some t →
  state (status t) = INPUT_REQUIRED →
  lookup_skill skills (determineSkill t) = Some skill →
  continueOrchestration skill = Some continue →
  snd (continue (continuation_input userMessage t)) = Ok result →
  let held := fst (continue (continuation_input userMessage t)) in
  ∃ rc m' t',
    continueTask skills taskId userMessage m = (Ok rc, m')
    ∧ stored m' taskId = Some t'
    ∧ objs m' !! rc = Some t'
    ∧ artifacts t' = match r_artifacts result with
                     | Some arts => Some (default [] (artifacts t) ++ arts)
                     | None => artifacts t
                     end
    ∧ status t' = match r_message result with
                  | Some msg => continuedStatus held msg (clock m)
                  | None => status t
                  end
    ∧ default [] (history t')
      = default [] (history t)
        ++ match r_message result with
           | Some _ => from_option (λ x, [x]) [] (message (status t))
           | None => []
           end.
Proof.
  intros (r & Hr & Ht)%stored_Some Hstate Hsk Hcont Hres held.
  set (c := List.length (objs m)).
  set (t1 := continuation_input userMessage t) in *.
  assert (r ≠ c) as Hrc by (apply lookup_lt_Some in Ht; unfold c; lia).
  assert (is_terminal (state (status t)) = false) as Hlive by (by rewrite Hstate).
  (* up to the call of the capability *)
  set (m2 := with_objs (λ h, <[c := held]> (h ++ [t])) m).
  assert (∀ k : SkillResult → M nat,
    continueTask skills taskId userMessage m
    = bind (λ m, (Ok result, m)) (λ result,
        bind (match r_artifacts result with
              | Some arts => bind (addArtifacts taskId arts) (λ _, ret tt)
              | None => ret tt
              end) (λ _,
        bind (match r_message result with
              | Some msg =>
                  bind (load c) (λ t,
                  bind (gets clock) (λ now,
                  bind (updateTaskStatus taskId
                          (createTaskStatus
                             (if is_input_required (state (status t))
                              then INPUT_REQUIRED else COMPLETED) (Some msg) now))
                    (λ _, ret tt)))
              | None => ret tt
              end) (λ _, getTask taskId 0))) m2) as Hprefix.
  { intros _. unfold continueTask.
    rewrite (bind_ok _ _ _ _ _ (getTask_found _ 0 _ _ _ Hr Ht)), truncated_0.
    set (m0 := with_objs (λ h, h ++ [t]) m).
    assert (objs m0 !! c = Some t) as Hc0 by apply lookup_app_end.
    rewrite (bind_ok _ _ _ _ _ (load_ok _ _ _ Hc0)). rewrite Hstate.
    change (negb (is_input_required INPUT_REQUIRED)) with false. cbv iota.
    unfold bind at 1. unfold store at 1, modify. cbv beta.
    set (m1 := with_objs _ m0).
    assert (objs m1 = objs m ++ [t1]) as Hob1.
    { unfold m1, m0. simpl. by rewrite alter_app_end. }
    assert (objs m1 !! c = Some t1) as Hc1 by (rewrite Hob1; apply lookup_app_end).
    rewrite (bind_ok _ _ _ _ _ (load_ok _ _ _ Hc1)).
    assert (determineSkill t1 = determineSkill t) as -> by done.
    rewrite (lookup_skill_member _ _ _ Hsk), Hcont.
    unfold bind at 1. rewrite (invoke_found _ _ _ _ Hc1), Hres.
    unfold bind at 3. f_equal.
    unfold m2, m1, m0, with_objs. simpl. f_equal.
    rewrite !alter_app_end. unfold c. clear.
    induction (objs m) as [|x l IH]; simpl; [done|]. f_equal. exact IH. }
  rewrite (Hprefix (λ _, ret 0%nat)). clear Hprefix.
  assert (tasks m2 = tasks m) as Htk2 by done.
  assert (clock m2 = clock m) as Hck2 by done.
  assert (objs m2 !! c = Some held) as Hc2.
  { unfold m2. simpl. apply list_lookup_insert_eq. rewrite length_app. simpl. unfold c. lia. }
  assert (objs m2 !! r = Some t) as Ht2.
  { unfold m2. simpl. rewrite list_lookup_insert_ne by done. by apply lookup_app_l_Some. }
  assert (stored m2 taskId = Some t) as Hst2.
  { apply stored_Some. exists r. by rewrite Htk2. }
  clearbody m2.
  unfold bind at 1.
  (* the artifacts *)
  assert (∃ m3 t3, (∀ k : unit → M nat,
    bind (match r_artifacts result with
          | Some arts => bind (addArtifacts taskId arts) (λ _, ret tt)
          | None => ret tt
          end) k m2 = k tt m3)
    ∧ tasks m3 = tasks m ∧ clock m3 = clock m
    ∧ objs m3 !! r = Some t3 ∧ objs m3 !! c = Some held
    ∧ status t3 = status t ∧ history t3 = history t
    ∧ artifacts t3 = match r_artifacts result with
                     | Some arts => Some (default [] (artifacts t) ++ arts)
                     | None => artifacts t
                     end)
    as (m3 & t3 & Hk3 & Htk3 & Hck3 & Ht3 & Hc3 & Hs3 & Hh3 & Ha3).
  { destruct (r_artifacts result) as [arts|].
    - destruct (addArtifacts_live taskId arts m2 t Hst2 Hlive)
        as (r' & m3 & Hrun & Hr' & Htk & Hob & _ & _ & _ & _ & _ & _ & Hck & Hfr).
      assert (r' = r) as -> by (rewrite Htk2 in Hr'; congruence).
      exists m3, (with_artifacts arts t). split_and!; try done.
      + intros k. by rewrite (bind_ok _ _ _ _ _ (bind_ok _ _ _ _ _ Hrun)).
      + by rewrite Htk.
      + by rewrite Hck.
      + rewrite Hfr; eauto.
    - exists m2, t. by split_and!. }
  rewrite Hk3. clear Hk3.
  assert (tasks m3 !! taskId = Some r) as Hr3 by (by rewrite Htk3).
  (* the status *)
  assert (∃ m4 t4, (∀ k : unit → M nat,
    bind (match r_message result with
          | Some msg =>
              bind (load c) (λ t,
              bind (gets clock) (λ now,
              bind (updateTaskStatus taskId
                      (createTaskStatus
                         (if is_input_required (state (status t))
                          then INPUT_REQUIRED else COMPLETED) (Some msg) now))
                (λ _, ret tt)))
          | None => ret tt
          end) k m3 = k tt m4)
    ∧ tasks m4 !! taskId = Some r ∧ objs m4 !! r = Some t4
    ∧ artifacts t4 = artifacts t3
    ∧ status t4 = match r_message result with
                  | Some msg => continuedStatus held msg (clock m)
                  | None => status t
                  end
    ∧ default [] (history t4)
      = default [] (history t)
        ++ match r_message result with
           | Some _ => from_option (λ x, [x]) [] (message (status t))
           | None => []
           end)
    as (m4 & t4 & Hk4 & Hr4 & Ht4 & Ha4 & Hs4 & Hh4).
  { destruct (r_message result) as [msg|].
    - exists (updated taskId (continuedStatus held msg (clock m)) r t3 m3),
        (installed (continuedStatus held msg (clock m)) t3).
      split_and!.
      + intros k.
        assert (bind (load c) (λ t,
                  bind (gets clock) (λ now,
                  bind (updateTaskStatus taskId
                          (createTaskStatus
                             (if is_input_required (state (status t))
                              then INPUT_REQUIRED else COMPLETED) (Some msg) now))
                    (λ _, ret tt))) m3
                = (Ok tt, updated taskId (continuedStatus held msg (clock m)) r t3 m3))
          as Hinner.
        { rewrite (bind_ok _ _ _ _ _ (load_ok _ _ _ Hc3)).
          unfold bind at 1, gets. rewrite Hck3.
          fold (continuedStatus held msg (clock m)).
          by rewrite (bind_ok _ _ _ _ _ (updateTaskStatus_found _ _ _ _ _ Hr3 Ht3)). }
        by rewrite (bind_ok _ _ _ _ _ Hinner).
      + by rewrite updated_tasks.
      + rewrite updated_lookup by eauto. by rewrite decide_True.
      + apply installed_artifacts.
      + done.
      + by rewrite installed_history, Hh3, Hs3.
    - exists m3, t3. split_and!; try done. by rewrite app_nil_r, Hh3. }
  rewrite Hk4.
  pose proof (getTask_found _ 0 _ _ _ Hr4 Ht4) as Hg. rewrite truncated_0 in Hg.
  rewrite Hg. exists (List.length (objs m4)), (with_objs (λ h, h ++ [t4]) m4), t4.
  split; [reflexivity|]. split_and!; try done.
  - apply stored_Some. exists r. split; [done|]. by apply lookup_app_l_Some.
  - simpl. apply lookup_app_end.
  - by rewrite Ha4, Ha3.
Qed.

End Continue.

(** X18, witness: the orchestration skill of the registry, whose
    capability leaves an input-required status in its object. *)
Lemma continueTask_continues_witness :
  let m := (updateTaskStatus "t1"
              (createTaskStatus INPUT_REQUIRED
                 (Some (createMessage agent [createTextPart "batch step 1 done, go on?"]))
                 1001) demo_submitted).2 in
  ∃ t skill,
    stored m "t1" = Some t
    ∧ state (status t) = INPUT_REQUIRED
    ∧ lookup_skill demo_skills (determineSkill t) = Some skill
    ∧ continueOrchestration skill = Some echo
    ∧ ∃ rc m' t',
        continueTask demo_skills "t1" answer m = (Ok rc, m')
        ∧ stored m' "t1" = Some t'
        ∧ state (status t') = INPUT_REQUIRED
        ∧ artifacts t' = Some [summary]
        ∧ (answer ∉ default [] (history t')).
Proof.
  intros m. eexists _, _. split; [vm_compute; reflexivity|]. split; [reflexivity|].
  split; [vm_compute; reflexivity|]. split; [reflexivity|].
  edestruct (continueTask_continues demo_skills "t1" answer m)
    as (rc & m' & t' & H1 & H2 & _ & H3 & H4 & H5);
    [vm_compute; reflexivity|reflexivity|vm_compute; reflexivity|reflexivity|reflexivity|].
  exists rc, m', t'. split; [exact H1|]. split; [exact H2|].
  split; [by rewrite H4|]. split; [exact H3|].
  rewrite H5. simpl. intros H.
  apply elem_of_cons in H as [H|H]; [done|].
  apply elem_of_cons in H as [H|H]; [done|]. by apply elem_of_nil in H.
Defined.

(** ** Every stored task carries its id *)

Lemma grows_refl m : grows m m.
Proof. by split. Qed.

Lemma grows_trans m1 m2 m3 : grows m1 m2 → grows m2 m3 → grows m1 m3.
Proof. intros [H1 H2] [H3 H4]. split; [lia|]. intros r Hr. by apply H4, H2. Qed.

Lemma grows_Forall m m' R : grows m m' → Forall (unheld m) R → Forall (unheld m') R.
Proof. intros [_ H] HR. eapply Forall_impl; [exact HR|exact H]. Qed.

Lemma keyed_valid m taskId r : keyed m → tasks m !! taskId = Some r →
  (r < List.length (objs m))%nat.
Proof. intros H Hr. destruct (H _ _ Hr) as (t & Ht & _). by eapply lookup_lt_Some. Qed.

Section Safe.
Context {A B : Type}.
Implicit Types (R : list nat).

Lemma safe_post_pure R (res : Result A) (Q : A → list nat) :
  (∀ a, res = Ok a → Q a ⊆ R) → safe_post R (λ m, (res, m)) Q.
Proof.
  intros HQ m Hk HR. simpl. split_and!; [done|apply grows_refl|].
  intros a Ha. apply Forall_forall. intros r Hr.
  rewrite Forall_forall in HR. apply HR. by apply (HQ a Ha).
Qed.

Lemma safe_post_ret R (a : A) (Q : A → list nat) : Q a ⊆ R → safe_post R (ret a) Q.
Proof. intros H. apply safe_post_pure. by intros ? [= <-]. Qed.

Lemma safe_post_throw R e (Q : A → list nat) : safe_post R (@throw A e) Q.
Proof. apply safe_post_pure. by intros. Qed.

Lemma safe_gets R (f : TaskManager → A) : safe R (gets f).
Proof. intros m Hk HR. simpl. by split_and!; [|apply grows_refl|]. Qed.

Lemma safe_post_bind R (c : M A) (k : A → M B) (Q : A → list nat) (Q' : B → list nat) :
  safe_post R c Q → (∀ a, safe_post (Q a ++ R) (k a) Q') → safe_post R (bind c k) Q'.
Proof.
  intros Hc Hk m Hm HR. unfold bind.
  destruct (Hc m Hm HR) as (Hm' & Hg & HQ).
  destruct (c m) as [[a|e] m'] eqn:E; simpl in *.
  - destruct (Hk a m' Hm') as (Hm'' & Hg' & HQ').
    { apply Forall_app. split; [by apply HQ|]. by apply (grows_Forall m). }
    split_and!; [done|by apply (grows_trans _ m')|done].
  - split_and!; [done|done|]. by intros.
Qed.

Lemma safe_post_try_catch R (c : M A) (h : Thrown → M A) (Q : A → list nat) :
  safe_post R c Q → (∀ e, safe_post R (h e) Q) → safe_post R (try_catch c h) Q.
Proof.
  intros Hc Hh m Hm HR. unfold try_catch.
  destruct (Hc m Hm HR) as (Hm' & Hg & HQ).
  destruct (c m) as [[a|e] m'] eqn:E; simpl in *.
  - split_and!; [done|done|]. intros a' [= <-]. by apply HQ.
  - destruct (Hh e m' Hm') as (Hm'' & Hg' & HQ').
    { by apply (grows_Forall m). }
    split_and!; [done|by apply (grows_trans _ m')|done].
Qed.
End Safe.

Lemma safe_bind {A B} R (c : M A) (k : A → M B) (Q' : B → list nat) :
  safe R c → (∀ a, safe_post R (k a) Q') → safe_post R (bind c k) Q'.
Proof. intros Hc Hk. apply (safe_post_bind R c k (λ _, []) Q'); [exact Hc|exact Hk]. Qed.

Lemma safe_post_weaken {A} R (c : M A) (Q : A → list nat) : safe_post R c Q → safe R c.
Proof.
  intros H m Hm HR. destruct (H m Hm HR) as (? & ? & _). by split_and!.
Qed.

Lemma safe_for_each {X} R (xs : list X) (body : X → M unit) :
  (∀ x, safe R (body x)) → safe R (for_each xs body).
Proof.
  intros Hb. unfold safe. induction xs as [|x xs IH]; simpl.
  - apply safe_post_ret. apply list_subseteq_nil.
  - apply safe_bind; [apply Hb|]. intros _. exact IH.
Qed.

Lemma safe_fire_and_forget R (c : M unit) : safe R c → safe R (fire_and_forget c).
Proof.
  intros Hc m Hm HR. unfold fire_and_forget. simpl.
  destruct (Hc m Hm HR) as (? & ? & _). by split_and!.
Qed.

Lemma safe_modify R (f : TaskManager → TaskManager) :
  (∀ m, tasks (f m) = tasks m) → (∀ m, objs (f m) = objs m) → safe R (modify f).
Proof.
  intros Ht Ho m Hm HR. unfold modify. simpl. split_and!; [| |done].
  - intros taskId r. rewrite Ht, Ho. apply Hm.
  - split; [by rewrite Ho|]. intros r [? ?]. split; [by rewrite Ho|]. by rewrite Ht.
Qed.

Lemma safe_delete R taskId : safe R (modify (with_tasks (delete taskId))).
Proof.
  intros m Hm HR. unfold modify. simpl. split_and!; [| |done].
  - intros i r Hr. simpl in Hr. apply lookup_delete_Some in Hr as [_ Hr]. by apply Hm.
  - split; [done|]. intros r [? Hr]. split; [done|]. simpl.
    intros i Hi. apply lookup_delete_Some in Hi as [_ Hi]. by apply (Hr i).
Qed.

Lemma safe_load R r : safe R (load r).
Proof.
  intros m Hm HR. unfold load.
  destruct (objs m !! r); simpl; by split_and!; [|apply grows_refl|].
Qed.

Lemma safe_post_alloc R t : safe_post R (alloc t) (λ r, [r]).
Proof.
  intros m Hm HR. unfold alloc.
  assert (List.length (objs (with_objs (λ h, h ++ [t]) m)) = S (List.length (objs m)))
    as Hlen by (simpl; rewrite length_app; simpl; lia).
  split_and!.
  - intros taskId r Hr. destruct (Hm _ _ Hr) as (x & Hx & Hid).
    exists x. split; [by apply lookup_app_l_Some|done].
  - split; [simpl snd; lia|]. intros r [? ?]. split; [simpl snd; lia|done].
  - intros a [= <-]. constructor; [|constructor]. split.
    + simpl snd. lia.
    + simpl. intros taskId Hr. apply (keyed_valid _ _ _ Hm) in Hr. lia.
Qed.

Lemma objs_with_objs g m : objs (with_objs g m) = g (objs m).
Proof. done. Qed.

Lemma tasks_with_objs g m : tasks (with_objs g m) = tasks m.
Proof. done. Qed.

Lemma grows_alter f r m : grows m (with_objs (λ h, alter f r h) m).
Proof.
  split; [by rewrite objs_with_objs, length_alter|].
  intros r' [? ?]. split; [by rewrite objs_with_objs, length_alter|done].
Qed.

Lemma safe_store_id R r f : (∀ t, id (f t) = id t) → safe R (store r f).
Proof.
  intros Hf m Hm HR. unfold store, modify. cbn [fst snd].
  split_and!; [|apply grows_alter|done].
  intros taskId r' Hr. rewrite tasks_with_objs in Hr. rewrite objs_with_objs.
  destruct (Hm _ _ Hr) as (x & Hx & Hid).
  destruct (decide (r' = r)) as [->|Hne].
  - exists (f x). rewrite list_lookup_alter_eq, Hx. simpl. by rewrite Hf.
  - exists x. by rewrite list_lookup_alter_ne.
Qed.

Lemma safe_store_unheld R r f : r ∈ R → safe R (store r f).
Proof.
  intros Hr m Hm HR. unfold store, modify. cbn [fst snd].
  rewrite Forall_forall in HR. destruct (HR r Hr) as [_ Hun].
  split_and!; [|apply grows_alter|done].
  intros taskId r' Hr'. rewrite tasks_with_objs in Hr'. rewrite objs_with_objs.
  destruct (Hm _ _ Hr') as (x & Hx & Hid).
  exists x. split; [|done]. rewrite list_lookup_alter_ne; [done|].
  intros ->. by apply (Hun taskId).
Qed.

Create HintDb safe.

Ltac safe_member :=
  cbv beta; simpl;
  lazymatch goal with
  | |- _ ∈ _ =>
      solve [repeat first [assumption | apply list_elem_of_here | apply list_elem_of_further]]
  | |- [] ⊆ _ => apply list_subseteq_nil
  | |- [_] ⊆ _ =>
      let x := fresh in let Hx := fresh in
      intros x Hx; apply list_elem_of_singleton in Hx; subst x;
      solve [repeat first [apply list_elem_of_here | apply list_elem_of_further]]
  end.

Ltac safe_step :=
  lazymatch goal with
  | |- safe _ _ => unfold safe
  | |- safe_post _ (let _ := _ in _) _ => cbv zeta
  | |- safe_post _ (bind (alloc _) _) _ =>
      eapply safe_post_bind; [apply safe_post_alloc|intros ?]
  | |- safe_post _ (bind (getTask _ _) _) _ =>
      eapply safe_post_bind; [solve [auto with safe]|intros ?]
  | |- safe_post _ (bind (processTask_begin _ _) _) _ =>
      eapply safe_post_bind; [solve [auto with safe]|intros ?]
  | |- safe_post _ (bind _ _) _ => apply safe_bind; [|intros ?]
  | |- safe_post _ (try_catch _ _) _ => apply safe_post_try_catch; [|intros ?]
  | |- safe_post _ (for_each _ _) _ => apply safe_for_each; intros ?
  | |- safe_post _ (fire_and_forget _) _ => apply safe_fire_and_forget
  | |- safe_post _ (ret _) _ => apply safe_post_ret; safe_member
  | |- safe_post _ (throw _) _ => apply safe_post_throw
  | |- safe_post _ (gets _) _ => apply safe_gets
  | |- safe_post _ (load _) _ => apply safe_load
  | |- safe_post _ (alloc _) _ => apply (safe_post_weaken _ _ _ (safe_post_alloc _ _))
  | |- safe_post _ (store _ _) _ =>
      first [ apply safe_store_id; intros ?; reflexivity
            | apply safe_store_unheld; safe_member ]
  | |- safe_post _ (modify (with_tasks (delete _))) _ => apply safe_delete
  | |- safe_post _ (modify _) _ => apply safe_modify; intros ?; reflexivity
  | |- safe_post _ (match ?x with _ => _ end) _ => destruct x
  | |- safe_post _ (λ m, (_, m)) _ => apply safe_post_pure; intros; safe_member
  | |- safe_post ?R ?c _ =>
      first [ solve [auto with safe] | solve [change (safe R c); auto with safe] ]
  end.

Ltac safe_all := repeat safe_step.

Lemma safe_post_getTask R taskId n : safe_post R (getTask taskId n) (λ r, [r]).
Proof. unfold getTask. safe_all. Qed.

Lemma safe_getTask R taskId n : safe R (getTask taskId n).
Proof. apply (safe_post_weaken _ _ _ (safe_post_getTask R taskId n)). Qed.

#[local] Hint Resolve safe_post_getTask safe_getTask : safe.

Lemma safe_sendEvent R c d f : safe R (sendEvent c d f).
Proof. unfold sendEvent. safe_all. Qed.

Lemma safe_close R c : safe R (close c).
Proof. unfold close. safe_all. Qed.

#[local] Hint Resolve safe_sendEvent safe_close : safe.

Lemma safe_sendPushNotification R taskId : safe R (sendPushNotification taskId).
Proof. unfold sendPushNotification. safe_all. Qed.

Lemma safe_notifyStreamingConnections R taskId d :
  safe R (notifyStreamingConnections taskId d).
Proof. unfold notifyStreamingConnections. safe_all. Qed.

#[local] Hint Resolve safe_sendPushNotification safe_notifyStreamingConnections : safe.

Lemma safe_updateTaskStatus R taskId s : safe R (updateTaskStatus taskId s).
Proof. unfold updateTaskStatus. safe_all. Qed.

Lemma safe_addArtifacts R taskId arts : safe R (addArtifacts taskId arts).
Proof. unfold addArtifacts. safe_all. Qed.

#[local] Hint Resolve safe_updateTaskStatus safe_addArtifacts : safe.

Lemma safe_createTask R params : safe R (createTask params).
Proof.
  intros m Hm HR. destruct (tasks m !! p_id params) as [r|] eqn:E.
  - rewrite createTask_existing by (by rewrite E). simpl.
    by split_and!; [|apply grows_refl|].
  - destruct (createTask_fresh params m E) as (m' & -> & Htk & Hob & _).
    cbn [fst snd]. split_and!; [| |done].
    + intros taskId r. rewrite Htk, Hob. intros Hr.
      apply lookup_insert_Some in Hr as [[<- <-]|[_ Hr]].
      * eexists. split; [apply lookup_app_end|done].
      * destruct (Hm taskId r Hr) as (x & Hx & Hid). exists x.
        split; [by apply lookup_app_l_Some|done].
    + split; [rewrite Hob, length_app; lia|]. intros r [Hlt Hr].
      split; [rewrite Hob, length_app; lia|]. intros taskId. rewrite Htk.
      intros Hi. apply lookup_insert_Some in Hi as [[_ <-]|[_ Hi]]; [lia|].
      by apply (Hr taskId).
Qed.

Lemma safe_cancelTask R taskId : safe R (cancelTask taskId).
Proof. unfold cancelTask. safe_all. Qed.

Lemma safe_setPushNotificationConfig R taskId config :
  safe R (setPushNotificationConfig taskId config).
Proof. unfold setPushNotificationConfig. safe_all. Qed.

Lemma safe_getPushNotificationConfig R taskId :
  safe R (getPushNotificationConfig taskId).
Proof. unfold getPushNotificationConfig. safe_all. Qed.

Lemma safe_addStreamingConnection R taskId c : safe R (addStreamingConnection taskId c).
Proof. unfold addStreamingConnection. safe_all. Qed.

Lemma safe_removeStreamingConnection R taskId c :
  safe R (removeStreamingConnection taskId c).
Proof. unfold removeStreamingConnection. safe_all. Qed.

Lemma safe_cleanupExpiredTasks R maxAge : safe R (cleanupExpiredTasks maxAge).
Proof. unfold cleanupExpiredTasks. safe_all. Qed.

Lemma safe_invoke R f task : task ∈ R → safe R (invoke f task).
Proof. intros H. unfold invoke. safe_all. Qed.

Ltac safe_calls :=
  repeat first
    [ safe_step
    | lazymatch goal with
      | |- safe_post _ (invoke _ _) _ => apply safe_invoke; safe_member
      end ].

Lemma safe_post_processTask_begin R skills taskId :
  safe_post R (processTask_begin skills taskId) (λ started, [started.1]).
Proof. unfold processTask_begin. safe_all. Qed.

#[local] Hint Resolve safe_post_processTask_begin : safe.

Lemma safe_processTask_resume R taskId outcome :
  safe R outcome → safe R (processTask_resume taskId outcome).
Proof. intros H. unfold processTask_resume. safe_all. Qed.

Lemma safe_processTask R skills taskId : safe R (processTask skills taskId).
Proof.
  unfold processTask. safe_all.
  apply safe_processTask_resume, safe_invoke. safe_member.
Qed.

#[local] Hint Resolve safe_processTask : safe.

Lemma safe_continueTask R skills taskId userMessage :
  safe R (continueTask skills taskId userMessage).
Proof.
  unfold continueTask. safe_calls.
Qed.


#[local] Hint Resolve safe_continueTask safe_createTask safe_cancelTask
  safe_setPushNotificationConfig safe_getPushNotificationConfig
  safe_addStreamingConnection safe_removeStreamingConnection : safe.

Lemma safe_set_given_config R id params : safe R (set_given_config id params).
Proof. unfold set_given_config. safe_calls. Qed.

#[local] Hint Resolve safe_set_given_config : safe.

Lemma safe_run_job R skills job : safe R (run_job skills job).
Proof. unfold run_job. safe_calls. Qed.

Lemma safe_handleTasksSend R skills params : safe R (handleTasksSend skills params).
Proof. unfold handleTasksSend. safe_calls. Qed.

Lemma safe_handleTasksSendSubscribe R params c :
  safe R (handleTasksSendSubscribe params c).
Proof. unfold handleTasksSendSubscribe. safe_calls. Qed.

Lemma safe_handleTasksPushNotificationSet R params :
  safe R (handleTasksPushNotificationSet params).
Proof. unfold handleTasksPushNotificationSet. safe_calls. Qed.

Lemma safe_handleTasksResubscribe R id c : safe R (handleTasksResubscribe id c).
Proof. unfold handleTasksResubscribe. safe_calls. Qed.

Lemma safe_keyed {A} (c : M A) m : safe [] c → keyed m → keyed (c m).2.
Proof. intros Hc Hm. by destruct (Hc m Hm (Forall_nil_2 _)) as [? _]. Qed.

Lemma keyed_new now : keyed (new_TaskManager now).
Proof. intros taskId r Hr. simpl in Hr. by rewrite lookup_empty in Hr. Qed.

Lemma keyed_call skills c m : keyed m → keyed (call skills c m).
Proof.
  intros Hm. destruct c; simpl; try (apply safe_keyed; [|exact Hm]).
  - apply safe_createTask.
  - apply safe_getTask.
  - apply safe_updateTaskStatus.
  - apply safe_addArtifacts.
  - apply safe_processTask.
  - apply (safe_post_weaken _ _ _ (safe_post_processTask_begin [] skills taskId)).
  - apply safe_processTask_resume. unfold safe. apply safe_post_pure.
    intros. apply list_subseteq_nil.
  - apply safe_continueTask.
  - apply safe_cancelTask.
  - apply safe_setPushNotificationConfig.
  - apply safe_getPushNotificationConfig.
  - apply safe_addStreamingConnection.
  - apply safe_removeStreamingConnection.
  - apply safe_cleanupExpiredTasks.
  - apply safe_notifyStreamingConnections.
  - apply safe_sendPushNotification.
  - apply safe_handleTasksSend.
  - apply safe_handleTasksSendSubscribe.
  - apply safe_handleTasksPushNotificationSet.
  - apply safe_handleTasksResubscribe.
  - apply safe_run_job.
  - exact Hm.
Qed.

(** X19: whatever calls were made on a new manager, of its methods, of
    the handlers and of the jobs they leave, in whatever order, with
    whatever capabilities registered and whatever the awaited capability
    came back with, each id of the task map leads to an existing task
    object, and that object carries this id.  Capabilities are given a copy
    of the task and act on it only. *)
Theorem tasks_are_keyed_by_their_id skills cs now taskId r :
  tasks (calls skills cs (new_TaskManager now)) !! taskId = Some r →
  ∃ t, objs (calls skills cs (new_TaskManager now)) !! r = Some t ∧ id t = taskId.
Proof.
  revert taskId r. change (keyed (calls skills cs (new_TaskManager now))).
  generalize (keyed_new now). generalize (new_TaskManager now).
  induction cs as [|c cs IH]; intros m Hm; [exact Hm|].
  apply IH, keyed_call, Hm.
Qed.

(** X19, witness: "t1" is sent with a subscription and processed to the
    [await]; it is canceled, and the capability comes back late. *)
Lemma tasks_are_keyed_by_their_id_witness :
  let params := {| sp_id := Some "t1"; sp_sessionId := Some "s1";
                   sp_message := Some analyze_request;
                   sp_pushNotification := Some demo_config |} in
  let cs := [HandleTasksSendSubscribe params 7%nat; ProcessTaskBegin "t1"; Advance 5;
             CancelTask "t1";
             ProcessTaskResume "t1"
               (Ok {| r_message := Some prompt; r_artifacts := Some [summary] |})] in
  tasks (calls demo_skills cs (new_TaskManager 1000)) !! "t1" = Some 0%nat
  ∧ ∃ t, objs (calls demo_skills cs (new_TaskManager 1000)) !! 0%nat = Some t
         ∧ id t = "t1".
Proof.
  intros params cs.
  assert (tasks (calls demo_skills cs (new_TaskManager 1000)) !! "t1" = Some 0%nat)
    as H by (vm_compute; reflexivity).
  split; [exact H|].
  exact (tasks_are_keyed_by_their_id demo_skills cs 1000 "t1" 0%nat H).
Defined.

(** ** shared/utils.js: chunkText *)

Section ChunkFacts.

Context {Unit : Type}.
Implicit Types text : list Unit.

Lemma slice_window text (i size : Z) :
  0 ≤ i → i < Z.of_nat (List.length text) → 0 < size →
  slice text i (i + size) = take (Z.to_nat size) (drop (Z.to_nat i) text).
Proof.
  intros Hi Hlen Hsize. unfold slice, slice_index.
  destruct (Z.ltb_spec i 0) as [?|_]; [lia|].
  destruct (Z.ltb_spec (i + size) 0) as [?|_]; [lia|].
  rewrite (Z.min_l i) by lia.
  destruct (Z.le_gt_cases (i + size) (Z.of_nat (List.length text))) as [Hle|Hgt].
  - rewrite Z.min_l by lia. f_equal. lia.
  - rewrite Z.min_r by lia.
    rewrite !take_ge; [done| |]; rewrite length_drop; lia.
Qed.

Lemma chunkText_from_windows (n : nat) text (size i : Z) chunks :
  0 < size → 0 ≤ i →
  (List.length (drop (Z.to_nat i) text) ≤ n)%nat →
  ∃ cs, chunkText_from n text size i chunks = Some (chunks ++ cs)
        ∧ List.concat cs = drop (Z.to_nat i) text
        ∧ ∀ (k : nat) c, cs !! k = Some c →
            c = take (Z.to_nat size) (drop (Z.to_nat i + k * Z.to_nat size) text)
            ∧ c ≠ [].
Proof.
  intros Hsize. revert i chunks.
  induction n as [|n IH]; intros i chunks Hi Hn; rewrite length_drop in Hn.
  - exists []. simpl.
    destruct (Z.ltb_spec i (Z.of_nat (List.length text))) as [?|Hge]; [lia|].
    rewrite app_nil_r, drop_ge by lia. by split_and!.
  - simpl. destruct (Z.ltb_spec i (Z.of_nat (List.length text))) as [Hlt|Hge].
    + destruct (IH (i + size) (chunks ++ [slice text i (i + size)])) as
        (cs & -> & Hcat & Hwin); [lia|rewrite length_drop; lia|].
      exists (slice text i (i + size) :: cs). rewrite <-app_assoc.
      split; [done|]. rewrite slice_window by lia.
      split.
      * simpl. rewrite Hcat. replace (Z.to_nat (i + size)) with
          (Z.to_nat i + Z.to_nat size)%nat by lia.
        rewrite <-drop_drop. apply take_drop.
      * intros [|k] c Hc; simpl in Hc.
        -- injection Hc as <-. rewrite Nat.add_0_r. split; [done|].
           intros Hnil%(f_equal List.length).
           rewrite length_take, length_drop in Hnil. simpl in Hnil. lia.
        -- destruct (Hwin k c Hc) as [-> Hne]. split; [|done].
           do 2 f_equal. lia.
    + exists []. rewrite app_nil_r, drop_ge by lia. by split_and!.
Qed.

Lemma chunkText_from_stuck (n : nat) text (size i : Z) chunks :
  size ≤ 0 → i ≤ 0 → text ≠ [] → chunkText_from n text size i chunks = None.
Proof.
  intros Hsize Hi Htext. revert i chunks Hi.
  induction n as [|n IH]; intros i chunks Hi; simpl;
    (destruct (Z.ltb_spec i (Z.of_nat (List.length text))) as [_|Hge];
     [|destruct text; [done|simpl in Hge; lia]]).
  - done.
  - apply IH. lia.
Qed.

(** X20: with a positive chunk size, and rounds enough for the length of
    the text, [chunkText] returns; its chunks put together are the text,
    and the chunk at [k] is the window of [chunkSize] units that starts
    at [k * chunkSize], which is not empty. *)
Theorem chunkText_partitions (n : nat) text (chunkSize : Z) :
  0 < chunkSize → (List.length text ≤ n)%nat →
  ∃ chunks, chunkText n text chunkSize = Some chunks
            ∧ List.concat chunks = text
            ∧ ∀ (k : nat) c, chunks !! k = Some c →
                c = take (Z.to_nat chunkSize) (drop (k * Z.to_nat chunkSize) text)
                ∧ c ≠ [].
Proof.
  intros Hsize Hn.
  destruct (chunkText_from_windows n text chunkSize 0 [] Hsize) as (cs & H & Hcat & Hwin);
    [lia|rewrite length_drop; lia|].
  exists cs. split; [exact H|]. split; [exact Hcat|exact Hwin].
Qed.

(** X21: with a chunk size of zero or below, [chunkText] of a text that
    is not empty does not return, however many rounds it is given. *)
Theorem chunkText_does_not_return (n : nat) text (chunkSize : Z) :
  chunkSize ≤ 0 → text ≠ [] → chunkText n text chunkSize = None.
Proof. intros Hsize Htext. by apply chunkText_from_stuck. Qed.

End ChunkFacts.

(** X20, witness: seven units in chunks of three. *)
Lemma chunkText_partitions_witness :
  0 < 3 ∧ (List.length [1; 2; 3; 4; 5; 6; 7] ≤ 7)%nat
  ∧ ∃ chunks, chunkText 7 [1; 2; 3; 4; 5; 6; 7] 3 = Some chunks
              ∧ List.concat chunks = [1; 2; 3; 4; 5; 6; 7]
              ∧ ∀ (k : nat) c, chunks !! k = Some c →
                  c = take (Z.to_nat 3) (drop (k * Z.to_nat 3) [1; 2; 3; 4; 5; 6; 7])
                  ∧ c ≠ [].
Proof.
  split; [lia|]. split; [simpl; lia|].
  apply (chunkText_partitions 7 [1; 2; 3; 4; 5; 6; 7] 3); [lia|simpl; lia].
Defined.

(** X21, witness: a chunk size of zero. *)
Lemma chunkText_does_not_return_witness :
  0 ≤ 0 ∧ [1; 2] ≠ [] ∧ chunkText 1000 [1; 2] 0 = None.
Proof.
  split; [lia|]. split; [done|].
  apply (chunkText_does_not_return 1000 [1; 2] 0); [lia|done].
Defined.

(** ** shared/utils.js: validators and file content *)

Lemma one_content_true f :
  one_content f = true ↔ (is_Some (fc_bytes f) ↔ fc_uri f = None).
Proof.
  unfold one_content. destruct (fc_bytes f) as [b|], (fc_uri f) as [u|]; simpl.
  - split; [done|]. intros [H _]. by specialize (H (mk_is_Some _ _ eq_refl)).
  - split; [|done]. intros _. by split.
  - split; [|done]. intros _. split; [by intros [? ?]|done].
  - split; [done|]. intros [_ H]. by destruct (H eq_refl).
Qed.

Lemma validateFileContent_file_json f :
  validateFileContent (Some (file_json f)) = one_content f.
Proof. by destruct f as [name mimeType [b|] [u|]]. Qed.

Lemma validatePart_part_json p : validatePart (part_json p) = part_content_ok p.
Proof.
  destruct p as [text md|file md|data md]; [done| |].
  - exact (validateFileContent_file_json file).
  - done.
Qed.

Lemma forallb_validatePart ps :
  forallb validatePart (map part_json ps) = forallb part_content_ok ps.
Proof.
  induction ps as [|p ps IH]; [done|].
  cbn [map forallb]. by rewrite validatePart_part_json, IH.
Qed.

Lemma validateMessage_message_json msg :
  validateMessage (Some (message_json msg))
  = (negb (List.length (parts msg) =? 0)%nat && forallb part_content_ok (parts msg))%bool.
Proof.
  unfold validateMessage, message_json.
  assert (Some (JObj [("role", JStr (role_name (role msg)));
                      ("parts", JArr (map part_json (parts msg)));
                      ("metadata", metadata_json (m_metadata msg))]) ≫= prop "parts"
          = Some (JArr (map part_json (parts msg)))) as -> by done.
  assert ((is_literal "user"
             (Some (JObj [("role", JStr (role_name (role msg)));
                          ("parts", JArr (map part_json (parts msg)));
                          ("metadata", metadata_json (m_metadata msg))]) ≫= prop "role")
           || is_literal "agent"
                (Some (JObj [("role", JStr (role_name (role msg)));
                             ("parts", JArr (map part_json (parts msg)));
                             ("metadata", metadata_json (m_metadata msg))]) ≫= prop "role"))%bool
          = true) as -> by (by destruct (role msg)).
  cbn [js_truthy is_object negb orb]. rewrite length_map.
  destruct (parts msg) as [|p ps]; [done|].
  cbn [List.length Nat.eqb negb andb].
  apply (forallb_validatePart (p :: ps)).
Qed.

Lemma validateMessage_typed msg :
  validateMessage (Some (message_json msg)) = true
  ↔ parts msg ≠ []
    ∧ ∀ file md, FilePart file md ∈ parts msg →
        (is_Some (fc_bytes file) ↔ fc_uri file = None).
Proof.
  rewrite validateMessage_message_json, andb_true_iff, forallb_forall.
  split.
  - intros [Hlen Hall]. split.
    + intros Hnil. by rewrite Hnil in Hlen.
    + intros file md Hin. apply one_content_true.
      apply (Hall (FilePart file md)). by apply list_elem_of_In.
  - intros [Hne Hall]. split.
    + by destruct (parts msg).
    + intros [text md|file md|data md] Hin; [done| |done].
      apply one_content_true, (Hall file md). by apply list_elem_of_In.
Qed.

(** X22: a message as [createMessage] and the part constructors build
    it passes [validateMessage] exactly when it has a part and each of its
    file parts has one of [bytes] and [uri] and not the other; texts,
    data and metadata do not matter. *)
Theorem validateMessage_of_created msg :
  validateMessage (Some (message_json msg)) = true
  ↔ parts msg ≠ []
    ∧ ∀ file md, FilePart file md ∈ parts msg →
        (is_Some (fc_bytes file) ↔ fc_uri file = None).
Proof. apply validateMessage_typed. Qed.

Section FileFacts.

Context {Data : Type}.
Variable encodeBase64 : Data → string.
Variable decodeBase64 : string → Data.
Variable encodeURIComponent : string → string.

(** X24: of a file object that [validateFileContent] accepts,
    [parseFileContent] gives [null] exactly when its [bytes] or its [uri]
    is the empty string. *)
Theorem valid_file_may_parse_to_null (file : FileContent) :
  validateFileContent (Some (file_json file)) = true →
  parseFileContent decodeBase64 file = None
  ↔ fc_bytes file = Some "" ∨ fc_uri file = Some "".
Proof.
  rewrite validateFileContent_file_json. unfold one_content, parseFileContent.
  destruct (fc_bytes file) as [b|], (fc_uri file) as [u|]; simpl; try done.
  - intros _. destruct (String.eqb_spec b "") as [->|Hb]; simpl.
    + split; [by left|done].
    + split; [done|]. intros [[= ->]|[=]]. done.
  - intros _. destruct (String.eqb_spec u "") as [->|Hu]; simpl.
    + split; [by right|done].
    + split; [done|]. intros [[=]|[= ->]]. done.
Qed.

(** X23: whatever the codecs, the file object of [createFileContent]
    passes [validateFileContent]; and [parseFileContent] of it gives
    [null] exactly when the file was built from data, not as a link, and
    the data encodes to the empty string. *)
Theorem created_file_is_valid name mimeType (data : Data) useUri :
  let file := createFileContent encodeBase64 encodeURIComponent name mimeType data useUri in
  validateFileContent (Some (file_json file)) = true
  ∧ (parseFileContent decodeBase64 file = None
     ↔ useUri = false ∧ encodeBase64 data = "").
Proof.
  intros file. split.
  { rewrite validateFileContent_file_json. unfold file. by destruct useUri. }
  unfold file, parseFileContent, createFileContent. destruct useUri; simpl.
  - split; [done|]. by intros [? _].
  - destruct (String.eqb_spec (encodeBase64 data) "") as [->|Hne]; simpl.
    + by split.
    + split; [done|]. by intros [_ ?].
Qed.

End FileFacts.

(** X24, witness: a file with empty [bytes]; the codec is not looked at. *)
Lemma valid_file_may_parse_to_null_witness :
  let file := {| fc_name := "a.png"; fc_mimeType := "image/png";
                 fc_bytes := Some ""; fc_uri := None |} in
  validateFileContent (Some (file_json file)) = true
  ∧ (parseFileContent (λ s, s) file = None
     ↔ fc_bytes file = Some "" ∨ fc_uri file = Some "").
Proof.
  intros file. split; [reflexivity|].
  apply (valid_file_may_parse_to_null (λ s, s) file). reflexivity.
Defined.

(** ** Authentication *)

Lemma prefix_append p t : String.prefix p (String.append p t) = true.
Proof.
  induction p as [|c p IH]; simpl; [by destruct t|].
  by destruct (ascii_dec c c).
Qed.

Lemma substring_from_append p t :
  substring_from (String.length p) (String.append p t) = t.
Proof. induction p as [|c p IH]; simpl; [by destruct t|done]. Qed.

Lemma prefix_split p s :
  String.prefix p s = true → s = String.append p (substring_from (String.length p) s).
Proof.
  revert s. induction p as [|c p IH]; intros s H; simpl; [by destruct s|].
  destruct s as [|d s]; simpl in H; [done|].
  destruct (ascii_dec c d) as [->|]; [|done].
  change (String d s = String d (String.append p (substring_from (String.length p) s))).
  f_equal. exact (IH s H).
Qed.

(** [validateBearerToken] accepts "Bearer " followed by a valid token, and
    nothing else. *)
Lemma validateBearerToken_true token validTokens :
  validateBearerToken token validTokens = true
  ↔ ∃ t, token = Some (String.append "Bearer " t) ∧ t ∈ validTokens.
Proof.
  unfold validateBearerToken, startsWith. split.
  - destruct token as [s|]; [|done]. change (default "" (Some s)) with s.
    destruct (truthy (Some s)); cbn [negb]; [|done].
    destruct (String.prefix "Bearer " s) eqn:Hp; cbn [negb]; [|done].
    intros Hin%bool_decide_eq_true. exists (substring_from 7 s).
    split; [|done]. f_equal. exact (prefix_split "Bearer " s Hp).
  - intros (t & -> & Hin).
    change (default "" (Some (String.append "Bearer " t))) with (String.append "Bearer " t).
    assert (truthy (Some (String.append "Bearer " t)) = true) as -> by done.
    rewrite prefix_append. cbn [negb].
    pose proof (substring_from_append "Bearer " t) as Hs.
    change (String.length "Bearer ") with 7%nat in Hs. rewrite Hs.
    by apply bool_decide_eq_true.
Qed.

Lemma api_key_truthy key : key ∈ VALID_API_KEYS → truthy (Some key) = true.
Proof.
  unfold VALID_API_KEYS. rewrite !elem_of_cons, elem_of_nil.
  by intros [->|[->|[]]].
Qed.

(** X25: the authentication middleware lets a request through exactly
    when its path is one of the two open ones, or its Authorization header,
    trimmed, is "Bearer " and a valid bearer token, or is some other text
    that is not empty and the request carries a valid API key.  So an API
    key without an Authorization header is refused. *)
Theorem authenticateRequest_passes path headers :
  authenticateRequest path headers = Next
  ↔ path = "/.well-known/agent.json" ∨ path = "/docs"
    ∨ ∃ auth, getAuthFromHeaders headers = Some auth
        ∧ ((∃ t, auth = String.append "Bearer " t ∧ t ∈ VALID_BEARER_TOKENS)
           ∨ (auth ≠ "" ∧ startsWith auth "Bearer " = false
              ∧ ∃ key, headers !! "x-a2a-api-key" = Some key ∧ key ∈ VALID_API_KEYS)).
Proof.
  unfold authenticateRequest.
  destruct (String.eqb_spec path "/.well-known/agent.json") as [->|Hp1];
    [split; [by left|done]|].
  destruct (String.eqb_spec path "/docs") as [->|Hp2];
    [split; [by right; left|done]|].
  cbn [orb].
  destruct (getAuthFromHeaders headers) as [auth|]; cycle 1.
  { cbn [truthy negb]. split; [done|]. by intros [?|[?|(? & [=] & _)]]. }
  change (default "" (Some auth)) with auth. unfold truthy at 1.
  destruct (String.eqb_spec auth "") as [->|Hauth].
  { cbn [negb]. split; [done|].
    intros [?|[?|(auth & [= <-] & [(t & [=] & _)|(? & _)])]]; done. }
  cbn [negb].
  destruct (startsWith auth "Bearer ") eqn:Hb.
  - destruct (validateBearerToken (Some auth) VALID_BEARER_TOKENS) eqn:Hv; cbn [negb].
    + apply validateBearerToken_true in Hv as (t & [= ->] & Hin).
      split; [|done]. intros _. right; right. exists (String.append "Bearer " t).
      split; [done|]. left. by exists t.
    + split; [done|].
      intros [?|[?|(a & [= <-] & [(t & -> & Hin)|(_ & ? & _)])]]; [done..| |congruence].
      assert (validateBearerToken (Some (String.append "Bearer " t)) VALID_BEARER_TOKENS
              = true) as Hv' by (apply validateBearerToken_true; by exists t).
      congruence.
  - destruct (headers !! "x-a2a-api-key") as [key|] eqn:Hk; cycle 1.
    { cbn [truthy]. split; [done|].
      intros [?|[?|(a & [= <-] & [(t & -> & _)|(_ & _ & key & [=] & _)])]]; [done..|].
      unfold startsWith in Hb. by rewrite prefix_append in Hb. }
    change (default "" (Some key)) with key. destruct (truthy (Some key)) eqn:Ht.
    + destruct (decide (key ∈ VALID_API_KEYS)) as [Hin|Hout].
      * rewrite bool_decide_eq_true_2 by done. cbn [negb]. split; [|done].
        intros _. right; right. exists auth. split; [done|]. right.
        split_and!; [done..|]. by exists key.
      * rewrite bool_decide_eq_false_2 by done. cbn [negb]. split; [done|].
        intros [?|[?|(a & [= <-] & [(t & -> & _)|(_ & _ & k & [= <-] & ?)])]];
          [done..| |done].
        unfold startsWith in Hb. by rewrite prefix_append in Hb.
    + split; [done|].
      intros [?|[?|(a & [= <-] & [(t & -> & _)|(_ & _ & k & [= <-] & Hin)])]];
        [done..| |].
      * unfold startsWith in Hb. by rewrite prefix_append in Hb.
      * apply api_key_truthy in Hin. congruence.
Qed.

(** ** The method handlers *)

Lemma truthy_Some s : s ≠ "" → truthy (Some s) = true.
Proof. intros H. unfold truthy. by destruct (String.eqb_spec s ""). Qed.

Lemma validateMessage_rejects msg :
  parts msg = []
  ∨ (∃ file md, FilePart file md ∈ parts msg
                ∧ (is_Some (fc_bytes file) ↔ is_Some (fc_uri file))) →
  validateMessage (Some (message_json msg)) = false.
Proof.
  intros H. destruct (validateMessage (Some (message_json msg))) eqn:E; [|done].
  apply validateMessage_typed in E as [Hne Hall].
  destruct H as [Hnil|(file & md & Hin & Hboth)]; [done|].
  specialize (Hall file md Hin).
  destruct (fc_bytes file) as [b|], (fc_uri file) as [u|].
  - destruct Hall as [Hall _]. by specialize (Hall (mk_is_Some _ _ eq_refl)).
  - destruct Hboth as [Hboth _]. by destruct (Hboth (mk_is_Some _ _ eq_refl)).
  - destruct Hboth as [_ Hboth]. by destruct (Hboth (mk_is_Some _ _ eq_refl)).
  - destruct Hall as [_ Hall]. by destruct (Hall eq_refl).
Qed.

Lemma getTask_frame taskId n m :
  tasks (getTask taskId n m).2 = tasks m
  ∧ pushNotificationConfigs (getTask taskId n m).2 = pushNotificationConfigs m
  ∧ streamingConnections (getTask taskId n m).2 = streamingConnections m
  ∧ sent (getTask taskId n m).2 = sent m
  ∧ closed (getTask taskId n m).2 = closed m
  ∧ posted (getTask taskId n m).2 = posted m
  ∧ clock (getTask taskId n m).2 = clock m.
Proof.
  destruct (tasks m !! taskId) as [r|] eqn:Hr.
  - destruct (objs m !! r) as [t|] eqn:Ht.
    + by rewrite (getTask_found _ _ _ _ _ Hr Ht).
    + unfold getTask, bind, gets. rewrite Hr. by rewrite (load_fail _ _ Ht).
  - by rewrite (getTask_missing _ _ _ Hr).
Qed.

Lemma createTask_posted params m : posted (createTask params m).2 = posted m.
Proof.
  destruct (tasks m !! p_id params) as [r|] eqn:E.
  - by rewrite createTask_existing by (by rewrite E).
  - unfold createTask, bind, gets, alloc, modify, ret.
    rewrite bool_decide_eq_false_2 by (rewrite E; by intros [? ?]). simpl.
    destruct (truthy (p_sessionId params)); simpl; [|done].
    by destruct (bool_decide _).
Qed.

(** The handlers' [if (params.pushNotification) ...] on a task that is
    there. *)
Lemma set_given_config_found id params m t :
  stored m id = Some t →
  ∃ m', set_given_config id params m = (Ok tt, m')
        ∧ tasks m' = tasks m
        ∧ stored m' id = Some t
        ∧ (List.length (objs m) ≤ List.length (objs m'))%nat
        ∧ (∀ r, is_Some (objs m !! r) → objs m' !! r = objs m !! r)
        ∧ pushNotificationConfigs m'
          = match sp_pushNotification params with
            | Some config => <[id := config]> (pushNotificationConfigs m)
            | None => pushNotificationConfigs m
            end
        ∧ streamingConnections m' = streamingConnections m
        ∧ clock m' = clock m ∧ sent m' = sent m ∧ closed m' = closed m
        ∧ posted m' = posted m.
Proof.
  intros Hst. pose proof Hst as (r & Hr & Ht)%stored_Some.
  unfold set_given_config. destruct (sp_pushNotification params) as [config|].
  - exists (with_configs (insert id config) (with_objs (λ h, h ++ [t]) m)). split.
    { assert (setPushNotificationConfig id (Some config) m
              = (Ok (id, Some config),
                 with_configs (insert id config) (with_objs (λ h, h ++ [t]) m))) as Hset.
      { unfold setPushNotificationConfig.
        rewrite (bind_ok _ _ _ _ _ (getTask_found _ 0 _ _ _ Hr Ht)).
        by rewrite truncated_0. }
      by rewrite (bind_ok _ _ _ _ _ Hset). }
    simpl. split_and!; try done.
    + apply stored_Some. exists r. split; [done|]. by apply lookup_app_l_Some.
    + rewrite length_app. lia.
    + intros r' [x Hx]. rewrite Hx. by apply lookup_app_l_Some.
  - exists m. by split_and!.
Qed.

(** [addStreamingConnection] on a task that is there, with what it leaves
    alone. *)
Lemma addStreamingConnection_attached taskId c m t :
  stored m taskId = Some t →
  ∃ m', addStreamingConnection taskId c m = (Ok tt, m')
        ∧ sent m' = sent m ++ replay c t
        ∧ closed m' = closed m
        ∧ streamingConnections m'
          = <[taskId := default [] (streamingConnections m !! taskId) ++ [c]]>
              (streamingConnections m)
        ∧ tasks m' = tasks m
        ∧ objs m' = objs m ++ [t]
        ∧ clock m' = clock m
        ∧ pushNotificationConfigs m' = pushNotificationConfigs m
        ∧ posted m' = posted m.
Proof.
  intros (r & Hr & Ht)%stored_Some.
  unfold addStreamingConnection, bind at 1, gets.
  set (sc' := <[taskId := default [] (streamingConnections m !! taskId) ++ [c]]>
                (streamingConnections m)).
  set (m1 := with_connections (λ _, sc') m).
  assert (∀ k : unit → M unit,
    bind (if bool_decide (is_Some (streamingConnections m !! taskId))
          then ret tt else modify (with_connections (insert taskId [])))
      (λ _, bind (modify (with_connections (alter (λ l, l ++ [c]) taskId))) k) m
    = k tt m1) as ->.
  { intros k. unfold m1, sc', bind, modify, ret, with_connections.
    destruct (streamingConnections m !! taskId) as [cs|] eqn:E; simpl.
    - do 3 f_equal.
      apply map_eq. intros i. destruct (decide (i = taskId)) as [->|].
      + by rewrite lookup_alter_eq, lookup_insert_eq, E.
      + by rewrite lookup_alter_ne, lookup_insert_ne.
    - do 3 f_equal.
      apply map_eq. intros i. destruct (decide (i = taskId)) as [->|].
      + by rewrite lookup_alter_eq, !lookup_insert_eq.
      + by rewrite lookup_alter_ne, !lookup_insert_ne. }
  assert (tasks m1 !! taskId = Some r) as Hr1 by done.
  assert (objs m1 !! r = Some t) as Ht1 by done.
  rewrite (bind_ok _ _ _ _ _ (getTask_found _ 0 _ _ _ Hr1 Ht1)), truncated_0.
  unfold bind at 1. unfold load at 1. simpl objs. rewrite lookup_app_end.
  unfold bind at 1. unfold sendEvent at 1, modify.
  unfold replay. destruct (artifacts t) as [arts|].
  - rewrite for_each_sendEvent_to. eexists; split; [reflexivity|]. simpl.
    split_and!; try done. by rewrite <- app_assoc.
  - eexists; split; [reflexivity|]. by simpl.
Qed.

Section HandlerFacts.

Variable skills : gmap string Skill.

Ltac enter_handler Hid Hne Hmsg Hvalid :=
  rewrite Hmsg, Hid, (truthy_Some _ Hne), Hvalid; cbn [negb];
  match goal with
  | |- context [default "" (Some ?i)] => change (default "" (Some i)) with i
  end.

(** The path of a new task id through the two send handlers, up to the
    point where they differ. *)
Lemma new_task_path id message params m :
  tasks m !! id = None →
  let r := List.length (objs m) in
  let t := new_task (create_params id message params) (clock m) in
  ∃ m', (createTask (create_params id message params) ;;; set_given_config id params) m
        = (Ok tt, m')
        ∧ tasks m' = <[id := r]> (tasks m)
        ∧ objs m' !! r = Some t
        ∧ pushNotificationConfigs m'
          = match sp_pushNotification params with
            | Some config => <[id := config]> (pushNotificationConfigs m)
            | None => pushNotificationConfigs m
            end
        ∧ streamingConnections m' = streamingConnections m
        ∧ clock m' = clock m ∧ sent m' = sent m ∧ closed m' = closed m
        ∧ posted m' = posted m.
Proof.
  intros Hnew r t.
  destruct (createTask_fresh (create_params id message params) m Hnew)
    as (ma & Hrun & Htk & Hob & Hcf & Hsc & Hck & Hse & Hcl).
  pose proof (createTask_posted (create_params id message params) m) as Hpo.
  rewrite Hrun in Hpo. simpl in Hpo.
  assert (stored ma id = Some t) as Hst.
  { apply stored_Some. exists r. rewrite Htk, Hob. split.
    - apply lookup_insert_eq.
    - apply lookup_app_end. }
  destruct (set_given_config_found id params ma t Hst)
    as (mb & Hset & Htk' & Hst' & _ & Hfr & Hcf' & Hsc' & Hck' & Hse' & Hcl' & Hpo').
  exists mb. split.
  { by rewrite (bind_ok _ _ _ _ _ Hrun). }
  rewrite Htk', Htk, Hcf', Hcf, Hsc', Hsc, Hck', Hck, Hse', Hse, Hcl', Hcl, Hpo', Hpo.
  split_and!; try done.
  apply stored_Some in Hst' as (r' & Hr' & Ht').
  rewrite Htk', Htk, lookup_insert_eq in Hr'. by injection Hr' as <-.
Qed.

(** X26: the two send handlers check their parameters before anything
    else: with no id or an empty one, with no message, with a message
    without parts, or with a file part that has both or neither of [bytes]
    and [uri], they throw INVALID_PARAMS and the manager is as it was. *)
Theorem send_handlers_validate_first params c m :
  truthy (sp_id params) = false
  ∨ sp_message params = None
  ∨ (∃ msg, sp_message params = Some msg
            ∧ (parts msg = []
               ∨ ∃ file md, FilePart file md ∈ parts msg
                            ∧ (is_Some (fc_bytes file) ↔ is_Some (fc_uri file)))) →
  ∃ text,
    handleTasksSend skills params m
    = (Throw (JsonRpcError ErrorCodes.INVALID_PARAMS text None), m)
    ∧ handleTasksSendSubscribe params c m
      = (Throw (JsonRpcError ErrorCodes.INVALID_PARAMS text None), m).
Proof.
  intros H. unfold handleTasksSend, handleTasksSendSubscribe.
  destruct (sp_message params) as [message|] eqn:Hmsg; cycle 1.
  { by exists "Missing required parameters: id, message". }
  destruct (truthy (sp_id params)) eqn:Hid; cycle 1.
  { by exists "Missing required parameters: id, message". }
  destruct H as [?|[?|(msg & [= <-] & Hbad)]]; [done..|].
  rewrite (validateMessage_rejects _ Hbad).
  by exists "Invalid message format".
Qed.

(** X27: tasks/send with a valid message and an id that is not known
    creates the task, stores the push configuration when the request has
    one, and returns the stored task object itself, not a copy, with
    [processTask] left to run; nothing has been sent or pushed yet. *)
Theorem handleTasksSend_new params id message m :
  sp_id params = Some id → id ≠ "" →
  sp_message params = Some message →
  validateMessage (Some (message_json message)) = true →
  tasks m !! id = None →
  ∃ r m',
    handleTasksSend skills params m = (Ok (r, Some (ProcessJob id)), m')
    ∧ tasks m' !! id = Some r
    ∧ objs m' !! r = Some (new_task (create_params id message params) (clock m))
    ∧ pushNotificationConfigs m'
      = match sp_pushNotification params with
        | Some config => <[id := config]> (pushNotificationConfigs m)
        | None => pushNotificationConfigs m
        end
    ∧ streamingConnections m' = streamingConnections m
    ∧ sent m' = sent m ∧ closed m' = closed m ∧ posted m' = posted m.
Proof.
  intros Hid Hne Hmsg Hvalid Hnew.
  destruct (new_task_path id message params m Hnew)
    as (m' & Hrun & Htk & Hob & Hcf & Hsc & _ & Hse & Hcl & Hpo).
  exists (List.length (objs m)), m'. split.
  { unfold handleTasksSend. enter_handler Hid Hne Hmsg Hvalid.
    unfold try_catch. rewrite (bind_throw _ _ _ _ _ (getTask_missing _ 0 _ Hnew)).
    rewrite bool_decide_eq_true_2 by done.
    unfold bind in Hrun |- *.
    destruct (createTask (create_params id message params) m) as [[r|e] ma] eqn:E;
      [|done].
    destruct (createTask_fresh (create_params id message params) m Hnew)
      as (? & E' & _). rewrite E in E'. injection E' as -> _.
    by rewrite Hrun. }
  rewrite Htk, lookup_insert_eq. by split_and!.
Qed.

(** X28: for a task that exists and is not waiting for input, tasks/send
    throws INVALID_TASK_STATE with the current state, and only a copy of
    the task has been made; tasks/sendSubscribe with the same parameters
    does not throw: the message is dropped, no job is left, and the new
    connection is attached and sent the current status and the artifacts
    with final=false, whether or not the task has already ended. *)
Theorem send_to_a_task_that_is_not_waiting params id message c m t :
  sp_id params = Some id → id ≠ "" →
  sp_message params = Some message →
  validateMessage (Some (message_json message)) = true →
  stored m id = Some t →
  is_input_required (state (status t)) = false →
  handleTasksSend skills params m
  = (Throw (JsonRpcError ErrorCodes.INVALID_TASK_STATE
              "Task already exists and is not waiting for input"
              (current_state_data (state (status t)))),
     with_objs (λ h, h ++ [t]) m)
  ∧ ∃ m', handleTasksSendSubscribe params c m = (Ok None, m')
          ∧ stored m' id = Some t
          ∧ sent m' = sent m ++ replay c t
          ∧ closed m' = closed m
          ∧ streamingConnections m' !! id
            = Some (default [] (streamingConnections m !! id) ++ [c]).
Proof.
  intros Hid Hne Hmsg Hvalid Hst Hbusy.
  pose proof Hst as (r & Hr & Ht)%stored_Some.
  pose proof (getTask_found _ 0 _ _ _ Hr Ht) as Hget. rewrite truncated_0 in Hget.
  set (m0 := with_objs (λ h, h ++ [t]) m) in *.
  assert (objs m0 !! List.length (objs m) = Some t) as Hcopy by apply lookup_app_end.
  split.
  - unfold handleTasksSend. enter_handler Hid Hne Hmsg Hvalid.
    unfold try_catch. rewrite (bind_ok _ _ _ _ _ Hget).
    rewrite (bind_ok _ _ _ _ _ (load_ok _ _ _ Hcopy)), Hbusy.
    unfold throw. by rewrite bool_decide_eq_false_2.
  - assert (stored m0 id = Some t) as Hst0.
    { apply stored_Some. exists r. split; [done|]. by apply lookup_app_l_Some. }
    destruct (addStreamingConnection_replay id c m0 t Hst0)
      as (m' & Hadd & Hse & Hcl & Hsc & Htk & Hob).
    exists m'. split.
    { unfold handleTasksSendSubscribe. enter_handler Hid Hne Hmsg Hvalid.
      unfold try_catch. rewrite (bind_ok _ _ _ _ _ Hget).
      rewrite (bind_ok _ _ _ _ _ Hadd).
      assert (objs m' !! List.length (objs m) = Some t) as Hcopy'.
      { rewrite Hob. by apply lookup_app_l_Some. }
      by rewrite (bind_ok _ _ _ _ _ (load_ok _ _ _ Hcopy')), Hbusy. }
    split_and!; [|done..|].
    + apply stored_Some. exists r. rewrite Htk, Hob. split; [done|].
      by do 2 apply lookup_app_l_Some.
    + rewrite Hsc. apply lookup_insert_eq.
Qed.

(** X29: tasks/sendSubscribe with a valid message and an id that is not
    known, followed by the job it left, when the capability returns: the
    new connection is sent the submitted status; then it and the
    connections that were registered under the id before are sent the
    working status, the returned artifacts and the completed status, this
    one with final=true, and are closed and removed. *)
Theorem sendSubscribe_new_stream params id message c m d skill result :
  sp_id params = Some id → id ≠ "" →
  sp_message params = Some message →
  validateMessage (Some (message_json message)) = true →
  tasks m !! id = None →
  let t := new_task (create_params id message params) (clock m) in
  lookup_skill skills (determineSkill t) = Some skill →
  snd (process skill t) = Ok result →
  let cs := default [] (streamingConnections m !! id) ++ [c] in
  let working := workingStatus (clock m + d) in
  let done := completedStatus result (clock m + d) in
  ∃ m1 m2 t',
    handleTasksSendSubscribe params c m = (Ok (Some (ProcessJob id)), m1)
    ∧ run_job skills (ProcessJob id) (advance d m1) = (Ok tt, m2)
    ∧ sent m2 = sent m ++ [event_to (StatusEvent (status t)) false c]
                ++ status_events cs working false
                ++ artifact_events cs (result_artifacts result)
                ++ status_events cs done true
    ∧ closed m2 = closed m ++ cs
    ∧ streamingConnections m2 !! id = None
    ∧ stored m2 id = Some t'
    ∧ status t' = done.
Proof.
  intros Hid Hne Hmsg Hvalid Hnew t Hsk Hres cs working done.
  destruct (new_task_path id message params m Hnew)
    as (ma & Hrun & Htk & Hob & _ & Hsc & Hck & Hse & Hcl & _).
  assert (stored ma id = Some t) as Hst.
  { apply stored_Some. eexists. split; [|exact Hob]. rewrite Htk. apply lookup_insert_eq. }
  destruct (addStreamingConnection_attached id c ma t Hst)
    as (m1 & Hadd & Hse1 & Hcl1 & Hsc1 & Htk1 & Hob1 & Hck1' & _).
  assert (stored (advance d m1) id = Some t) as Hst1.
  { apply stored_Some. eexists. simpl. rewrite Htk1, Htk, Hob1. split.
    - apply lookup_insert_eq.
    - by apply lookup_app_l_Some. }
  destruct (processTask_success_path skills id (advance d m1) t skill result Hst1 Hsk Hres)
    as (rc & m2 & t' & Hproc & Hst2 & _ & Hstatus & _ & _ & Hse2 & Hcl2 & Hsc2 & _).
  assert (clock (advance d m1) = clock m + d) as Hck1.
  { simpl. by rewrite Hck1', Hck. }
  assert (default [] (streamingConnections (advance d m1) !! id) = cs) as Hcs.
  { simpl. rewrite Hsc1, lookup_insert_eq, Hsc. done. }
  rewrite Hck1, Hcs in Hse2. rewrite Hcs in Hcl2. rewrite Hck1 in Hstatus.
  exists m1, m2, t'. split.
  { unfold handleTasksSendSubscribe. enter_handler Hid Hne Hmsg Hvalid.
    unfold try_catch. rewrite (bind_throw _ _ _ _ _ (getTask_missing _ 0 _ Hnew)).
    rewrite bool_decide_eq_true_2 by done.
    unfold bind in Hrun |- *.
    destruct (createTask (create_params id message params) m) as [[r|e] mc]; [|done].
    destruct (set_given_config id params mc) as [[[]|e] md]; [|done].
    injection Hrun as ->. by rewrite Hadd. }
  split.
  { unfold run_job, try_catch. by rewrite (bind_ok _ _ _ _ _ Hproc). }
  split_and!; [| |done..].
  - rewrite Hse2. simpl. rewrite Hse1, Hse. unfold replay. simpl.
    by rewrite <- !app_assoc.
  - rewrite Hcl2. simpl. by rewrite Hcl1, Hcl.
Qed.

End HandlerFacts.

(** X30: tasks/pushNotification/set never removes a push configuration:
    it throws when the request has none, although [setPushNotificationConfig]
    itself removes the stored one when it is given none. *)
Theorem pushNotification_set_never_clears params m taskId config :
  pushNotificationConfigs m !! taskId = Some config →
  is_Some (pushNotificationConfigs (handleTasksPushNotificationSet params m).2 !! taskId).
Proof.
  intros H. unfold handleTasksPushNotificationSet.
  destruct (pp_pushNotificationConfig params) as [given|];
    [|unfold throw; cbn [snd]; by rewrite H].
  destruct (truthy (pp_id params)); cbn [negb];
    [|unfold throw; cbn [snd]; by rewrite H].
  unfold setPushNotificationConfig, bind.
  destruct (getTask_frame (default "" (pp_id params)) 0 m) as (_ & Hcf & _).
  destruct (getTask (default "" (pp_id params)) 0 m) as [[r|e] m1]; simpl in *.
  - destruct (decide (taskId = default "" (pp_id params))) as [->|Hne].
    + rewrite lookup_insert_eq. by eexists.
    + rewrite lookup_insert_ne by done. by rewrite Hcf, H.
  - by rewrite Hcf, H.
Qed.

(** X30, witness: a request without a configuration, for a task that has
    one. *)
Lemma pushNotification_set_never_clears_witness :
  let m := (setPushNotificationConfig "t1" (Some demo_config) demo_submitted).2 in
  let params := {| pp_id := Some "t1"; pp_pushNotificationConfig := None |} in
  pushNotificationConfigs m !! "t1" = Some demo_config
  ∧ is_Some (pushNotificationConfigs (handleTasksPushNotificationSet params m).2 !! "t1").
Proof.
  intros m params.
  assert (pushNotificationConfigs m !! "t1" = Some demo_config) as H
    by (vm_compute; reflexivity).
  split; [exact H|].
  exact (pushNotification_set_never_clears params m "t1" demo_config H).
Defined.

(** ** Witnesses for the handlers *)

(** X12, witness: a new task has no explicit skill. *)
Lemma determineSkill_routes_witness :
  let t := new_task demo_params 1000 in
  truthy (metadata t ≫= md_skill) = false
  ∧ (determineSkill t = None ↔ message (status t) = None)
  ∧ (∀ s, determineSkill t = Some s → s ∈ skill_names).
Proof.
  intros t. split; [reflexivity|].
  exact (proj2 (determineSkill_routes t) eq_refl).
Defined.

(** X26, witness: a file part with both [bytes] and [uri]. *)
Lemma send_handlers_validate_first_witness :
  let file := {| fc_name := "a.png"; fc_mimeType := "image/png";
                 fc_bytes := Some "QQ=="; fc_uri := Some "https://x.example/a.png" |} in
  let msg := createMessage user [createTextPart "look"; FilePart file None] in
  let params := {| sp_id := Some "t2"; sp_sessionId := None; sp_message := Some msg;
                   sp_pushNotification := None |} in
  validateMessage (Some (message_json msg)) = false
  ∧ ∃ text,
      handleTasksSend demo_skills params demo_submitted
      = (Throw (JsonRpcError ErrorCodes.INVALID_PARAMS text None), demo_submitted)
      ∧ handleTasksSendSubscribe params 9%nat demo_submitted
        = (Throw (JsonRpcError ErrorCodes.INVALID_PARAMS text None), demo_submitted).
Proof.
  intros file msg params. split; [reflexivity|].
  apply (send_handlers_validate_first demo_skills params 9%nat demo_submitted).
  right; right. exists msg. split; [reflexivity|]. right. exists file, None.
  split; [apply list_elem_of_further, list_elem_of_here|].
  split; intros _; by eexists.
Defined.

(** X27, witness: "t2" is sent with a push configuration while "t1" is
    there. *)
Lemma handleTasksSend_new_witness :
  let params := {| sp_id := Some "t2"; sp_sessionId := None;
                   sp_message := Some analyze_request;
                   sp_pushNotification := Some demo_config |} in
  "t2" ≠ ""
  ∧ validateMessage (Some (message_json analyze_request)) = true
  ∧ tasks demo_submitted !! "t2" = None
  ∧ ∃ r m',
      handleTasksSend demo_skills params demo_submitted = (Ok (r, Some (ProcessJob "t2")), m')
      ∧ tasks m' !! "t2" = Some r
      ∧ objs m' !! r
        = Some (new_task (create_params "t2" analyze_request params) 1000)
      ∧ pushNotificationConfigs m' !! "t2" = Some demo_config
      ∧ sent m' = [] ∧ posted m' = [].
Proof.
  intros params.
  split; [done|]. split; [reflexivity|]. split; [reflexivity|].
  destruct (handleTasksSend_new demo_skills params "t2" analyze_request demo_submitted)
    as (r & m' & H1 & H2 & H3 & H4 & _ & H5 & _ & H6);
    [reflexivity|done|reflexivity|reflexivity|reflexivity|].
  exists r, m'. split; [exact H1|]. split; [exact H2|]. split; [exact H3|].
  split; [|split; [exact H5|exact H6]].
  rewrite H4. apply lookup_insert_eq.
Defined.

(** X28, witness: "t1" is submitted, and is sent again. *)
Lemma send_to_a_task_that_is_not_waiting_witness :
  let params := {| sp_id := Some "t1"; sp_sessionId := None;
                   sp_message := Some answer; sp_pushNotification := None |} in
  let t := new_task demo_params 1000 in
  "t1" ≠ ""
  ∧ validateMessage (Some (message_json answer)) = true
  ∧ stored demo_submitted "t1" = Some t
  ∧ is_input_required (state (status t)) = false
  ∧ fst (handleTasksSend demo_skills params demo_submitted)
    = Throw (JsonRpcError ErrorCodes.INVALID_TASK_STATE
               "Task already exists and is not waiting for input"
               (Some (JObj [("currentState", JStr "submitted")])))
  ∧ ∃ m', handleTasksSendSubscribe params 9%nat demo_submitted = (Ok None, m')
          ∧ stored m' "t1" = Some t
          ∧ sent m' = [event_to (StatusEvent (status t)) false 9%nat]
          ∧ streamingConnections m' !! "t1" = Some [9%nat].
Proof.
  intros params t.
  split; [done|]. split; [reflexivity|]. split; [reflexivity|]. split; [reflexivity|].
  destruct (send_to_a_task_that_is_not_waiting demo_skills params "t1" answer 9%nat
              demo_submitted t)
    as (H1 & m' & H2 & H3 & H4 & _ & H5);
    [reflexivity|done|reflexivity|reflexivity|reflexivity|reflexivity|].
  split; [by rewrite H1|].
  exists m'. split; [exact H2|]. split; [exact H3|]. split; [exact H4|exact H5].
Defined.

(** X29, witness: "t2" is sent with a subscription while a connection of an
    earlier time is still registered under "t2". *)
Lemma sendSubscribe_new_stream_witness :
  let m := (addStreamingConnection "t2" 4%nat demo_submitted).2 in
  let params := {| sp_id := Some "t2"; sp_sessionId := None;
                   sp_message := Some analyze_request;
                   sp_pushNotification := None |} in
  let t := new_task (create_params "t2" analyze_request params) 1000 in
  let skill := {| process := echo; continueOrchestration := None |} in
  let result := {| r_message := Some analyze_request; r_artifacts := Some [summary] |} in
  let working := workingStatus 1005 in
  let done := completedStatus result 1005 in
  "t2" ≠ ""
  ∧ validateMessage (Some (message_json analyze_request)) = true
  ∧ tasks m !! "t2" = None
  ∧ lookup_skill demo_skills (determineSkill t) = Some skill
  ∧ snd (process skill t) = Ok result
  ∧ ∃ m1 m2 t',
      handleTasksSendSubscribe params 9%nat m = (Ok (Some (ProcessJob "t2")), m1)
      ∧ run_job demo_skills (ProcessJob "t2") (advance 5 m1) = (Ok tt, m2)
      ∧ sent m2 = [event_to (StatusEvent (status t)) false 9%nat;
                   event_to (StatusEvent working) false 4%nat;
                   event_to (StatusEvent working) false 9%nat;
                   event_to (ArtifactEvent summary) false 4%nat;
                   event_to (ArtifactEvent summary) false 9%nat;
                   event_to (StatusEvent done) true 4%nat;
                   event_to (StatusEvent done) true 9%nat]
      ∧ closed m2 = [4%nat; 9%nat]
      ∧ stored m2 "t2" = Some t'
      ∧ status t' = done.
Proof.
  intros m params t skill result working done.
  split; [done|]. split; [reflexivity|]. split; [reflexivity|].
  split; [reflexivity|]. split; [reflexivity|].
  destruct (sendSubscribe_new_stream demo_skills params "t2" analyze_request 9%nat m 5
              skill result)
    as (m1 & m2 & t' & H1 & H2 & H3 & H4 & _ & H5 & H6);
    [reflexivity|done|reflexivity|reflexivity|reflexivity|reflexivity|reflexivity|].
  exists m1, m2, t'. split; [exact H1|]. split; [exact H2|].
  split; [exact H3|]. split; [exact H4|]. split; [exact H5|exact H6].
Defined.
